(** * Karpathy RSS digest: a shallow embedding of [rss_reader.py]

    The development models the ingestion pipeline of [rss_reader.py]
    (dedup store, feed fetcher, content enricher, batch transformer,
    orchestrator pass and poll loop) as executable Rocq functions, and
    states the behaviour of the pipeline as theorems about them.

    Conventions.
    - A Python [str] is a [string] holding its UTF-8 encoding; [len] and
      slicing count code points ([py_len], [py_take]), [str.encode()] is the
      identity, and [<] on [str] is the byte-wise lexicographic order (which
      coincides with the code-point order on UTF-8).
    - A timezone-aware [datetime] is the instant it denotes, in
      microseconds since [datetime.min] taken as UTC.
    - A Python [dict] with string keys is a [gmap string _].
    - Everything the program obtains from a collaborator (HTTP responses,
      the classifier's replies, the clock, the files) is an explicit input
      of the function that consumes it. *)

From Stdlib Require Import ZArith List Bool Ascii String Lia Sorting.Sorted Sorting.Permutation.
From Corelib Require Import PrimFloat.
From stdpp Require Import gmap strings list fin_maps sorting.

Set Warnings "-register-all,-clear-no-such-hyp".
Local Open Scope Z_scope.

(** ** Python strings *)

(** A byte of the form [10xxxxxx] continues a UTF-8 sequence. *)
Definition is_continuation (c : ascii) : bool :=
  let n := N_of_ascii c in (128 <=? n)%N && (n <? 192)%N.

(** [len(s)]: the number of code points. *)
Fixpoint py_len (s : string) : nat :=
  match s with
  | EmptyString => O
  | String c s' => if is_continuation c then py_len s' else S (py_len s')
  end.

(** The continuation bytes at the head of [s], and what follows them. *)
Fixpoint take_continuation (s : string) : string :=
  match s with
  | String c s' => if is_continuation c then String c (take_continuation s') else EmptyString
  | EmptyString => EmptyString
  end.

(** [s[:n]]: the first [n] code points. *)
Fixpoint py_take (n : nat) (s : string) : string :=
  match n, s with
  | O, _ => EmptyString
  | _, EmptyString => EmptyString
  | S n', String c s' =>
      String c (take_continuation s' +:+
                py_take n' (String.substring (String.length (take_continuation s'))
                                             (String.length s') s'))
  end.

Arguments py_take : simpl never.

(** Truthiness of a [str]: non-empty. *)
Definition str_truthy (s : string) : bool :=
  match s with EmptyString => false | _ => true end.

(** [a or b] on two [str]. *)
Definition str_or (a b : string) : string := if str_truthy a then a else b.

(** [a > b] on [str]. *)
Definition str_gtb (a b : string) : bool := String.ltb b a.

(** ** JSON values, as [json.loads] returns them *)

Inductive json : Type :=
  | JNull
  | JBool (b : bool)
  | JInt (z : Z)
  | JFloat (f : float)
  | JStr (s : string)
  | JArr (l : list json)
  | JObj (m : gmap string json).

(** [bool(v)]. *)
Definition truthy (v : json) : bool :=
  match v with
  | JNull => false
  | JBool b => b
  | JInt z => negb (z =? 0)
  | JFloat f => negb (PrimFloat.eqb f PrimFloat.zero)
  | JStr s => str_truthy s
  | JArr l => match l with [] => false | _ => true end
  | JObj m => negb (bool_decide (m = ∅))
  end.

(** [v == s] for a [str] [s]: only an equal [str] compares equal. *)
Definition json_eq_str (v : json) (s : string) : bool :=
  match v with
  | JStr t => String.eqb t s
  | _ => false
  end.

(** [d.get(k, default)] on a [dict]. *)
Definition dict_get (d : gmap string json) (k : string) (default : json) : json :=
  match d !! k with
  | Some v => v
  | None => default
  end.

(** ** Aware datetimes *)

(** An aware [datetime] is its instant: microseconds since
    [datetime.min.replace(tzinfo=timezone.utc)]. *)
Definition datetime := Z.

Definition datetime_min_utc : datetime := 0.

Definition US_PER_SECOND : Z := 1000000.
Definition US_PER_DAY : Z := 86400 * US_PER_SECOND.

Definition is_leap (y : Z) : bool :=
  (y mod 4 =? 0) && (negb (y mod 100 =? 0) || (y mod 400 =? 0)).

Definition days_before_year (y : Z) : Z :=
  let y := y - 1 in y * 365 + y / 4 - y / 100 + y / 400.

Definition DAYS_IN_MONTH : list Z := [0; 31; 28; 31; 30; 31; 30; 31; 31; 30; 31; 30; 31].

Definition DAYS_BEFORE_MONTH : list Z :=
  [0; 0; 31; 59; 90; 120; 151; 181; 212; 243; 273; 304; 334].

Definition days_before_month (y m : Z) : Z :=
  nth (Z.to_nat m) DAYS_BEFORE_MONTH 0 + (if (2 <? m) && is_leap y then 1 else 0).

(** [date(y, m, d).toordinal()]. *)
Definition ymd2ord (y m d : Z) : Z :=
  days_before_year y + days_before_month y m + d.

Definition DI400Y : Z := 146097.
Definition DI100Y : Z := 36524.
Definition DI4Y : Z := 1461.

(** [date.fromordinal(n)] as (year, month, day). *)
Definition ord2ymd (n : Z) : Z * Z * Z :=
  let n := n - 1 in
  let n400 := n / DI400Y in let n := n mod DI400Y in
  let year := n400 * 400 + 1 in
  let n100 := n / DI100Y in let n := n mod DI100Y in
  let n4 := n / DI4Y in let n := n mod DI4Y in
  let n1 := n / 365 in let n := n mod 365 in
  let year := year + n100 * 100 + n4 * 4 + n1 in
  if (n1 =? 4) || (n100 =? 4) then (year - 1, 12, 31)
  else
    let leapyear := (n1 =? 3) && (negb (n4 =? 24) || (n100 =? 3)) in
    let month := Z.shiftr (n + 50) 5 in
    let preceding :=
      nth (Z.to_nat month) DAYS_BEFORE_MONTH 0
      + (if (2 <? month) && leapyear then 1 else 0) in
    if n <? preceding then
      let month' := month - 1 in
      let preceding' :=
        preceding
        - (nth (Z.to_nat month') DAYS_IN_MONTH 0
           + (if (month' =? 2) && leapyear then 1 else 0)) in
      (year, month', n - preceding' + 1)
    else (year, month, n - preceding + 1).

(** [datetime(y, mo, d, h, mi, s, us, tzinfo=timezone.utc)]. *)
Definition mk_datetime (y mo d h mi s us : Z) : datetime :=
  (((ymd2ord y mo d - 1) * 86400 + h * 3600 + mi * 60 + s) * US_PER_SECOND) + us.

(** The largest ordinal of a [date]: [date.max.toordinal()]. *)
Definition MAX_ORDINAL : Z := 3652059.

(** The instants that are a UTC [datetime] between [datetime.min] and [datetime.max]. *)
Definition datetime_in_range (t : datetime) : bool :=
  (0 <=? t) && (t <? MAX_ORDINAL * US_PER_DAY).

(** [t - timedelta(days=n)]; [None] is Python's [OverflowError]. *)
Definition sub_days (t : datetime) (n : Z) : option datetime :=
  let r := t - n * US_PER_DAY in
  if datetime_in_range r then Some r else None.

Definition digit_char (d : Z) : ascii := ascii_of_N (Z.to_N (48 + d mod 10)).

(** [width] decimal digits of [n], zero padded (the [%0wd] of a non-negative [n]
    of at most [width] digits). *)
Fixpoint zero_padded (width : nat) (n : Z) : string :=
  match width with
  | O => EmptyString
  | S w => zero_padded w (n / 10) +:+ String (digit_char n) EmptyString
  end.

(** [t.isoformat()] for a UTC [datetime] [t]: the microseconds are printed
    only when they are not zero. *)
Definition isoformat (t : datetime) : string :=
  let days := t / US_PER_DAY in
  let rest := t mod US_PER_DAY in
  let '(y, mo, d) := ord2ymd (days + 1) in
  let secs := rest / US_PER_SECOND in
  let us := rest mod US_PER_SECOND in
  zero_padded 4 y +:+ "-" +:+ zero_padded 2 mo +:+ "-" +:+ zero_padded 2 d +:+ "T"
  +:+ zero_padded 2 (secs / 3600) +:+ ":" +:+ zero_padded 2 (secs / 60 mod 60) +:+ ":"
  +:+ zero_padded 2 (secs mod 60)
  +:+ (if us =? 0 then "" else "." +:+ zero_padded 6 us)
  +:+ "+00:00".

(** ** MD5 ([hashlib.md5(...).hexdigest()]) *)

Module MD5.

Definition mask32 (x : Z) : Z := Z.land x 4294967295.

Definition add32 (x y : Z) : Z := mask32 (x + y).

Definition not32 (x : Z) : Z := Z.lxor x 4294967295.

Definition rotl32 (x : Z) (c : Z) : Z :=
  mask32 (Z.lor (Z.shiftl x c) (Z.shiftr x (32 - c))).

(** [floor(2^32 * abs(sin(i + 1)))] for [i] in 0..63. *)
Definition K : list Z :=
  [ 0xd76aa478; 0xe8c7b756; 0x242070db; 0xc1bdceee;
    0xf57c0faf; 0x4787c62a; 0xa8304613; 0xfd469501;
    0x698098d8; 0x8b44f7af; 0xffff5bb1; 0x895cd7be;
    0x6b901122; 0xfd987193; 0xa679438e; 0x49b40821;
    0xf61e2562; 0xc040b340; 0x265e5a51; 0xe9b6c7aa;
    0xd62f105d; 0x02441453; 0xd8a1e681; 0xe7d3fbc8;
    0x21e1cde6; 0xc33707d6; 0xf4d50d87; 0x455a14ed;
    0xa9e3e905; 0xfcefa3f8; 0x676f02d9; 0x8d2a4c8a;
    0xfffa3942; 0x8771f681; 0x6d9d6122; 0xfde5380c;
    0xa4beea44; 0x4bdecfa9; 0xf6bb4b60; 0xbebfbc70;
    0x289b7ec6; 0xeaa127fa; 0xd4ef3085; 0x04881d05;
    0xd9d4d039; 0xe6db99e5; 0x1fa27cf8; 0xc4ac5665;
    0xf4292244; 0x432aff97; 0xab9423a7; 0xfc93a039;
    0x655b59c3; 0x8f0ccc92; 0xffeff47d; 0x85845dd1;
    0x6fa87e4f; 0xfe2ce6e0; 0xa3014314; 0x4e0811a1;
    0xf7537e82; 0xbd3af235; 0x2ad7d2bb; 0xeb86d391 ].

(** Per-round shift amounts. *)
Definition S : list Z :=
  [ 7; 12; 17; 22; 7; 12; 17; 22; 7; 12; 17; 22; 7; 12; 17; 22;
    5; 9; 14; 20; 5; 9; 14; 20; 5; 9; 14; 20; 5; 9; 14; 20;
    4; 11; 16; 23; 4; 11; 16; 23; 4; 11; 16; 23; 4; 11; 16; 23;
    6; 10; 15; 21; 6; 10; 15; 21; 6; 10; 15; 21; 6; 10; 15; 21 ].

(** The [n] low bytes of [x], least significant first. *)
Fixpoint le_bytes (n : nat) (x : Z) : list Z :=
  match n with
  | O => []
  | Datatypes.S n' => Z.land x 255 :: le_bytes n' (Z.shiftr x 8)
  end.

(** The message followed by [0x80], zeros up to 56 modulo 64, and the bit
    length as 8 little-endian bytes. *)
Definition pad (msg : list Z) : list Z :=
  let len := Z.of_nat (length msg) in
  let zeros := (55 - len) mod 64 in
  msg ++ [128] ++ repeat 0 (Z.to_nat zeros) ++ le_bytes 8 (Z.land (len * 8) (2 ^ 64 - 1)).

(** A little-endian 32-bit word from four bytes. *)
Definition word_of (b0 b1 b2 b3 : Z) : Z :=
  Z.lor b0 (Z.lor (Z.shiftl b1 8) (Z.lor (Z.shiftl b2 16) (Z.shiftl b3 24))).

Fixpoint words (fuel : nat) (bs : list Z) : list Z :=
  match fuel, bs with
  | Datatypes.S f, b0 :: b1 :: b2 :: b3 :: rest => word_of b0 b1 b2 b3 :: words f rest
  | _, _ => []
  end.

Definition state : Type := Z * Z * Z * Z.

Definition round (M : list Z) (st : state) (i : Z) : state :=
  let '(A, B, C, D) := st in
  let '(F, g) :=
    if i <? 16 then (Z.lor (Z.land B C) (Z.land (not32 B) D), i)
    else if i <? 32 then (Z.lor (Z.land D B) (Z.land (not32 D) C), (5 * i + 1) mod 16)
    else if i <? 48 then (Z.lxor B (Z.lxor C D), (3 * i + 5) mod 16)
    else (Z.lxor C (Z.lor B (not32 D)), (7 * i) mod 16) in
  let F := add32 (add32 (add32 F A) (nth (Z.to_nat i) K 0)) (nth (Z.to_nat g) M 0) in
  (D, add32 B (rotl32 F (nth (Z.to_nat i) S 0)), B, C).

Definition process_chunk (st : state) (chunk : list Z) : state :=
  let M := words 16 chunk in
  let '(A, B, C, D) := st in
  let '(A', B', C', D') := fold_left (round M) (map Z.of_nat (seq 0 64)) st in
  (add32 A A', add32 B B', add32 C C', add32 D D').

Fixpoint process (fuel : nat) (st : state) (bs : list Z) : state :=
  match fuel, bs with
  | Datatypes.S f, _ :: _ => process f (process_chunk st (firstn 64 bs)) (skipn 64 bs)
  | _, _ => st
  end.

Definition init : state := (0x67452301, 0xefcdab89, 0x98badcfe, 0x10325476).

Definition digest (msg : list Z) : list Z :=
  let p := pad msg in
  let '(A, B, C, D) := process (length p) init p in
  le_bytes 4 A ++ le_bytes 4 B ++ le_bytes 4 C ++ le_bytes 4 D.

Definition hex_digit (d : Z) : ascii :=
  ascii_of_N (Z.to_N (if d <? 10 then 48 + d else 87 + d)).

Fixpoint hex (bs : list Z) : string :=
  match bs with
  | [] => EmptyString
  | b :: rest => String (hex_digit (Z.shiftr b 4)) (String (hex_digit (Z.land b 15)) (hex rest))
  end.

Definition bytes_of_string (s : string) : list Z :=
  map (fun c => Z.of_N (N_of_ascii c)) (list_ascii_of_string s).

(** [hashlib.md5(s.encode()).hexdigest()]. *)
Definition hexdigest (s : string) : string := hex (digest (bytes_of_string s)).

End MD5.

(** ** Constants *)

Definition MAX_ARTICLES_NO_DATE : nat := 3.
Definition MAX_CONTENT_LEN : nat := 2000.
Definition LLM_BATCH_SIZE : nat := 5.

(** The category the classifier uses for everything that is not AI, tech or business. *)
Definition OTHER : string := "其他".

(** ** Data model *)

Record FeedSource := {
  name : string;
  xml_url : string;
  html_url : string;
}.

(** The transformation outputs hold whatever [json.loads] found in the
    classifier's reply, so they are [json] values. *)
Record Article := {
  title : string;
  link : string;
  source : string;
  published : option datetime;
  summary : string;
  author : string;
  tags : list string;
  full_content : string;
  ai_title : json;
  ai_summary : json;
  ai_detail : json;
  category : json;
  is_relevant : json;
}.

(** ** Deduplication store *)

Definition _article_id (article : Article) : string := MD5.hexdigest (link article).

(** What [load_sent_db] finds at [SENT_DB_FILE]. *)
Inductive sent_db_file :=
  | NoFile                    (* [SENT_DB_FILE.exists()] is false *)
  | Unreadable                (* [read_text] or [json.loads] raises *)
  | Stored (data : json).     (* the decoded content *)

(** [v.get("sent_at", "") > cutoff] for one record [v]; [None] when the
    expression raises ([v] has no [get], or the stored value is not a [str]). *)
Definition newer_than (cutoff : string) (v : json) : option bool :=
  match v with
  | JObj d =>
      match dict_get d "sent_at" (JStr "") with
      | JStr sent_at => Some (str_gtb sent_at cutoff)
      | _ => None
      end
  | _ => None
  end.

(** [load_sent_db()], reading the clock as [now]: any exception inside the
    [try] gives the empty mapping. *)
Definition load_sent_db (now : datetime) (file : sent_db_file) : gmap string json :=
  match file with
  | NoFile => ∅
  | Unreadable => ∅
  | Stored data =>
      match sub_days now 30 with
      | None => ∅
      | Some t =>
          let cutoff := isoformat t in
          match data with
          | JObj items =>
              if bool_decide (map_Forall (λ _ v, is_Some (newer_than cutoff v)) items)
              then filter (λ kv, newer_than cutoff kv.2 = Some true) items
              else ∅
          | _ => ∅
          end
      end
  end.

(** [save_sent_db(db)]: the new content of the file. *)
Definition save_sent_db (db : gmap string json) : sent_db_file := Stored (JObj db).

Definition filter_new_articles (articles : list Article) (sent_db : gmap string json)
  : list Article :=
  filter (λ a, sent_db !! _article_id a = None) articles.

(** The record [mark_as_sent] stores for an article sent at [now]. *)
Definition sent_record (a : Article) (now : datetime) : json :=
  JObj {[ "title" := JStr (title a);
          "link" := JStr (link a);
          "sent_at" := JStr (isoformat now) ]}.

(** [mark_as_sent(articles, sent_db)]; the [k]-th reading of the clock
    inside the loop is [clock k]. *)
Fixpoint mark_as_sent_from (k : nat) (clock : nat → datetime) (articles : list Article)
    (sent_db : gmap string json) : gmap string json :=
  match articles with
  | [] => sent_db
  | a :: rest =>
      mark_as_sent_from (S k) clock rest (<[_article_id a := sent_record a (clock k)]> sent_db)
  end.

Definition mark_as_sent (clock : nat → datetime) (articles : list Article)
    (sent_db : gmap string json) : gmap string json :=
  mark_as_sent_from 0 clock articles sent_db.

(** ** Stable sorting, as [list.sort] and [sorted] do it *)

Section StableSort.
Context {A : Type} (lt : A → A → bool).

(** [a] stood before every element of [l]: it passes only those strictly
    smaller than itself. *)
Fixpoint insert_sorted (a : A) (l : list A) : list A :=
  match l with
  | [] => [a]
  | b :: l' => if lt b a then b :: insert_sorted a l' else a :: l
  end.

Definition stable_sort (l : list A) : list A := foldr insert_sorted [] l.
End StableSort.

(** ** Exceptions *)

(** A computation that may raise. *)
Inductive outcome (A : Type) :=
  | Returned (x : A)
  | Raised.
Arguments Returned {A} x.
Arguments Raised {A}.

(** ** Source fetcher *)

(** A [time.struct_time]: its nine integer fields. *)
Definition struct_time := list Z.

(** An entry of a parsed feed, by the keys [fetch_feed] reads; [None] is an
    absent key. [entry_content] lists the ["value"] of each content record
    and [entry_tags] the ["term"] of each tag. *)
Record FeedEntry := {
  entry_published : option string;
  entry_updated : option string;
  entry_created : option string;
  entry_published_parsed : option struct_time;
  entry_updated_parsed : option struct_time;
  entry_created_parsed : option struct_time;
  entry_content : list (option string);
  entry_summary : option string;
  entry_description : option string;
  entry_title : option string;
  entry_link : option string;
  entry_author : option string;
  entry_tags : list (option string);
}.

(** What the request for a feed document yields. *)
Inductive feed_response :=
  | FeedTimeout                              (* [httpx.TimeoutException] *)
  | FeedHTTPStatus (status_code : Z)         (* [httpx.HTTPStatusError] *)
  | FeedFailed                               (* any other exception *)
  | FeedParsed (entries : list FeedEntry).   (* [feedparser.parse(resp.text).entries] *)

(** What the request for an article's page yields. *)
Inductive page_response :=
  | PageFailed                               (* any exception inside the [try] *)
  | PageText (text : string).                (* [extract_text_from_html(resp.text)] *)

(** What the conversion of a feed field to an instant yields. *)
Inductive conversion :=
  | Converted (dt : datetime)
  | Refused      (* it raises an exception that [parse_date] catches *)
  | Escaped.     (* it raises an exception that [parse_date] does not catch *)

(** One loop of [parse_date] over the values of its keys: the first value
    that is converted is returned, a value whose conversion is refused is
    passed over, and an exception that is not caught leaves [parse_date].
    [f] gives [None] for a value that is absent or falsy. *)
Fixpoint first_converted {A : Type} (f : A → option conversion) (l : list A)
  : outcome (option datetime) :=
  match l with
  | [] => Returned None
  | x :: l' =>
      match f x with
      | Some (Converted dt) => Returned (Some dt)
      | Some Escaped => Raised
      | Some Refused | None => first_converted f l'
      end
  end.

Definition opt_str (o : option string) : string :=
  match o with Some s => s | None => "" end.

Section Fetcher.
(** [dateutil]'s parser followed by the defaulting of a naive result to
    UTC; [Refused] is a [ValueError] or [TypeError], [Escaped] any other
    exception, such as the [OverflowError] of a number too large for a date. *)
Variable date_parser_parse : string → conversion.
(** [datetime.fromtimestamp(mktime(val), tz=timezone.utc)]; [Refused] is a
    [ValueError], [TypeError] or [OverflowError], [Escaped] any other
    exception, such as an [OSError] of the platform's time functions. *)
Variable from_struct_time : struct_time → conversion.
(** [clean_html]: tags removed, entities decoded by [html.unescape],
    whitespace collapsed. *)
Variable clean_html : string → string.

(** [parse_date(entry)]: the text fields first, then the parsed tuples. *)
Definition parse_date (entry : FeedEntry) : outcome (option datetime) :=
  match
    first_converted
      (λ val : option string,
         match val with
         | Some s => if str_truthy s then Some (date_parser_parse s) else None
         | None => None
         end)
      [entry_published entry; entry_updated entry; entry_created entry]
  with
  | Returned None =>
      first_converted
        (λ val : option struct_time,
           match val with
           | Some ((_ :: _) as st) => Some (from_struct_time st)
           | _ => None
           end)
        [entry_published_parsed entry; entry_updated_parsed entry;
         entry_created_parsed entry]
  | r => r
  end.

(** [any(parse_date(e) is not None for e in feed.entries)]: the entries are
    read until the first one that has a date. *)
Fixpoint any_dated (entries : list FeedEntry) : outcome bool :=
  match entries with
  | [] => Returned false
  | e :: rest =>
      match parse_date e with
      | Returned (Some _) => Returned true
      | Returned None => any_dated rest
      | Raised => Raised
      end
  end.

(** The [Article] built from an entry that passed the date filter. *)
Definition article_of_entry (src : FeedSource) (entry : FeedEntry)
    (pub_date : option datetime) : Article :=
  let content_raw :=
    match entry_content entry with
    | first :: _ => opt_str first
    | [] => ""
    end in
  let content_raw :=
    if str_truthy content_raw then content_raw
    else str_or (opt_str (entry_summary entry))
           (str_or (opt_str (entry_description entry)) "") in
  let summary := clean_html content_raw in
  let tags :=
    omap (λ t : option string,
            match t with
            | Some term => if str_truthy term then Some term else None
            | None => None
            end)
         (entry_tags entry) in
  {| title := match entry_title entry with Some t => t | None => "无标题" end;
     link := match entry_link entry with Some l => l | None => html_url src end;
     source := name src;
     published := pub_date;
     summary := if str_truthy summary then py_take 500 summary else "";
     author := opt_str (entry_author entry);
     tags := take 5 tags;
     full_content := summary;
     ai_title := JStr "";
     ai_summary := JStr "";
     ai_detail := JStr "";
     category := JStr "";
     is_relevant := JBool true |}.

(** The loop over [feed.entries]; [collected] counts the dateless entries
    seen so far. An exception of [parse_date] ends the loop: the handler of
    [fetch_feed] logs it, and the items appended so far are returned. *)
Fixpoint collect_entries (src : FeedSource) (since : datetime) (has_any_date : bool)
    (collected : nat) (entries : list FeedEntry) : list Article :=
  match entries with
  | [] => []
  | entry :: rest =>
      match parse_date entry with
      | Returned (Some pub_date) =>
          if pub_date <? since then collect_entries src since has_any_date collected rest
          else article_of_entry src entry (Some pub_date)
               :: collect_entries src since has_any_date collected rest
      | Returned None =>
          if has_any_date then collect_entries src since has_any_date collected rest
          else
            let collected := S collected in
            if (MAX_ARTICLES_NO_DATE <? collected)%nat
            then collect_entries src since has_any_date collected rest
            else article_of_entry src entry None
                 :: collect_entries src since has_any_date collected rest
      | Raised => []
      end
  end.

(** [fetch_feed]: every exception inside the [try] is caught, and the list
    built so far is returned; it is empty when the request fails or when
    [any(...)] raises. *)
Definition fetch_feed (resp : feed_response) (src : FeedSource) (since : datetime)
  : list Article :=
  match resp with
  | FeedParsed entries =>
      match any_dated entries with
      | Returned has_any_date => collect_entries src since has_any_date 0 entries
      | Raised => []
      end
  | _ => []
  end.

(** The key of the aggregate sort: [a.published or datetime.min.replace(tzinfo=utc)]. *)
Definition sort_key (a : Article) : datetime :=
  match published a with Some t => t | None => datetime_min_utc end.

(** [fetch_all_feeds]; [http src] is what the request for [src]'s feed yields.
    [sort(reverse=True)] is the stable sort for the reversed order. *)
Definition fetch_all_feeds (http : FeedSource → feed_response) (feeds : list FeedSource)
    (since : datetime) : list Article :=
  let results := map (λ feed, fetch_feed (http feed) feed since) feeds in
  let all_articles := concat results in
  stable_sort (λ a b, sort_key b <? sort_key a) all_articles.
End Fetcher.

(** ** Content enricher *)

Definition fetch_page_content (resp : page_response) : string :=
  match resp with
  | PageText text => if (200 <? py_len text)%nat then text else ""
  | PageFailed => ""
  end.

Definition set_full_content (a : Article) (content : string) : Article :=
  {| title := title a; link := link a; source := source a; published := published a;
     summary := summary a; author := author a; tags := tags a;
     full_content := content;
     ai_title := ai_title a; ai_summary := ai_summary a; ai_detail := ai_detail a;
     category := category a; is_relevant := is_relevant a |}.

(** The task [bounded_fetch] runs for one article. *)
Definition bounded_fetch (resp : page_response) (article : Article) : Article :=
  let content := fetch_page_content resp in
  if str_truthy content then set_full_content article content else article.

(** [enrich_articles_with_full_content]: one task per article, each writing
    its own article; [pages i] is what the request of the [i]-th task yields. *)
Definition enrich_articles_with_full_content (pages : nat → page_response)
    (articles : list Article) : list Article :=
  imap (λ i a, bounded_fetch (pages i) a) articles.

(** ** Batch transformer *)

(** What a chat-completion request carries besides the fixed prompt. *)
Inductive llm_request :=
  | SummarizeRequest (req_title req_source content_trimmed : string)
  | DetailRequest (req_title : json) (req_source content_trimmed : string).

(** What a chat-completion call yields. *)
Inductive llm_reply :=
  | LLMRaises                       (* the call, or reading its first choice, raises *)
  | LLMContent (resp_text : string). (* [response.choices[0].message.content.strip()] *)

(** The client: the reply to the [n]-th call made through it. *)
Definition llm_client := nat → llm_request → llm_reply.

(** The dictionary [summarize_with_llm] builds per article. *)
Record result := {
  result_title : json;
  result_summary : json;
  result_category : json;
  result_is_relevant : json;
}.

Definition OPEN_BRACE : ascii := ascii_of_nat 123.
Definition CLOSE_BRACE : ascii := ascii_of_nat 125.

(** The suffix of [s] that starts at its first opening brace. *)
Fixpoint from_first_open (s : string) : option string :=
  match s with
  | EmptyString => None
  | String c s' => if Ascii.eqb c OPEN_BRACE then Some s else from_first_open s'
  end.

(** The longest prefix of [s] that ends with a closing brace. *)
Fixpoint upto_last_close (s : string) : option string :=
  match s with
  | EmptyString => None
  | String c s' =>
      match upto_last_close s' with
      | Some p => Some (String c p)
      | None => if Ascii.eqb c CLOSE_BRACE then Some (String c EmptyString) else None
      end
  end.

(** The match of [re.search(r'\{.*\}', s, re.DOTALL)]: from the first
    opening brace to the last closing brace after it. *)
Definition search_braces (s : string) : option string :=
  match from_first_open s with
  | Some t => upto_last_close t
  | None => None
  end.

(** The result when there is nothing to classify or nothing to parse. *)
Definition default_result (article : Article) : result :=
  {| result_title := JStr (title article);
     result_summary := JStr "";
     result_category := JStr OTHER;
     result_is_relevant := JBool false |}.

(** The result appended by the [except] handler. *)
Definition except_result (article : Article) : result :=
  {| result_title := JStr (title article);
     result_summary := JStr (summary article);
     result_category := JStr OTHER;
     result_is_relevant := JBool false |}.

(** [article.full_content or article.summary or ""]. *)
Definition content_of (article : Article) : string :=
  str_or (full_content article) (str_or (summary article) "").

Section Transformer.
(** [json.loads]; [None] is a [JSONDecodeError]. *)
Variable json_loads : string → option json.

(** The body of the [try] for one article, given the reply to its call. *)
Definition classify_reply (article : Article) (reply : llm_reply) : result :=
  match reply with
  | LLMRaises => except_result article
  | LLMContent resp_text =>
      match search_braces resp_text with
      | Some json_match =>
          match json_loads json_match with
          | Some (JObj data) =>
              let is_relevant := dict_get data "is_relevant" (JBool true) in
              let category := dict_get data "category" (JStr OTHER) in
              let is_relevant :=
                if json_eq_str category OTHER then JBool false else is_relevant in
              {| result_title :=
                   if truthy is_relevant then dict_get data "title" (JStr (title article))
                   else JStr (title article);
                 result_summary :=
                   if truthy is_relevant then dict_get data "summary" (JStr "")
                   else JStr "";
                 result_category := category;
                 result_is_relevant := is_relevant |}
          | Some _ => except_result article    (* [data.get] raises *)
          | None => except_result article      (* [json.loads] raises *)
          end
      | None => default_result article
      end
  end.

(** [summarize_with_llm(client, articles)]; [calls] counts the calls made
    through [client] so far, and the new count is returned with the results. *)
Fixpoint summarize_with_llm (client : llm_client) (calls : nat) (articles : list Article)
  : list result * nat :=
  match articles with
  | [] => ([], calls)
  | article :: rest =>
      let content := content_of article in
      if negb (str_truthy content) then
        let '(results, calls') := summarize_with_llm client calls rest in
        (default_result article :: results, calls')
      else
        let content_trimmed := py_take MAX_CONTENT_LEN content in
        let reply :=
          client calls (SummarizeRequest (title article) (source article) content_trimmed) in
        let '(results, calls') := summarize_with_llm client (S calls) rest in
        (classify_reply article reply :: results, calls')
  end.

(** The four assignments made for [articles[idx]]. *)
Definition apply_result (r : result) (a : Article) : Article :=
  {| title := title a; link := link a; source := source a; published := published a;
     summary := summary a; author := author a; tags := tags a;
     full_content := full_content a;
     ai_title := result_title r;
     ai_summary := result_summary r;
     ai_detail := ai_detail a;
     category := result_category r;
     is_relevant := result_is_relevant r |}.

(** [for j, result in enumerate(results): articles[i + j] ... = result[...]]. *)
Fixpoint store_results (i : nat) (results : list result) (articles : list Article)
  : list Article :=
  match results with
  | [] => articles
  | r :: rest => store_results (S i) rest (alter (apply_result r) i articles)
  end.

(** One iteration of the loop over [range(0, total, LLM_BATCH_SIZE)]. *)
Definition classify_batch (client : llm_client) (st : list Article * nat) (i : nat)
  : list Article * nat :=
  let '(articles, calls) := st in
  let batch := take LLM_BATCH_SIZE (drop i articles) in
  let '(results, calls') := summarize_with_llm client calls batch in
  (store_results i results articles, calls').

(** [range(0, total, LLM_BATCH_SIZE)]. *)
Definition batch_starts (total : nat) : list nat :=
  map (λ k, k * LLM_BATCH_SIZE)%nat (seq 0 ((total + LLM_BATCH_SIZE - 1) / LLM_BATCH_SIZE)).

Definition set_ai_detail (a : Article) (detail : json) : Article :=
  {| title := title a; link := link a; source := source a; published := published a;
     summary := summary a; author := author a; tags := tags a;
     full_content := full_content a;
     ai_title := ai_title a; ai_summary := ai_summary a;
     ai_detail := detail;
     category := category a; is_relevant := is_relevant a |}.

(** [enrich_detail_with_llm(client, articles)]. *)
Fixpoint enrich_detail_with_llm (client : llm_client) (calls : nat) (articles : list Article)
  : list Article * nat :=
  match articles with
  | [] => ([], calls)
  | article :: rest =>
      let content := content_of article in
      if negb (str_truthy content) then
        let '(rest', calls') := enrich_detail_with_llm client calls rest in
        (set_ai_detail article (ai_summary article) :: rest', calls')
      else
        let content_trimmed := py_take MAX_CONTENT_LEN content in
        let req_title :=
          if truthy (ai_title article) then ai_title article else JStr (title article) in
        let detail :=
          match client calls (DetailRequest req_title (source article) content_trimmed) with
          | LLMContent text => JStr text
          | LLMRaises => ai_summary article
          end in
        let '(rest', calls') := enrich_detail_with_llm client (S calls) rest in
        (set_ai_detail article detail :: rest', calls')
  end.

(** The articles after the classification loop, before the relevance filter. *)
Definition classify_all (client : llm_client) (articles : list Article)
  : list Article * nat :=
  fold_left (classify_batch client) (batch_starts (length articles)) (articles, 0%nat).

(** [ai_summarize_articles(articles, enable_filter)] with a fresh client. *)
Definition ai_summarize_articles (client : llm_client) (articles : list Article)
    (enable_filter : bool) : list Article :=
  match articles with
  | [] => articles
  | _ =>
      let '(articles, calls) := classify_all client articles in
      let relevant_articles :=
        if enable_filter then filter (λ a, truthy (is_relevant a) = true) articles
        else articles in
      match relevant_articles with
      | [] => relevant_articles
      | _ => fst (enrich_detail_with_llm client calls relevant_articles)
      end
  end.
End Transformer.

(** ** Outbound notification *)

(** [priority.get(a.category, 3)]; [None] is the [TypeError] of an
    unhashable key. *)
Definition priority_of (category : json) : option Z :=
  match category with
  | JStr s =>
      Some (if String.eqb s "AI" then 0
            else if String.eqb s "科技" then 1
            else if String.eqb s "商业" then 2
            else 3)
  | JArr _ | JObj _ => None
  | _ => Some 3
  end.

(** The POSIX epoch as an instant. *)
Definition EPOCH : datetime := Eval vm_compute in mk_datetime 1970 1 1 0 0 0 0.

(** [n / d] rounded to an integer, ties to the even one. *)
Definition round_half_even (n d : Z) : Z :=
  let q := n / d in
  let r := n mod d in
  if 2 * r <? d then q
  else if d <? 2 * r then q + 1
  else if Z.even q then q else q + 1.

(** The floats of this model are written as multiples of [2 ^ -80]. *)
Definition FLOAT_SCALE : Z := 80.

(** [n / d] on two [int], [d] positive: the [float] nearest to the quotient,
    ties to even, as Python's true division gives it. The result is exact
    for every quotient whose float has a last bit of at least [2 ^ -80],
    which holds for the seconds of every instant a [datetime] can hold. *)
Definition float_quotient (n d : Z) : Z :=
  if n =? 0 then 0
  else
    let m := Z.abs n in
    let e0 := Z.log2 m - Z.log2 d in
    let e := if m * 2 ^ FLOAT_SCALE <? d * 2 ^ (FLOAT_SCALE + e0) then e0 - 1 else e0 in
    let ulp := 2 ^ (FLOAT_SCALE + e - 52) in
    Z.sgn n * (round_half_even (m * 2 ^ FLOAT_SCALE) (d * ulp) * ulp).

(** [t.timestamp()] for an aware [t]: [(t - EPOCH).total_seconds()], the
    microseconds divided by [10 ** 6] as a [float]. *)
Definition timestamp (t : datetime) : Z := float_quotient (t - EPOCH) 1000000.

(** [-(a.published.timestamp() if a.published else 0)]: a [float], or the
    [int] 0, which Python compares by their exact values. *)
Definition neg_timestamp (a : Article) : Z :=
  match published a with
  | Some t => - timestamp t
  | None => 0
  end.

(** The order of the keys [(priority, -timestamp)]. *)
Definition key_ltb (x y : Z * Z) : bool :=
  (x.1 <? y.1) || ((x.1 =? y.1) && (x.2 <? y.2)).

(** [_select_top_articles(articles, n)]. *)
Definition _select_top_articles (articles : list Article) (n : nat)
  : option (list Article) :=
  keyed ← mapM (λ a, p ← priority_of (category a); Some ((p, neg_timestamp a), a)) articles;
  Some (take n (map snd (stable_sort (λ x y, key_ltb x.1 y.1) keyed))).

(** Whether [_build_wecom_markdown] can render the summary line of an
    article: [len(summary)] and, past 80, [summary[:80] + "..."] must not raise. *)
Definition summary_renders (a : Article) : bool :=
  let summary := if truthy (ai_summary a) then ai_summary a else JStr "" in
  if truthy summary then
    match summary with
    | JStr _ => true
    | JArr l => (length l <=? 80)%nat
    | JObj m => (size m <=? 80)%nat
    | _ => false
    end
  else true.

(** What is posted to the webhook: the selected articles, the page link and
    the size of the whole digest. *)
Record wecom_message := {
  msg_articles : list Article;
  msg_page_url : string;
  msg_total_count : nat;
}.

(** What the [try] around the post observes. *)
Inductive post_outcome :=
  | PostAccepted                (* [errcode] is 0 *)
  | PostRejected                (* a reply with another [errcode] *)
  | PostRaised.                 (* the post, the status check or the decoding raises *)

(** What [send_to_wecom] logs about the delivery. *)
Inductive delivery_log :=
  | LogNothingToSend
  | LogSent
  | LogSendFailed
  | LogSendError.

(** [send_to_wecom(webhook_url, articles, page_url)]: the message handed to
    the webhook, if any, and the line logged. The selection and the rendering
    run outside the [try]. *)
Definition send_to_wecom (post : wecom_message → post_outcome) (articles : list Article)
    (page_url : string) : outcome (option wecom_message * delivery_log) :=
  match articles with
  | [] => Returned (None, LogNothingToSend)
  | _ =>
      let total_count := length articles in
      match _select_top_articles articles 5 with
      | None => Raised
      | Some top_articles =>
          if forallb summary_renders top_articles then
            let msg := {| msg_articles := top_articles;
                          msg_page_url := page_url;
                          msg_total_count := total_count |} in
            Returned (Some msg,
                      match post msg with
                      | PostAccepted => LogSent
                      | PostRejected => LogSendFailed
                      | PostRaised => LogSendError
                      end)
          else Raised
      end
  end.

(** ** Pipeline orchestrator *)

(** What [save_sent_db] does to the file. [write_text] opens the file for
    writing, which empties it, before it writes: a save that raises leaves
    the file untouched when it raises before that ([leftover] is [None]), and
    otherwise leaves what was written until then. *)
Inductive save_outcome :=
  | SaveWritten
  | SaveRaised (leftover : option sent_db_file).

(** Everything one pass obtains from outside the program. *)
Record pass_world := {
  w_now : datetime;                            (* the clock, when [since] is defaulted *)
  w_feeds : option (list FeedSource);          (* [parse_opml(FEEDS_FILE)]; [None]: it raises *)
  w_date_parser : string → conversion;
  w_from_struct_time : struct_time → conversion;
  w_clean_html : string → string;
  w_http : FeedSource → feed_response;
  w_pages : nat → page_response;
  w_json_loads : string → option json;
  w_llm : llm_client;
  w_render : list Article → bool;              (* the page is generated and saved *)
  w_page_url : string;                         (* [_get_page_url()] *)
  w_post : wecom_message → post_outcome;
  w_clock : nat → datetime;                    (* the clock, inside [mark_as_sent] *)
  w_save : save_outcome;                       (* what [save_sent_db] does *)
}.

(** What a pass leaves behind: its return value or exception, the caller's
    mapping (mutated in place), the stored file, and the message handed to
    the webhook. *)
Record pass_result := {
  pass_outcome : outcome (list Article);
  pass_sent_db : option (gmap string json);
  pass_file : sent_db_file;
  pass_message : option wecom_message;
}.


Definition webhook_set (webhook_url : option string) : bool :=
  match webhook_url with Some u => str_truthy u | None => false end.

(** The part of [fetch_and_process] up to the transformer: the item list it
    ends with ([Returned []] is one of the early exits). *)
Definition pass_items (w : pass_world) (days : Z) (since : option datetime)
    (sent_db : option (gmap string json)) (enable_filter : bool)
  : outcome (list Article) :=
  match (match since with Some s => Some s | None => sub_days (w_now w) days end) with
  | None => Raised
  | Some since =>
      match w_feeds w with
      | None => Raised
      | Some feeds =>
          let articles :=
            fetch_all_feeds (w_date_parser w) (w_from_struct_time w) (w_clean_html w)
                            (w_http w) feeds since in
          match articles with
          | [] => Returned []
          | _ =>
              let articles :=
                match sent_db with
                | Some db => filter_new_articles articles db
                | None => articles
                end in
              match articles with
              | [] => Returned []
              | _ =>
                  let articles := enrich_articles_with_full_content (w_pages w) articles in
                  Returned (ai_summarize_articles (w_json_loads w) (w_llm w) articles
                                                  enable_filter)
              end
          end
      end
  end.

(** [fetch_and_process(days, since, webhook_url, sent_db, enable_filter)],
    started with [file] stored at [SENT_DB_FILE]. *)
Definition fetch_and_process (w : pass_world) (days : Z) (since : option datetime)
    (webhook_url : option string) (sent_db : option (gmap string json))
    (enable_filter : bool) (file : sent_db_file) : pass_result :=
  let quit (o : outcome (list Article)) :=
    {| pass_outcome := o; pass_sent_db := sent_db; pass_file := file;
       pass_message := None |} in
  match pass_items w days since sent_db enable_filter with
  | Raised => quit Raised
  | Returned [] => quit (Returned [])
  | Returned articles =>
      if negb (w_render w articles) then quit Raised
      else
        match (if webhook_set webhook_url
               then send_to_wecom (w_post w) articles (w_page_url w)
               else Returned (None, LogNothingToSend)) with
        | Raised => quit Raised
        | Returned (message, _) =>
            match sent_db with
            | None =>
                {| pass_outcome := Returned articles; pass_sent_db := None;
                   pass_file := file; pass_message := message |}
            | Some db =>
                let db' := mark_as_sent (w_clock w) articles db in
                match w_save w with
                | SaveWritten =>
                    {| pass_outcome := Returned articles; pass_sent_db := Some db';
                       pass_file := save_sent_db db'; pass_message := message |}
                | SaveRaised leftover =>
                    {| pass_outcome := Raised; pass_sent_db := Some db';
                       pass_file := default file leftover; pass_message := message |}
                end
            end
        end
  end.

(** ** Poll loop *)

(** What one round of [run_watch] obtains from outside. *)
Record round_env := {
  r_now : datetime;              (* the clock, when [since] is computed *)
  r_load_now : datetime;         (* the clock, inside [load_sent_db] *)
  r_world : pass_world;
  r_sleep_cancelled : bool;      (* the sleep is interrupted from outside *)
}.

Inductive watch_log :=
  | LogRound (round_count : nat)
  | LogPushed (count : nat)
  | LogIdle
  | LogRoundError
  | LogWaiting (minutes : Z).

(** The control points of the loop of [run_watch]. *)
Inductive watch_state :=
  | LoopHead (round_count : nat) (file : sent_db_file)
  | Sleeping (round_count : nat) (seconds : Z) (file : sent_db_file)
  | Stopped (round_count : nat) (file : sent_db_file).

Section PollLoop.
Variable env : nat → round_env.     (* [env n]: the surroundings of round [n] *)
Variable webhook_url : string.
Variable interval : Z.              (* minutes between two rounds *)
Variable days : Z.
Variable enable_filter : bool.

(** The [try] block of round [n]: the line it logs and the file it leaves. *)
Definition round_body (n : nat) (file : sent_db_file) : watch_log * sent_db_file :=
  match sub_days (r_now (env n)) days with
  | None => (LogRoundError, file)
  | Some since =>
      let sent_db := load_sent_db (r_load_now (env n)) file in
      let r := fetch_and_process (r_world (env n)) days (Some since) (Some webhook_url)
                                 (Some sent_db) enable_filter file in
      match pass_outcome r with
      | Returned [] => (LogIdle, pass_file r)
      | Returned articles => (LogPushed (length articles), pass_file r)
      | Raised => (LogRoundError, pass_file r)
      end
  end.

(** From one control point to the next, with what is logged on the way. *)
Definition watch_step (s : watch_state) : watch_state * list watch_log :=
  match s with
  | LoopHead round_count file =>
      let round_count := S round_count in
      let '(line, file') := round_body round_count file in
      (Sleeping round_count (interval * 60) file',
       [LogRound round_count; line; LogWaiting interval])
  | Sleeping round_count _ file =>
      if r_sleep_cancelled (env round_count) then (Stopped round_count file, [])
      else (LoopHead round_count file, [])
  | Stopped round_count file => (Stopped round_count file, [])
  end.

(** [k] steps of the loop. *)
Fixpoint watch_steps (k : nat) (s : watch_state) : watch_state * list watch_log :=
  match k with
  | O => (s, [])
  | S k' =>
      let '(s', log) := watch_step s in
      let '(s'', log') := watch_steps k' s' in
      (s'', (log ++ log')%list)
  end.

(** The loop of [run_watch] after [k] steps, started with [file] stored. The
    start-up message posted before the loop is sent inside a [try] that
    ignores every exception, and leaves no trace here. *)
Definition run_watch (k : nat) (file : sent_db_file) : watch_state * list watch_log :=
  watch_steps k (LoopHead 0 file).
End PollLoop.

(** Whether the request for a feed gave a parsed document. *)
Definition feed_answered (resp : feed_response) : bool :=
  match resp with FeedParsed _ => true | _ => false end.

(** A request whose content is not empty and within the character budget. *)
Definition request_in_budget (req : llm_request) : Prop :=
  match req with
  | SummarizeRequest _ _ content_trimmed
  | DetailRequest _ _ content_trimmed =>
      content_trimmed ≠ "" ∧ (py_len content_trimmed ≤ MAX_CONTENT_LEN)%nat
  end.

(** The fields of an item that come from its feed entry. *)
Definition feed_fields (a : Article)
  : string * string * string * option datetime * string * string * list string :=
  (title a, link a, source a, published a, summary a, author a, tags a).

(** ** Source list ([parse_opml]) *)

(** An element of the parsed OPML document: its tag, its attributes and its
    children in document order. *)
Inductive xml_element :=
  | XmlElement (tag : string) (attrib : gmap string string) (children : list xml_element).

Definition xml_tag (e : xml_element) : string :=
  match e with XmlElement t _ _ => t end.

Definition xml_attrib (e : xml_element) : gmap string string :=
  match e with XmlElement _ a _ => a end.

(** [root.iter(tag)]: the element itself and its descendants, in document
    order, that carry the tag. *)
Fixpoint xml_iter (tag : string) (e : xml_element) : list xml_element :=
  match e with
  | XmlElement t _ children =>
      (if String.eqb t tag then [e] else []) ++ flat_map (xml_iter tag) children
  end.

(** The body of the loop of [parse_opml] for one outline. *)
Definition feed_of_outline (outline : xml_element) : option FeedSource :=
  match xml_attrib outline !! "xmlUrl" with
  | Some xml_url =>
      if str_truthy xml_url then
        Some {| name := match xml_attrib outline !! "text" with
                        | Some t => t
                        | None => match xml_attrib outline !! "title" with
                                  | Some t => t
                                  | None => "Unknown"
                                  end
                        end;
                xml_url := xml_url;
                html_url := match xml_attrib outline !! "htmlUrl" with
                            | Some u => u
                            | None => ""
                            end |}
      else None
  | None => None
  end.

(** [parse_opml], on the root of the parsed document. *)
Definition parse_opml (root : xml_element) : list FeedSource :=
  omap feed_of_outline (xml_iter "outline" root).

(** ** Categories of the rendered digest ([categorize_articles]) *)

Definition DISPLAY_AI : string := "🤖 AI / 机器学习".
Definition DISPLAY_TECH : string := "💻 科技 / 技术".
Definition DISPLAY_BUSINESS : string := "📈 商业 / 行业".

(** [category_mapping.get(cat)] for a [str] key. *)
Definition category_mapping_get (cat : string) : option string :=
  if String.eqb cat "AI" then Some DISPLAY_AI
  else if String.eqb cat "科技" then Some DISPLAY_TECH
  else if String.eqb cat "商业" then Some DISPLAY_BUSINESS
  else None.

(** [category_mapping.get(a.category or "其他")]: the outer [None] is the
    [TypeError] of an unhashable key. *)
Definition display_name_of (a : Article) : option (option string) :=
  let cat := if truthy (category a) then category a else JStr OTHER in
  match cat with
  | JStr s => Some (category_mapping_get s)
  | JArr _ | JObj _ => None
  | _ => Some None
  end.

(** [categories[display_name].append(a)], on the dictionary as the list of
    its items; a key that is absent leaves it unchanged. *)
Fixpoint append_to (display_name : string) (a : Article)
    (categories : list (string * list Article)) : list (string * list Article) :=
  match categories with
  | [] => []
  | (k, v) :: rest =>
      if String.eqb k display_name then (k, v ++ [a]) :: rest
      else (k, v) :: append_to display_name a rest
  end.

(** The loop of [categorize_articles]. *)
Fixpoint categorize_loop (articles : list Article)
    (categories : list (string * list Article)) : option (list (string * list Article)) :=
  match articles with
  | [] => Some categories
  | a :: rest =>
      match display_name_of a with
      | None => None
      | Some None => categorize_loop rest categories
      | Some (Some display_name) =>
          if bool_decide (display_name ∈ categories.*1)
          then categorize_loop rest (append_to display_name a categories)
          else categorize_loop rest categories
      end
  end.

(** [categorize_articles(articles)]: the items of the returned dictionary,
    in its order; [None] is the [TypeError]. *)
Definition categorize_articles (articles : list Article)
  : option (list (string * list Article)) :=
  categories ← categorize_loop articles
                 [(DISPLAY_AI, []); (DISPLAY_TECH, []); (DISPLAY_BUSINESS, [])];
  Some (filter (λ kv, kv.2 ≠ []) categories).

(** ** Link of the day's page ([_get_page_url]) *)

(** [s.rstrip("/")]. *)
Fixpoint rstrip_slash (s : string) : string :=
  match s with
  | EmptyString => EmptyString
  | String c s' =>
      match rstrip_slash s' with
      | EmptyString => if Ascii.eqb c "/" then EmptyString else String c EmptyString
      | r => String c r
      end
  end.

(** [_get_page_url(date_str)], where [pages_url] is [GITHUB_PAGES_URL] and
    [today] is [datetime.now().strftime("%Y-%m-%d")]. *)
Definition _get_page_url (pages_url : string) (today : string) (date_str : option string)
  : string :=
  if negb (str_truthy pages_url) then ""
  else
    let date_str := match date_str with Some d => d | None => today end in
    let base := rstrip_slash pages_url in
    base +:+ "/" +:+ date_str +:+ ".html".

(** ** One digest ([run_digest]) *)

(** What [run_digest] leaves behind: the result of the pass, and whether the
    Markdown digest was written. *)
Record digest_result := {
  digest_pass : pass_result;
  digest_markdown_saved : bool;
}.

(** [run_digest(days, fmt, print_output, webhook_url, enable_filter)];
    [load_now] is the clock inside [load_sent_db], [markdown articles] tells
    whether [generate_markdown] and [save_markdown] complete. An exception
    of the pass or of the Markdown step leaves [run_digest] as it is raised. *)
Definition run_digest (w : pass_world) (load_now : datetime)
    (markdown : list Article → bool) (days : Z) (webhook_url : option string)
    (enable_filter : bool) (file : sent_db_file) : digest_result :=
  match sub_days (w_now w) days with
  | None =>
      {| digest_pass := {| pass_outcome := Raised; pass_sent_db := None;
                           pass_file := file; pass_message := None |};
         digest_markdown_saved := false |}
  | Some since =>
      let sent_db :=
        if webhook_set webhook_url then Some (load_sent_db load_now file) else None in
      let r := fetch_and_process w days (Some since) webhook_url sent_db enable_filter file in
      match pass_outcome r with
      | Returned ((_ :: _) as articles) =>
          if markdown articles then {| digest_pass := r; digest_markdown_saved := true |}
          else {| digest_pass := {| pass_outcome := Raised; pass_sent_db := pass_sent_db r;
                                    pass_file := pass_file r;
                                    pass_message := pass_message r |};
                  digest_markdown_saved := false |}
      | _ => {| digest_pass := r; digest_markdown_saved := false |}
      end
  end.

(** ** Calendar order *)

(** The order of dates: by year, then month, then day. *)
Definition ymd_compare (a b : Z * Z * Z) : comparison :=
  match a.1.1 ?= b.1.1 with
  | Eq => match a.1.2 ?= b.1.2 with
          | Eq => a.2 ?= b.2
          | c => c
          end
  | c => c
  end.

(** A month between 1 and 12, a day between 1 and 31. *)
Definition month_day_ok (a : Z * Z * Z) : bool :=
  (1 <=? a.1.2) && (a.1.2 <=? 12) && (1 <=? a.2) && (a.2 <=? 31).

(** [fuel] days from [n] on: each is a well-formed date and precedes the
    next day's date; [prev] is the date of day [n]. *)
Fixpoint days_increase (fuel : nat) (n : Z) (prev : Z * Z * Z) : bool :=
  match fuel with
  | O => true
  | S f =>
      let cur := ord2ymd (n + 1) in
      if month_day_ok prev && match ymd_compare prev cur with Lt => true | _ => false end
      then days_increase f (n + 1) cur
      else false
  end.

(** The date of a day 400 years later. *)
Definition add_years (k : Z) (a : Z * Z * Z) : Z * Z * Z := (a.1.1 + k, a.1.2, a.2).

(** ** Sample inputs *)

Module Sample.

(** Noon of 1 March 2024, and the instant 30 days before it. *)
Definition now : datetime := mk_datetime 2024 3 1 12 0 0 0.
Definition cutoff : datetime := mk_datetime 2024 1 31 12 0 0 0.

Definition record (sent_at : string) : json :=
  JObj {[ "title" := JStr "A post"; "link" := JStr "https://example.com/a";
          "sent_at" := JStr sent_at ]}.

(** A stored mapping with a record at the boundary, one a microsecond
    later and one a microsecond earlier. *)
Definition stored : gmap string json :=
  {[ "at" := record "2024-01-31T12:00:00+00:00";
     "after" := record "2024-01-31T12:00:00.000001+00:00";
     "before" := record "2024-01-31T11:59:59.999999+00:00" ]}.

Definition article (t l : string) (p : option datetime) : Article :=
  {| title := t; link := l; source := "Example blog"; published := p;
     summary := "feed summary"; author := ""; tags := [];
     full_content := "feed summary";
     ai_title := JStr ""; ai_summary := JStr ""; ai_detail := JStr "";
     category := JStr ""; is_relevant := JBool true |}.

Definition post : Article := article "A post" "https://example.com/a" None.

(** A text of [n] code points. *)
Definition text_of_length (n : nat) : string := string_of_list_ascii (repeat "x"%char n).

(** A stand-in for the date parser: it reads [YYYY-MM-DD], raises an
    [OverflowError] on the digits [9999999999], as [dateutil] does on a
    number too large for a date, and refuses everything else. *)
Definition digit_value (c : ascii) : option Z :=
  let n := Z.of_N (N_of_ascii c) in
  if (48 <=? n) && (n <=? 57) then Some (n - 48) else None.

Fixpoint digits_value (acc : Z) (s : string) : option Z :=
  match s with
  | EmptyString => Some acc
  | String c s' =>
      match digit_value c with
      | Some d => digits_value (acc * 10 + d) s'
      | None => None
      end
  end.

Definition date_parser (s : string) : conversion :=
  if String.eqb s "9999999999" then Escaped
  else if (String.length s =? 10)%nat
     && String.eqb (String.substring 4 1 s) "-" && String.eqb (String.substring 7 1 s) "-"
  then
    match digits_value 0 (String.substring 0 4 s),
          digits_value 0 (String.substring 5 2 s),
          digits_value 0 (String.substring 8 2 s) with
    | Some y, Some m, Some d => Converted (mk_datetime y m d 0 0 0 0)
    | _, _, _ => Refused
    end
  else Refused.

Definition no_struct_time : struct_time → conversion := λ _, Refused.

Definition source (n : string) : FeedSource :=
  {| name := n; xml_url := "https://example.com/feed.xml"; html_url := "https://example.com" |}.

(** An entry with a title, a link and, possibly, a [published] text. *)
Definition entry (t : string) (date : option string) : FeedEntry :=
  {| entry_published := date; entry_updated := None; entry_created := None;
     entry_published_parsed := None; entry_updated_parsed := None;
     entry_created_parsed := None;
     entry_content := []; entry_summary := Some "feed summary"; entry_description := None;
     entry_title := Some t; entry_link := Some ("https://example.com/" +:+ t);
     entry_author := None; entry_tags := [] |}.

(** Ten entries without any date. *)
Definition dateless_feed : list FeedEntry :=
  map (λ t, entry t None) ["p0"; "p1"; "p2"; "p3"; "p4"; "p5"; "p6"; "p7"; "p8"; "p9"].

(** The same ten entries, the sixth with a [published] text on which the
    parser raises an [OverflowError]: still no entry has a date. *)
Definition overflow_feed : list FeedEntry :=
  map (λ t, entry t (if String.eqb t "p5" then Some "9999999999" else None))
      ["p0"; "p1"; "p2"; "p3"; "p4"; "p5"; "p6"; "p7"; "p8"; "p9"].

(** A recent entry, an entry without date and an entry of forty days ago. *)
Definition mixed_feed : list FeedEntry :=
  [entry "new" (Some "2024-03-01"); entry "undated" None; entry "old" (Some "2024-01-21")].

(** Four sources: one item of 3 January, one without date, one of 5
    January, and seven items of the first week of February. *)
Definition http (src : FeedSource) : feed_response :=
  if String.eqb (name src) "A" then FeedParsed [entry "third" (Some "2024-01-03")]
  else if String.eqb (name src) "B" then FeedParsed [entry "undated" None]
  else if String.eqb (name src) "C" then FeedParsed [entry "fifth" (Some "2024-01-05")]
  else if String.eqb (name src) "D" then
    FeedParsed [entry "d1" (Some "2024-02-01"); entry "d2" (Some "2024-02-02");
                entry "d3" (Some "2024-02-03"); entry "d4" (Some "2024-02-04");
                entry "d5" (Some "2024-02-05"); entry "d6" (Some "2024-02-06");
                entry "d7" (Some "2024-02-07")]
  else FeedTimeout.

(** A stand-in for [json.loads] that decodes two texts: a reply that puts
    the article in the category "other" while calling it relevant, and a
    reply that puts it in the category "AI". Anything else does not decode. *)
Definition json_loads (s : string) : option json :=
  if String.eqb s "{other}" then
    Some (JObj {[ "category" := JStr OTHER; "is_relevant" := JBool true;
                  "title" := JStr "标题"; "summary" := JStr "摘要" ]})
  else if String.eqb s "{ai}" then
    Some (JObj {[ "category" := JStr "AI"; "is_relevant" := JBool true;
                  "title" := JStr "标题"; "summary" := JStr "摘要" ]})
  else None.

(** A client whose first call raises and whose later calls answer "AI". *)
Definition failing_first : llm_client :=
  λ n _, match n with O => LLMRaises | _ => LLMContent "{ai}" end.

(** A client that answers "other" to the first call and "AI" to the rest. *)
Definition other_first : llm_client :=
  λ n _, match n with O => LLMContent "Sure: {other}" | _ => LLMContent "{ai}" end.

Definition second_post : Article := article "B post" "https://example.com/b" None.

(** Surroundings of a pass: the four sources above, no page can be fetched,
    the classifier answers "AI" to everything, the page is rendered, the
    webhook cannot be reached, the file can be written. *)
Definition world : pass_world :=
  {| w_now := now;
     w_feeds := Some [source "A"; source "B"; source "C"; source "D"];
     w_date_parser := date_parser;
     w_from_struct_time := no_struct_time;
     w_clean_html := id;
     w_http := http;
     w_pages := λ _, PageFailed;
     w_json_loads := json_loads;
     w_llm := λ _ _, LLMContent "{ai}";
     w_render := λ _, true;
     w_page_url := "https://example.github.io/2024-03-01.html";
     w_post := λ _, PostRaised;
     w_clock := λ _, now;
     w_save := SaveWritten |}.

(** The same surroundings when the list of sources cannot be read. *)
Definition broken_world : pass_world :=
  {| w_now := now; w_feeds := None; w_date_parser := date_parser;
     w_from_struct_time := no_struct_time; w_clean_html := id; w_http := http;
     w_pages := λ _, PageFailed; w_json_loads := json_loads;
     w_llm := λ _ _, LLMContent "{ai}"; w_render := λ _, true;
     w_page_url := ""; w_post := λ _, PostRaised; w_clock := λ _, now; w_save := SaveWritten |}.

Definition webhook : string := "https://qyapi.example.com/send?key=k".

(** A pass over [world] with an empty mapping, looking back to 1 January 2024. *)
Definition pass : pass_result :=
  fetch_and_process world 1 (Some (mk_datetime 2024 1 1 0 0 0 0)) (Some webhook) (Some ∅)
                    true NoFile.

(** What that pass returns. *)
Definition pass_output : list Article :=
  Eval vm_compute in
    match pass_outcome pass with
    | Returned articles => articles
    | Raised => []
    end.

(** The poll loop: the first round cannot read the list of sources, the
    later rounds run in [world]; the sleep is never interrupted. *)
Definition rounds (n : nat) : round_env :=
  {| r_now := now; r_load_now := now;
     r_world := match n with 1%nat => broken_world | _ => world end;
     r_sleep_cancelled := false |}.

End Sample.

(** ** Further sample inputs *)

Module Scenario.

(** An article without summary and without content. *)
Definition silent : Article :=
  {| title := "Silent"; link := "https://example.com/silent"; source := "Example blog";
     published := None; summary := ""; author := ""; tags := []; full_content := "";
     ai_title := JStr ""; ai_summary := JStr ""; ai_detail := JStr "";
     category := JStr ""; is_relevant := JBool true |}.

(** A client that raises on a request with an empty content or a content of
    more than 2000 characters, and answers "AI" to the others. *)
Definition strict_client : llm_client :=
  λ _ req,
    let content := match req with
                   | SummarizeRequest _ _ c | DetailRequest _ _ c => c
                   end in
    if negb (String.eqb content "") && (py_len content <=? MAX_CONTENT_LEN)%nat
    then LLMContent "{ai}" else LLMRaises.

(** The mapping after the first five items of [Sample.pass_output] were sent. *)
Definition half_sent : gmap string json :=
  mark_as_sent (λ _, Sample.now) (take 5 Sample.pass_output) ∅.

(** A pass over [Sample.world] that is given this mapping. *)
Definition second_pass : pass_result :=
  fetch_and_process Sample.world 1 (Some (mk_datetime 2024 1 1 0 0 0 0))
                    (Some Sample.webhook) (Some half_sent) true NoFile.

(** What that pass returns. *)
Definition second_output : list Article :=
  Eval vm_compute in
    match pass_outcome second_pass with
    | Returned articles => articles
    | Raised => []
    end.

(** [Sample.world] when the write of the store raises after the file was
    opened, and leaves a file that cannot be decoded. *)
Definition disk_full : pass_world :=
  {| w_now := Sample.now;
     w_feeds := w_feeds Sample.world;
     w_date_parser := Sample.date_parser;
     w_from_struct_time := Sample.no_struct_time;
     w_clean_html := id;
     w_http := Sample.http;
     w_pages := λ _, PageFailed;
     w_json_loads := Sample.json_loads;
     w_llm := λ _ _, LLMContent "{ai}";
     w_render := λ _, true;
     w_page_url := "https://example.github.io/2024-03-01.html";
     w_post := λ _, PostAccepted;
     w_clock := λ _, Sample.now;
     w_save := SaveRaised (Some Unreadable) |}.

(** The poll loop when every sleep is interrupted. *)
Definition interrupted (n : nat) : round_env :=
  {| r_now := Sample.now; r_load_now := Sample.now; r_world := Sample.world;
     r_sleep_cancelled := true |}.

(** An OPML document: a folder with two feeds, one of them without address,
    and a feed at the top that has a title and no text. *)
Definition opml : xml_element :=
  XmlElement "opml" ∅
    [XmlElement "head" ∅ [];
     XmlElement "body" ∅
       [XmlElement "outline" {[ "text" := "Blogs" ]}
          [XmlElement "outline" {[ "text" := "One"; "xmlUrl" := "https://one.example/feed";
                                  "htmlUrl" := "https://one.example" ]} [];
           XmlElement "outline" {[ "text" := "Empty"; "xmlUrl" := "" ]} []];
        XmlElement "outline" {[ "title" := "Two"; "xmlUrl" := "https://two.example/rss" ]}
          []]].

End Scenario.

(** * Properties *)

(** ** Strings *)

Lemma ascii_compare_refl (c : ascii) : Ascii.compare c c = Eq.
Proof. unfold Ascii.compare. apply N.compare_refl. Qed.

Lemma string_compare_refl (s : string) : String.compare s s = Eq.
Proof. induction s as [|c s IH]; simpl; [done|]. by rewrite ascii_compare_refl. Qed.

(** No string is greater than itself. *)
Lemma str_gtb_irrefl (s : string) : str_gtb s s = false.
Proof. unfold str_gtb, String.ltb. by rewrite string_compare_refl. Qed.

Lemma str_truthy_false (s : string) : str_truthy s = false ↔ s = "".
Proof. destruct s; simpl; split; congruence. Qed.

Lemma py_len_empty : py_len "" = 0%nat.
Proof. reflexivity. Qed.

(** A text of more than 200 code points is not empty. *)
Lemma long_text_truthy (text : string) : (200 < py_len text)%nat → str_truthy text = true.
Proof. destruct text; simpl; [lia | done]. Qed.

(** ** Order of ISO texts *)

Lemma string_compare_app (a b x y : string) :
  String.length a = String.length b →
  String.compare (a +:+ x) (b +:+ y)
  = match String.compare a b with
    | Eq => String.compare x y
    | c => c
    end.
Proof.
  revert b. induction a as [|c a IH]; intros [|d b] Hlen; try discriminate; [done|].
  simpl in *. destruct (Ascii.compare c d); [|done..]. apply IH. congruence.
Qed.

Lemma string_length_append (a b : string) :
  String.length (a +:+ b) = (String.length a + String.length b)%nat.
Proof. induction a as [|c a IH]; simpl; [done|]. by rewrite IH. Qed.

Lemma zero_padded_length (w : nat) (n : Z) : String.length (zero_padded w n) = w.
Proof.
  revert n. induction w as [|w IH]; intros n; [done|].
  cbn [zero_padded]. rewrite string_length_append, IH. simpl. lia.
Qed.

Lemma digit_char_compare (a b : Z) :
  Ascii.compare (digit_char a) (digit_char b) = (a mod 10 ?= b mod 10).
Proof.
  unfold Ascii.compare, digit_char.
  pose proof (Z.mod_pos_bound a 10 eq_refl) as Ha.
  pose proof (Z.mod_pos_bound b 10 eq_refl) as Hb.
  rewrite !N_ascii_embedding by lia.
  rewrite Z2N.inj_compare by lia. apply Z.add_compare_mono_l.
Qed.

Lemma compare_by_digits (a b : Z) :
  (a ?= b)
  = match a / 10 ?= b / 10 with
    | Eq => a mod 10 ?= b mod 10
    | c => c
    end.
Proof.
  pose proof (Z.div_mod a 10 ltac:(lia)) as Ha.
  pose proof (Z.div_mod b 10 ltac:(lia)) as Hb.
  pose proof (Z.mod_pos_bound a 10 eq_refl) as Ha'.
  pose proof (Z.mod_pos_bound b 10 eq_refl) as Hb'.
  destruct (Z.compare_spec (a / 10) (b / 10)) as [Hq|Hq|Hq].
  - destruct (Z.compare_spec (a mod 10) (b mod 10)) as [Hr|Hr|Hr];
      [apply Z.compare_eq_iff|apply Z.compare_lt_iff|apply Z.compare_gt_iff]; lia.
  - apply Z.compare_lt_iff. lia.
  - apply Z.compare_gt_iff. lia.
Qed.

(** Zero-padded numbers of the same width compare as the numbers do. *)
Lemma zero_padded_compare (w : nat) (a b : Z) :
  0 ≤ a < 10 ^ Z.of_nat w → 0 ≤ b < 10 ^ Z.of_nat w →
  String.compare (zero_padded w a) (zero_padded w b) = (a ?= b).
Proof.
  revert a b. induction w as [|w IH]; intros a b Ha Hb.
  - simpl in *. symmetry. apply Z.compare_eq_iff. lia.
  - cbn [zero_padded]. rewrite string_compare_app by (by rewrite !zero_padded_length).
    rewrite Nat2Z.inj_succ, Z.pow_succ_r in Ha, Hb by lia.
    rewrite IH by (split; [apply Z.div_pos|apply Z.div_lt_upper_bound]; lia).
    rewrite (compare_by_digits a b). destruct (a / 10 ?= b / 10); [|done..].
    simpl. rewrite digit_char_compare. by destruct (a mod 10 ?= b mod 10).
Qed.
Lemma ord2ymd_shift (n k : Z) : ord2ymd (n + DI400Y * k) = add_years (400 * k) (ord2ymd n).
Proof.
  unfold ord2ymd, add_years.
  replace (n + DI400Y * k - 1) with (n - 1 + k * DI400Y) by lia.
  rewrite Z.div_add, Z.mod_add by done.
  cbv zeta.
  repeat match goal with
         | |- context [if ?b then _ else _] => destruct b
         end; cbn [fst snd]; f_equal; try f_equal; lia.
Qed.

Lemma days_increase_sound (fuel : nat) (n : Z) :
  days_increase fuel n (ord2ymd n) = true →
  ∀ i, 0 ≤ i < Z.of_nat fuel →
       month_day_ok (ord2ymd (n + i)) = true
       ∧ ymd_compare (ord2ymd (n + i)) (ord2ymd (n + i + 1)) = Lt.
Proof.
  revert n. induction fuel as [|fuel IH]; intros n Hcheck i Hi; [lia|].
  cbn [days_increase] in Hcheck.
  destruct (month_day_ok (ord2ymd n)) eqn:Hok; [|discriminate].
  destruct (ymd_compare (ord2ymd n) (ord2ymd (n + 1))) eqn:Hlt; try discriminate.
  cbn [andb] in Hcheck.
  destruct (decide (i = 0)) as [->|Hne].
  - rewrite Z.add_0_r. done.
  - specialize (IH (n + 1) Hcheck (i - 1)).
    replace (n + 1 + (i - 1)) with (n + i) in IH by lia. apply IH. lia.
Qed.

Lemma first_cycle_increases : days_increase (Z.to_nat DI400Y) 1 (ord2ymd 1) = true.
Proof. vm_compute. reflexivity. Qed.

Lemma ymd_compare_add_years (k : Z) (a b : Z * Z * Z) :
  ymd_compare (add_years k a) (add_years k b) = ymd_compare a b.
Proof.
  unfold ymd_compare, add_years. cbn [fst snd].
  by rewrite (Z.add_comm a.1.1), (Z.add_comm b.1.1), Z.add_compare_mono_l.
Qed.

(** Every day from day 1 on is a well-formed date before the next day's. *)
Lemma next_day_later (n : Z) :
  1 ≤ n →
  month_day_ok (ord2ymd n) = true ∧ ymd_compare (ord2ymd n) (ord2ymd (n + 1)) = Lt.
Proof.
  intros Hn.
  pose proof (Z.div_mod (n - 1) DI400Y ltac:(done)) as Hdm.
  pose proof (Z.mod_pos_bound (n - 1) DI400Y eq_refl) as Hm.
  set (k := (n - 1) / DI400Y) in *. set (i := (n - 1) mod DI400Y) in *.
  destruct (days_increase_sound _ _ first_cycle_increases i) as [Hok Hlt].
  { rewrite Z2Nat.id by done. lia. }
  replace n with (1 + i + DI400Y * k) by lia.
  replace (1 + i + DI400Y * k + 1) with (1 + i + 1 + DI400Y * k) by lia.
  rewrite !ord2ymd_shift, ymd_compare_add_years. split; [|done].
  unfold month_day_ok, add_years in *. done.
Qed.

Lemma ymd_compare_trans (a b c : Z * Z * Z) :
  ymd_compare a b = Lt → ymd_compare b c = Lt → ymd_compare a c = Lt.
Proof.
  unfold ymd_compare.
  destruct (Z.compare_spec a.1.1 b.1.1), (Z.compare_spec b.1.1 c.1.1),
    (Z.compare_spec a.1.1 c.1.1); try discriminate; try lia; try done;
  destruct (Z.compare_spec a.1.2 b.1.2), (Z.compare_spec b.1.2 c.1.2),
    (Z.compare_spec a.1.2 c.1.2); try discriminate; try lia; try done;
  rewrite !Z.compare_lt_iff; lia.
Qed.

Lemma later_day_later_date (n m : Z) :
  1 ≤ n → n < m → ymd_compare (ord2ymd n) (ord2ymd m) = Lt.
Proof.
  intros Hn Hnm. replace m with (n + 1 + (m - n - 1)) by lia.
  assert (Hd : 0 ≤ m - n - 1) by lia. revert Hd. generalize (m - n - 1).
  apply natlike_ind.
  - rewrite Z.add_0_r. by apply next_day_later.
  - intros d Hd IH. eapply ymd_compare_trans; [exact IH|].
    replace (n + 1 + Z.succ d) with (n + 1 + d + 1) by lia.
    apply next_day_later. lia.
Qed.

Lemma ymd_compare_refl (a : Z * Z * Z) : ymd_compare a a = Eq.
Proof. unfold ymd_compare. by rewrite !Z.compare_refl. Qed.

Lemma ymd_compare_antisym (a b : Z * Z * Z) :
  ymd_compare a b = CompOpp (ymd_compare b a).
Proof.
  unfold ymd_compare.
  rewrite (Z.compare_antisym b.1.1), (Z.compare_antisym b.1.2), (Z.compare_antisym b.2).
  destruct (b.1.1 ?= a.1.1); [|done..]. simpl.
  by destruct (b.1.2 ?= a.1.2).
Qed.

(** Dates are ordered as their ordinals. *)
Lemma ymd_compare_ord2ymd (n m : Z) :
  1 ≤ n → 1 ≤ m → ymd_compare (ord2ymd n) (ord2ymd m) = (n ?= m).
Proof.
  intros Hn Hm. destruct (Z.compare_spec n m) as [->|Hlt|Hgt].
  - apply ymd_compare_refl.
  - by apply later_day_later_date.
  - rewrite ymd_compare_antisym, later_day_later_date by done. done.
Qed.

Lemma ord2ymd_fields (n : Z) :
  1 ≤ n ≤ MAX_ORDINAL →
  1 ≤ (ord2ymd n).1.1 ≤ 9999 ∧ 1 ≤ (ord2ymd n).1.2 ≤ 12 ∧ 1 ≤ (ord2ymd n).2 ≤ 31.
Proof.
  intros Hn. destruct (next_day_later n) as [Hok _]; [lia|].
  unfold month_day_ok in Hok.
  pose proof (ymd_compare_ord2ymd 1 n ltac:(lia) ltac:(lia)) as Hlo.
  pose proof (ymd_compare_ord2ymd n MAX_ORDINAL ltac:(lia) ltac:(done)) as Hhi.
  change (ord2ymd 1) with (1, 1, 1) in Hlo.
  change (ord2ymd MAX_ORDINAL) with (9999, 12, 31) in Hhi.
  unfold ymd_compare in Hlo, Hhi. cbn [fst snd] in Hlo, Hhi.
  destruct (Z.compare_spec 1 (ord2ymd n).1.1), (Z.compare_spec (ord2ymd n).1.1 9999),
    (Z.compare_spec 1 n), (Z.compare_spec n MAX_ORDINAL); try discriminate; try lia.
Qed.

Lemma string_compare_app_same (s x y : string) :
  String.compare (s +:+ x) (s +:+ y) = String.compare x y.
Proof. rewrite string_compare_app by done. by rewrite string_compare_refl. Qed.

Lemma field_compare (w : nat) (a b : Z) (x y : string) :
  0 ≤ a < 10 ^ Z.of_nat w → 0 ≤ b < 10 ^ Z.of_nat w →
  String.compare (zero_padded w a +:+ x) (zero_padded w b +:+ y)
  = match a ?= b with
    | Eq => String.compare x y
    | c => c
    end.
Proof.
  intros Ha Hb. rewrite string_compare_app by (by rewrite !zero_padded_length).
  by rewrite zero_padded_compare.
Qed.

(** Comparing numbers by quotient, then remainder. *)
Lemma compare_div_mod (B a b : Z) :
  0 < B →
  (a ?= b)
  = match a / B ?= b / B with
    | Eq => a mod B ?= b mod B
    | c => c
    end.
Proof.
  intros HB.
  pose proof (Z.div_mod a B ltac:(lia)) as Ha.
  pose proof (Z.div_mod b B ltac:(lia)) as Hb.
  pose proof (Z.mod_pos_bound a B HB) as Ha'.
  pose proof (Z.mod_pos_bound b B HB) as Hb'.
  destruct (Z.compare_spec (a / B) (b / B)) as [Hq|Hq|Hq].
  - destruct (Z.compare_spec (a mod B) (b mod B)) as [Hr|Hr|Hr];
      [apply Z.compare_eq_iff|apply Z.compare_lt_iff|apply Z.compare_gt_iff]; nia.
  - apply Z.compare_lt_iff. nia.
  - apply Z.compare_gt_iff. nia.
Qed.

(** The fraction and the offset: a text without fraction comes first. *)
Lemma fraction_compare (u1 u2 : Z) :
  0 ≤ u1 < 1000000 → 0 ≤ u2 < 1000000 →
  String.compare ((if u1 =? 0 then "" else "." +:+ zero_padded 6 u1) +:+ "+00:00")
                 ((if u2 =? 0 then "" else "." +:+ zero_padded 6 u2) +:+ "+00:00")
  = (u1 ?= u2).
Proof.
  intros H1 H2.
  destruct (Z.eqb_spec u1 0) as [->|Hn1], (Z.eqb_spec u2 0) as [->|Hn2].
  - reflexivity.
  - transitivity Lt; [reflexivity|]. symmetry. apply Z.compare_lt_iff. lia.
  - transitivity Gt; [reflexivity|]. symmetry. apply Z.compare_gt_iff. lia.
  - change (("." +:+ zero_padded 6 u1) +:+ "+00:00")
      with ("." +:+ (zero_padded 6 u1 +:+ "+00:00")).
    change (("." +:+ zero_padded 6 u2) +:+ "+00:00")
      with ("." +:+ (zero_padded 6 u2 +:+ "+00:00")).
    rewrite string_compare_app_same, field_compare by done.
    rewrite string_compare_refl. by destruct (u1 ?= u2).
Qed.

(** The ISO texts of two instants compare as the instants do. *)
Theorem isoformat_compare (t1 t2 : datetime) :
  datetime_in_range t1 = true → datetime_in_range t2 = true →
  String.compare (isoformat t1) (isoformat t2) = (t1 ?= t2).
Proof.
  unfold datetime_in_range. rewrite !andb_true_iff, !Z.leb_le, !Z.ltb_lt.
  intros [Hlo1 Hhi1] [Hlo2 Hhi2].
  assert (HD : 0 < US_PER_DAY) by done. assert (HS : 0 < US_PER_SECOND) by done.
  pose proof (Z.mod_pos_bound t1 US_PER_DAY HD) as Hr1.
  pose proof (Z.mod_pos_bound t2 US_PER_DAY HD) as Hr2.
  assert (Hd1 : 0 ≤ t1 / US_PER_DAY < MAX_ORDINAL)
    by (split; [by apply Z.div_pos|apply Z.div_lt_upper_bound; lia]).
  assert (Hd2 : 0 ≤ t2 / US_PER_DAY < MAX_ORDINAL)
    by (split; [by apply Z.div_pos|apply Z.div_lt_upper_bound; lia]).
  rewrite (compare_div_mod US_PER_DAY t1 t2 HD).
  unfold isoformat.
  set (d1 := t1 / US_PER_DAY) in *. set (d2 := t2 / US_PER_DAY) in *.
  set (r1 := t1 mod US_PER_DAY) in *. set (r2 := t2 mod US_PER_DAY) in *.
  pose proof (ymd_compare_ord2ymd (d1 + 1) (d2 + 1) ltac:(lia) ltac:(lia)) as Hymd.
  destruct (ord2ymd_fields (d1 + 1) ltac:(lia)) as (Hy1 & Hm1 & Hday1).
  destruct (ord2ymd_fields (d2 + 1) ltac:(lia)) as (Hy2 & Hm2 & Hday2).
  destruct (ord2ymd (d1 + 1)) as [[y1 m1] day1], (ord2ymd (d2 + 1)) as [[y2 m2] day2].
  unfold ymd_compare in Hymd. cbn [fst snd] in *.
  rewrite (Z.add_comm d1), (Z.add_comm d2), Z.add_compare_mono_l in Hymd.
  set (s1 := r1 / US_PER_SECOND). set (s2 := r2 / US_PER_SECOND).
  set (u1 := r1 mod US_PER_SECOND). set (u2 := r2 mod US_PER_SECOND).
  assert (Hs1 : 0 ≤ s1 < 86400)
    by (split; [by apply Z.div_pos; lia|apply Z.div_lt_upper_bound; [done|apply Hr1]]).
  assert (Hs2 : 0 ≤ s2 < 86400)
    by (split; [by apply Z.div_pos; lia|apply Z.div_lt_upper_bound; [done|apply Hr2]]).
  pose proof (Z.mod_pos_bound r1 US_PER_SECOND HS) as Hu1.
  pose proof (Z.mod_pos_bound r2 US_PER_SECOND HS) as Hu2.
  fold u1 in Hu1. fold u2 in Hu2. change US_PER_SECOND with 1000000 in Hu1, Hu2.
  assert (Hh1 : 0 ≤ s1 / 3600 < 24)
    by (split; [apply Z.div_pos|apply Z.div_lt_upper_bound]; lia).
  assert (Hh2 : 0 ≤ s2 / 3600 < 24)
    by (split; [apply Z.div_pos|apply Z.div_lt_upper_bound]; lia).
  pose proof (Z.mod_pos_bound (s1 / 60) 60 eq_refl) as Hmi1.
  pose proof (Z.mod_pos_bound (s2 / 60) 60 eq_refl) as Hmi2.
  pose proof (Z.mod_pos_bound s1 60 eq_refl) as Hse1.
  pose proof (Z.mod_pos_bound s2 60 eq_refl) as Hse2.
  rewrite (field_compare 4) by (change (10 ^ Z.of_nat 4) with 10000; lia).
  rewrite string_compare_app_same.
  rewrite (field_compare 2) by (change (10 ^ Z.of_nat 2) with 100; lia).
  rewrite string_compare_app_same.
  rewrite (field_compare 2) by (change (10 ^ Z.of_nat 2) with 100; lia).
  rewrite string_compare_app_same.
  rewrite (field_compare 2) by (change (10 ^ Z.of_nat 2) with 100; lia).
  rewrite string_compare_app_same.
  rewrite (field_compare 2) by (change (10 ^ Z.of_nat 2) with 100; lia).
  rewrite string_compare_app_same.
  rewrite (field_compare 2) by (change (10 ^ Z.of_nat 2) with 100; lia).
  rewrite fraction_compare by done.
  rewrite (compare_div_mod US_PER_SECOND r1 r2 HS). fold s1 s2 u1 u2.
  rewrite (compare_div_mod 60 s1 s2 eq_refl).
  rewrite (compare_div_mod 60 (s1 / 60) (s2 / 60) eq_refl).
  rewrite !Z.div_div by lia. change (60 * 60) with 3600.
  rewrite <- Hymd.
  destruct (y1 ?= y2); [|done..]. destruct (m1 ?= m2); [|done..].
  destruct (day1 ?= day2); [|done..]. destruct (s1 / 3600 ?= s2 / 3600); [|done..].
  by destruct (s1 / 60 mod 60 ?= s2 / 60 mod 60).
Qed.

(** [a > b] on ISO texts is "later than" on the instants. *)
Corollary isoformat_gtb (t1 t2 : datetime) :
  datetime_in_range t1 = true → datetime_in_range t2 = true →
  str_gtb (isoformat t1) (isoformat t2) = bool_decide (t2 < t1).
Proof.
  intros H1 H2. unfold str_gtb, String.ltb. rewrite (isoformat_compare t2 t1 H2 H1).
  destruct (Z.compare_spec t2 t1) as [->|Hlt|Hgt].
  - by rewrite bool_decide_eq_false_2 by lia.
  - by rewrite bool_decide_eq_true_2.
  - by rewrite bool_decide_eq_false_2 by lia.
Qed.

(** ** Deduplication store *)

(** The identity of an article is a function of its link alone. *)
Lemma article_id_link (a b : Article) : link a = link b → _article_id a = _article_id b.
Proof. unfold _article_id. by intros ->. Qed.

Example article_id_example :
  MD5.hexdigest "https://example.com/posts/1" = "de0617c481337158695d4e48d5c275d2".
Proof. vm_compute. reflexivity. Qed.

Lemma filter_new_articles_nil (db : gmap string json) : filter_new_articles [] db = [].
Proof. reflexivity. Qed.

Lemma filter_new_articles_cons_new (a : Article) (items : list Article)
    (db : gmap string json) :
  db !! _article_id a = None →
  filter_new_articles (a :: items) db = a :: filter_new_articles items db.
Proof. intros H. unfold filter_new_articles. by rewrite filter_cons_True. Qed.

Lemma filter_new_articles_cons_seen (a : Article) (items : list Article)
    (db : gmap string json) :
  is_Some (db !! _article_id a) →
  filter_new_articles (a :: items) db = filter_new_articles items db.
Proof.
  intros [v Hv]. unfold filter_new_articles. rewrite filter_cons_False; [done|].
  rewrite Hv. discriminate.
Qed.

(** C8. [filter_new_articles] returns the subsequence of the items whose
    identity hash (the MD5 digest of the link) is absent from the mapping, in
    the order of the input, and applying it twice with the same mapping
    changes nothing more. *)
Theorem filter_new_articles_subsequence_idempotent
    (items : list Article) (db : gmap string json) :
  filter_new_articles items db `sublist_of` items
  ∧ (∀ a, a ∈ filter_new_articles items db ↔ a ∈ items ∧ _article_id a ∉ dom db)
  ∧ (∀ a rest, filter_new_articles (a :: rest) db =
               if decide (_article_id a ∈ dom db) then filter_new_articles rest db
               else a :: filter_new_articles rest db)
  ∧ filter_new_articles (filter_new_articles items db) db = filter_new_articles items db.
Proof.
  split; [apply sublist_filter|]. split; [|split].
  - intros a. unfold filter_new_articles. rewrite list_elem_of_filter.
    rewrite not_elem_of_dom. tauto.
  - intros a rest. case_decide as Hd.
    + apply filter_new_articles_cons_seen. by apply elem_of_dom.
    + apply filter_new_articles_cons_new. by apply not_elem_of_dom.
  - unfold filter_new_articles. rewrite list_filter_filter.
    apply list_filter_iff. tauto.
Qed.

(** ** Loading the store *)

Lemma load_sent_db_no_file (now : datetime) : load_sent_db now NoFile = ∅.
Proof. reflexivity. Qed.

Lemma load_sent_db_unreadable (now : datetime) : load_sent_db now Unreadable = ∅.
Proof. reflexivity. Qed.

(** One record that cannot be compared empties the whole mapping. *)
Lemma load_sent_db_malformed (now t : datetime) (items : gmap string json) (k : string)
    (v : json) :
  sub_days now 30 = Some t →
  items !! k = Some v →
  newer_than (isoformat t) v = None →
  load_sent_db now (Stored (JObj items)) = ∅.
Proof.
  intros Ht Hk Hv. unfold load_sent_db. rewrite Ht.
  rewrite bool_decide_eq_false_2; [done|].
  intros Hall. specialize (Hall k v Hk). simpl in Hall. rewrite Hv in Hall.
  by destruct Hall.
Qed.

Lemma sub_days_in_range (now t : datetime) (n : Z) :
  sub_days now n = Some t → datetime_in_range t = true.
Proof.
  unfold sub_days. destruct (datetime_in_range (now - n * US_PER_DAY)) eqn:H; [|done].
  by intros [= <-].
Qed.

Lemma sent_record_sent_at (a : Article) (s : datetime) (d : gmap string json) :
  sent_record a s = JObj d → dict_get d "sent_at" (JStr "") = JStr (isoformat s).
Proof.
  unfold sent_record. intros [= <-]. unfold dict_get.
  rewrite lookup_insert_ne by done. rewrite lookup_insert_ne by done.
  by rewrite lookup_singleton_eq.
Qed.

(** C1, as the code has it: when every stored record carries a string
    [sent_at] (or none), [load_sent_db] returns exactly the records whose
    [sent_at] string is strictly greater than the ISO text of the instant 30
    days before the clock reading; a record whose [sent_at] is that text
    itself, at the boundary, is dropped; and a record written by
    [mark_as_sent] at the instant [s] is kept exactly when [s] is strictly
    later than that instant. *)
Theorem load_sent_db_keeps_strictly_newer
    (now t : datetime) (items : gmap string json) :
  sub_days now 30 = Some t →
  map_Forall (λ _ v, is_Some (newer_than (isoformat t) v)) items →
  (∀ k v, load_sent_db now (Stored (JObj items)) !! k = Some v ↔
          items !! k = Some v ∧
          ∃ d sent_at, v = JObj d
                       ∧ dict_get d "sent_at" (JStr "") = JStr sent_at
                       ∧ str_gtb sent_at (isoformat t) = true)
  ∧ (∀ k d, items !! k = Some (JObj d) →
            d !! "sent_at" = Some (JStr (isoformat t)) →
            load_sent_db now (Stored (JObj items)) !! k = None)
  ∧ (∀ k a s, datetime_in_range s = true →
              items !! k = Some (sent_record a s) →
              (load_sent_db now (Stored (JObj items)) !! k = Some (sent_record a s)
               ↔ t < s)).
Proof.
  intros Ht Hall.
  assert (Hkept : ∀ k v, load_sent_db now (Stored (JObj items)) !! k = Some v ↔
            items !! k = Some v ∧
            ∃ d sent_at, v = JObj d
                         ∧ dict_get d "sent_at" (JStr "") = JStr sent_at
                         ∧ str_gtb sent_at (isoformat t) = true).
  { unfold load_sent_db. rewrite Ht.
    rewrite bool_decide_eq_true_2; [|done].
    intros k v. rewrite map_lookup_filter_Some. cbn [snd]. split.
    - intros [Hk Hv]. split; [done|].
      destruct v as [| | | | |l|d]; cbn [newer_than] in Hv; try discriminate.
      destruct (dict_get d "sent_at" (JStr "")) as [| | | |s| |] eqn:Hs; try discriminate.
      exists d, s. split; [done|]. split; [done|]. congruence.
    - intros [Hk (d & s & -> & Hs & Hgt)]. split; [done|].
      cbn [newer_than]. by rewrite Hs, Hgt. }
  split; [exact Hkept|]. split.
  - intros k d Hk Hd.
    destruct (load_sent_db now (Stored (JObj items)) !! k) as [v|] eqn:Hv; [|done].
    apply Hkept in Hv as [Hk' (d' & s & -> & Hs & Hgt)].
    rewrite Hk in Hk'. injection Hk' as <-.
    unfold dict_get in Hs. rewrite Hd in Hs. injection Hs as <-.
    by rewrite str_gtb_irrefl in Hgt.
  - intros k a s Hrange Hk. rewrite Hkept.
    pose proof (sub_days_in_range _ _ _ Ht) as Htr. split.
    + intros [_ (d & sent_at & Hd & Hs & Hgt)].
      rewrite (sent_record_sent_at _ _ _ Hd) in Hs. injection Hs as <-.
      rewrite isoformat_gtb in Hgt by done. by apply bool_decide_eq_true in Hgt.
    + intros Hlt. split; [done|]. eexists _, _. split; [reflexivity|].
      split; [exact (sent_record_sent_at a s _ eq_refl)|].
      rewrite isoformat_gtb by done. by apply bool_decide_eq_true.
Qed.

Lemma load_sent_db_keeps_strictly_newer_witness :
  sub_days Sample.now 30 = Some Sample.cutoff
  ∧ map_Forall (λ _ v, is_Some (newer_than (isoformat Sample.cutoff) v)) Sample.stored
  ∧ load_sent_db Sample.now (Stored (JObj Sample.stored)) !! "after"
    = Some (Sample.record "2024-01-31T12:00:00.000001+00:00")
  ∧ load_sent_db Sample.now (Stored (JObj Sample.stored)) !! "at" = None.
Proof.
  assert (Hsub : sub_days Sample.now 30 = Some Sample.cutoff) by (vm_compute; reflexivity).
  assert (Hall : map_Forall (λ _ v, is_Some (newer_than (isoformat Sample.cutoff) v))
                            Sample.stored).
  { apply (bool_decide_unpack _). vm_compute. exact I. }
  split; [exact Hsub|]. split; [exact Hall|].
  destruct (load_sent_db_keeps_strictly_newer Sample.now Sample.cutoff Sample.stored
              Hsub Hall) as (Hkept & Hdropped & _).
  split.
  - apply Hkept. split; [vm_compute; reflexivity|].
    eexists _, _. split; [reflexivity|]. split; vm_compute; reflexivity.
  - eapply Hdropped; vm_compute; reflexivity.
Defined.

(** C1, counterexample to the non-strict reading: the record whose
    [sent_at] is exactly 30 days before the clock reading is not in the
    mapping [load_sent_db] returns. *)
Lemma load_sent_db_boundary_record_dropped :
  option_map isoformat (sub_days Sample.now 30) = Some "2024-01-31T12:00:00+00:00"
  ∧ Sample.stored !! "at" = Some (Sample.record "2024-01-31T12:00:00+00:00")
  ∧ load_sent_db Sample.now (Stored (JObj Sample.stored)) !! "at" = None.
Proof. vm_compute. done. Qed.

(** ** Content enricher *)

Lemma fetch_page_content_long (text : string) :
  (200 < py_len text)%nat → fetch_page_content (PageText text) = text.
Proof. intros H. simpl. by rewrite (proj2 (Nat.ltb_lt _ _) H). Qed.

Lemma fetch_page_content_short (text : string) :
  (py_len text ≤ 200)%nat → fetch_page_content (PageText text) = "".
Proof. intros H. simpl. by rewrite (proj2 (Nat.ltb_ge _ _) H). Qed.

Lemma bounded_fetch_long (text : string) (a : Article) :
  (200 < py_len text)%nat → bounded_fetch (PageText text) a = set_full_content a text.
Proof.
  intros H. unfold bounded_fetch. rewrite fetch_page_content_long by done.
  by rewrite long_text_truthy.
Qed.

Lemma bounded_fetch_short (text : string) (a : Article) :
  (py_len text ≤ 200)%nat → bounded_fetch (PageText text) a = a.
Proof. intros H. unfold bounded_fetch. by rewrite fetch_page_content_short. Qed.

Lemma bounded_fetch_failed (a : Article) : bounded_fetch PageFailed a = a.
Proof. reflexivity. Qed.

Lemma enrich_length (pages : nat → page_response) (articles : list Article) :
  length (enrich_articles_with_full_content pages articles) = length articles.
Proof. apply length_imap. Qed.

(** C5. The enricher replaces the content of an item with the text
    extracted from its page exactly when that text has more than 200
    characters; with a text of at most 200 characters, or a failed request,
    the item is left as it was. *)
Theorem enrich_replaces_content_iff_long
    (pages : nat → page_response) (articles : list Article) (i : nat) (a : Article) :
  articles !! i = Some a →
  ∃ a', enrich_articles_with_full_content pages articles !! i = Some a'
        ∧ (∀ text, pages i = PageText text → (200 < py_len text)%nat →
                   a' = set_full_content a text ∧ full_content a' = text)
        ∧ (∀ text, pages i = PageText text → (py_len text ≤ 200)%nat → a' = a)
        ∧ (pages i = PageFailed → a' = a).
Proof.
  intros Hi. exists (bounded_fetch (pages i) a). split.
  - unfold enrich_articles_with_full_content. rewrite list_lookup_imap, Hi. reflexivity.
  - split; [|split].
    + intros text -> Hlen. rewrite bounded_fetch_long by done. done.
    + intros text -> Hlen. by apply bounded_fetch_short.
    + intros ->. reflexivity.
Qed.

Lemma enrich_replaces_content_iff_long_witness :
  [Sample.post] !! 0%nat = Some Sample.post
  ∧ full_content
      <$> enrich_articles_with_full_content (λ _, PageText (Sample.text_of_length 201))
            [Sample.post] !! 0%nat
    = Some (Sample.text_of_length 201)
  ∧ full_content
      <$> enrich_articles_with_full_content (λ _, PageText (Sample.text_of_length 200))
            [Sample.post] !! 0%nat
    = Some "feed summary".
Proof.
  split; [reflexivity|]. split.
  - destruct (enrich_replaces_content_iff_long
                (λ _, PageText (Sample.text_of_length 201)) [Sample.post] 0 Sample.post
                eq_refl) as (a' & -> & Hlong & _).
    destruct (Hlong _ eq_refl) as [-> _]; [vm_compute; lia|]. reflexivity.
  - destruct (enrich_replaces_content_iff_long
                (λ _, PageText (Sample.text_of_length 200)) [Sample.post] 0 Sample.post
                eq_refl) as (a' & -> & _ & Hshort & _).
    rewrite (Hshort _ eq_refl); [reflexivity|]. vm_compute. lia.
Defined.

(** ** Source fetcher: the date policy *)

Section FetcherFacts.
Variable date_parser_parse : string → conversion.
Variable from_struct_time : struct_time → conversion.
Variable clean_html : string → string.

Local Abbreviation parse_date := (parse_date date_parser_parse from_struct_time).
Local Abbreviation any_dated := (any_dated date_parser_parse from_struct_time).
Local Abbreviation article_of_entry := (article_of_entry clean_html).
Local Abbreviation collect_entries :=
  (collect_entries date_parser_parse from_struct_time clean_html).
Local Abbreviation fetch_feed := (fetch_feed date_parser_parse from_struct_time clean_html).

(** The date of an entry, when [parse_date] returns. *)
Local Abbreviation resolved :=
  (λ e, match parse_date e with Returned o => o | Raised => None end).

(** The entries a dated feed keeps: those with a date not before [since]. *)
Local Abbreviation in_window since :=
  (λ e, match parse_date e with
        | Returned (Some d) => bool_decide (since ≤ d)
        | _ => false
        end = true).

Lemma published_article_of_entry (src : FeedSource) (e : FeedEntry) (d : option datetime) :
  published (article_of_entry src e d) = d.
Proof. reflexivity. Qed.

(** Once the feed is known to carry a date, the counter plays no part. *)
Lemma collect_entries_dated (src : FeedSource) (since : datetime) (collected : nat)
    (entries : list FeedEntry) :
  Forall (λ e, parse_date e ≠ Raised) entries →
  collect_entries src since true collected entries
  = map (λ e, article_of_entry src e (resolved e)) (filter (in_window since) entries).
Proof.
  induction 1 as [|e rest He _ IH]; [reflexivity|].
  cbn [collect_entries]. rewrite filter_cons.
  destruct (parse_date e) as [[d|]|] eqn:Hd; [| |done].
  - destruct (Z.ltb_spec d since) as [Hlt|Hge].
    + rewrite decide_False; [apply IH|].
      rewrite bool_decide_eq_true. lia.
    + rewrite decide_True by (rewrite bool_decide_eq_true; lia).
      cbn [map]. rewrite Hd. f_equal. apply IH.
  - rewrite decide_False by discriminate. apply IH.
Qed.

(** In a feed without dates, what is left of the cap decides. *)
Lemma collect_entries_dateless (src : FeedSource) (since : datetime) (collected : nat)
    (entries : list FeedEntry) :
  Forall (λ e, parse_date e = Returned None) entries →
  collect_entries src since false collected entries
  = map (λ e, article_of_entry src e None)
        (take (MAX_ARTICLES_NO_DATE - collected) entries).
Proof.
  intros Hall. revert collected.
  induction Hall as [|e rest He Hrest IH]; intros collected.
  - by rewrite take_nil.
  - cbn [collect_entries]. rewrite He.
    destruct (Nat.ltb_spec MAX_ARTICLES_NO_DATE (S collected)) as [Hlt|Hge].
    + rewrite IH. replace (MAX_ARTICLES_NO_DATE - collected)%nat with 0%nat by lia.
      replace (MAX_ARTICLES_NO_DATE - S collected)%nat with 0%nat by lia.
      by rewrite !take_0.
    + rewrite IH.
      replace (MAX_ARTICLES_NO_DATE - collected)%nat
        with (S (MAX_ARTICLES_NO_DATE - S collected)) by lia.
      reflexivity.
Qed.

Lemma any_dated_true (entries rest : list FeedEntry) :
  Forall (λ e, parse_date e ≠ Raised) entries →
  Exists (λ e, ∃ d, parse_date e = Returned (Some d)) entries →
  any_dated (entries ++ rest) = Returned true.
Proof.
  induction 1 as [|e l He _ IH]; intros Hex; [by apply Exists_nil in Hex|].
  cbn [app any_dated]. destruct (parse_date e) as [[d|]|] eqn:Hd; [done| |done].
  apply IH. apply Exists_cons in Hex as [[d Hd']|Hex]; [congruence|done].
Qed.

Lemma any_dated_false (entries : list FeedEntry) :
  Forall (λ e, parse_date e = Returned None) entries →
  any_dated entries = Returned false.
Proof. induction 1 as [|e l He _ IH]; [done|]. cbn [any_dated]. by rewrite He. Qed.

Lemma any_dated_raised (pre post : list FeedEntry) (e : FeedEntry) :
  Forall (λ x, parse_date x = Returned None) pre →
  parse_date e = Raised →
  any_dated (pre ++ e :: post) = Raised.
Proof.
  intros Hpre He. induction Hpre as [|x l Hx _ IH]; cbn [app any_dated].
  - by rewrite He.
  - by rewrite Hx.
Qed.

(** A feed that cannot be retrieved yields no item. *)
Lemma fetch_feed_failed (resp : feed_response) (src : FeedSource) (since : datetime) :
  (∀ entries, resp ≠ FeedParsed entries) → fetch_feed resp src since = [].
Proof. intros H. destruct resp; try reflexivity. by destruct (H entries). Qed.

(** No item is older than [since]. *)
Lemma collect_entries_published (src : FeedSource) (since : datetime) (has_any_date : bool)
    (collected : nat) (entries : list FeedEntry) :
  Forall (λ a, ∀ d, published a = Some d → since ≤ d)
         (collect_entries src since has_any_date collected entries).
Proof.
  revert collected. induction entries as [|e rest IH]; intros collected; [constructor|].
  cbn [collect_entries]. destruct (parse_date e) as [[d|]|] eqn:Hd; [| |constructor].
  - destruct (Z.ltb_spec d since) as [Hlt|Hge]; [apply IH|].
    constructor; [|apply IH]. intros d' [= <-]. exact Hge.
  - destruct has_any_date; [apply IH|].
    destruct (MAX_ARTICLES_NO_DATE <? S collected)%nat; [apply IH|].
    constructor; [|apply IH]. intros d' Hd'. discriminate.
Qed.

Lemma fetch_feed_published (resp : feed_response) (src : FeedSource) (since : datetime) :
  Forall (λ a, ∀ d, published a = Some d → since ≤ d) (fetch_feed resp src since).
Proof.
  destruct resp; try constructor. unfold fetch_feed.
  destruct (any_dated entries); [apply collect_entries_published|constructor].
Qed.

(** X29. The date policy, when no conversion of a date raises an exception
    that [parse_date] does not catch. For a retrieved feed: if some entry has
    a resolvable date, the items are exactly the entries whose date resolves
    and is not earlier than [since], so every dateless entry and every entry
    strictly earlier than [since] is left out; if no entry has a resolvable
    date, the items are exactly the first [MAX_ARTICLES_NO_DATE] = 3 entries,
    in document order, so a ten-entry feed without dates yields three
    items. *)
Theorem fetch_feed_date_policy
    (entries : list FeedEntry) (src : FeedSource) (since : datetime) :
  Forall (λ e, parse_date e ≠ Raised) entries →
  (Exists (λ e, ∃ d, parse_date e = Returned (Some d)) entries →
     fetch_feed (FeedParsed entries) src since
     = map (λ e, article_of_entry src e (resolved e)) (filter (in_window since) entries)
     ∧ ∀ a, a ∈ fetch_feed (FeedParsed entries) src since →
            ∃ d, published a = Some d ∧ since ≤ d)
  ∧ (Forall (λ e, parse_date e = Returned None) entries →
     fetch_feed (FeedParsed entries) src since
     = map (λ e, article_of_entry src e None) (take 3 entries)
     ∧ length (fetch_feed (FeedParsed entries) src since) = (length entries `min` 3)%nat
     ∧ (length entries = 10%nat →
        length (fetch_feed (FeedParsed entries) src since) = 3%nat)).
Proof.
  intros Hret. split.
  - intros Hex.
    assert (Heq : fetch_feed (FeedParsed entries) src since
                  = map (λ e, article_of_entry src e (resolved e))
                        (filter (in_window since) entries)).
    { unfold fetch_feed. rewrite <- (app_nil_r entries) at 1.
      rewrite (any_dated_true entries [] Hret Hex). by apply collect_entries_dated. }
    split; [exact Heq|].
    intros a Ha. rewrite Heq in Ha. apply list_elem_of_fmap in Ha as (e & -> & He).
    apply list_elem_of_filter in He as [He _].
    destruct (parse_date e) as [[d|]|] eqn:Hd; [|discriminate..].
    exists d. split; [done|]. by apply bool_decide_eq_true in He.
  - intros Hall.
    assert (Heq : fetch_feed (FeedParsed entries) src since
                  = map (λ e, article_of_entry src e None) (take 3 entries)).
    { unfold fetch_feed. rewrite (any_dated_false entries Hall).
      by rewrite collect_entries_dateless. }
    split; [exact Heq|]. rewrite Heq, length_map, length_take. split; [lia|].
    intros ->. reflexivity.
Qed.

End FetcherFacts.

Lemma fetch_feed_date_policy_witness :
  Forall (λ e, parse_date Sample.date_parser Sample.no_struct_time e = Returned None)
         Sample.dateless_feed
  ∧ map title (fetch_feed Sample.date_parser Sample.no_struct_time id
                 (FeedParsed Sample.dateless_feed) (Sample.source "A") Sample.now)
    = ["p0"; "p1"; "p2"]
  ∧ Exists (λ e, ∃ d, parse_date Sample.date_parser Sample.no_struct_time e
                      = Returned (Some d))
           Sample.mixed_feed
  ∧ map title (fetch_feed Sample.date_parser Sample.no_struct_time id
                 (FeedParsed Sample.mixed_feed) (Sample.source "A")
                 (mk_datetime 2024 2 23 0 0 0 0))
    = ["new"].
Proof.
  assert (Hnone : Forall (λ e, parse_date Sample.date_parser Sample.no_struct_time e
                               = Returned None)
                         Sample.dateless_feed).
  { repeat constructor. }
  assert (Hsome : Exists (λ e, ∃ d, parse_date Sample.date_parser Sample.no_struct_time e
                                    = Returned (Some d))
                         Sample.mixed_feed).
  { apply Exists_cons_hd. vm_compute. eauto. }
  assert (Hret1 : Forall (λ e, parse_date Sample.date_parser Sample.no_struct_time e
                               ≠ Raised) Sample.dateless_feed).
  { eapply Forall_impl; [exact Hnone|]. intros e He. simpl in He. by rewrite He. }
  assert (Hret2 : Forall (λ e, parse_date Sample.date_parser Sample.no_struct_time e
                               ≠ Raised) Sample.mixed_feed).
  { repeat constructor; vm_compute; discriminate. }
  split; [exact Hnone|]. split; [|split; [exact Hsome|]].
  - destruct (fetch_feed_date_policy Sample.date_parser Sample.no_struct_time id
                Sample.dateless_feed (Sample.source "A") Sample.now Hret1)
      as [_ Hdateless].
    destruct (Hdateless Hnone) as [-> _]. reflexivity.
  - destruct (fetch_feed_date_policy Sample.date_parser Sample.no_struct_time id
                Sample.mixed_feed (Sample.source "A") (mk_datetime 2024 2 23 0 0 0 0)
                Hret2)
      as [Hdated _].
    destruct (Hdated Hsome) as [-> _]. vm_compute. reflexivity.
Defined.

(** C3, at a feed the code can receive: ten entries, none with a resolvable
    date, the sixth with a [published] text on which the date parser raises
    an [OverflowError]. The text loop of [parse_date] catches [ValueError]
    and [TypeError] only (the loop over the parsed tuples catches
    [OverflowError] too), so the exception leaves [parse_date] inside
    [any(...)], the handler of [fetch_feed] catches it, and the feed yields
    no item, where the claim says three. Without that text the same feed
    yields its first three entries. *)
Theorem fetch_feed_overflow_date_drops_feed :
  length Sample.overflow_feed = 10%nat
  ∧ Forall (λ e, ∀ d, parse_date Sample.date_parser Sample.no_struct_time e
                      ≠ Returned (Some d)) Sample.overflow_feed
  ∧ (Sample.overflow_feed !! 5%nat
     ≫= λ e, Some (parse_date Sample.date_parser Sample.no_struct_time e)) = Some Raised
  ∧ fetch_feed Sample.date_parser Sample.no_struct_time id
               (FeedParsed Sample.overflow_feed) (Sample.source "A") Sample.now = []
  ∧ map title (fetch_feed Sample.date_parser Sample.no_struct_time id
                 (FeedParsed Sample.dateless_feed) (Sample.source "A") Sample.now)
    = ["p0"; "p1"; "p2"].
Proof.
  split; [reflexivity|]. split; [|split; [|split]].
  - repeat constructor; intros d; vm_compute; discriminate.
  - vm_compute. reflexivity.
  - vm_compute. reflexivity.
  - vm_compute. reflexivity.
Qed.

(** ** Stable sorting by a key, largest first *)

Section SortFacts.
Context {A : Type} (key : A → Z).

Local Abbreviation before := (λ a b : A, key b <? key a).
Local Abbreviation sort_desc := (stable_sort before).

Lemma insert_sorted_perm (lt : A → A → bool) (a : A) (l : list A) :
  insert_sorted lt a l ≡ₚ a :: l.
Proof.
  induction l as [|b l IH]; simpl; [done|].
  destruct (lt b a); [|done]. rewrite IH. apply Permutation_swap.
Qed.

Lemma stable_sort_perm (lt : A → A → bool) (l : list A) : stable_sort lt l ≡ₚ l.
Proof.
  induction l as [|a l IH]; simpl; [done|].
  rewrite insert_sorted_perm. by rewrite IH.
Qed.

Lemma stable_sort_length (lt : A → A → bool) (l : list A) :
  length (stable_sort lt l) = length l.
Proof. apply Permutation_length, stable_sort_perm. Qed.

Lemma insert_sorted_desc (a : A) (l : list A) :
  StronglySorted (λ x y, key y ≤ key x) l →
  StronglySorted (λ x y, key y ≤ key x) (insert_sorted before a l).
Proof.
  induction 1 as [|b l Hl IH Hb]; simpl.
  - repeat constructor.
  - destruct (Z.ltb_spec (key a) (key b)) as [Hlt|Hge].
    + constructor; [exact IH|].
      rewrite insert_sorted_perm. constructor; [lia|exact Hb].
    + constructor; [by constructor|].
      constructor; [lia|]. eapply Forall_impl; [exact Hb|]. simpl. intros; lia.
Qed.

Lemma sort_desc_sorted (l : list A) : StronglySorted (λ x y, key y ≤ key x) (sort_desc l).
Proof.
  induction l as [|a l IH]; simpl; [constructor|]. by apply insert_sorted_desc.
Qed.

(** Elements of equal key keep their order: the sort is stable. *)
Lemma insert_sorted_stable (k : Z) (a : A) (l : list A) :
  filter (λ x, key x = k) (insert_sorted before a l) = filter (λ x, key x = k) (a :: l).
Proof.
  induction l as [|b l IH]; simpl; [done|].
  destruct (Z.ltb_spec (key a) (key b)) as [Hlt|Hge]; [|done].
  rewrite (filter_cons _ b), IH, !(filter_cons _ a), (filter_cons _ b).
  repeat case_decide; (done || lia).
Qed.

Lemma sort_desc_stable (k : Z) (l : list A) :
  filter (λ x, key x = k) (sort_desc l) = filter (λ x, key x = k) l.
Proof.
  induction l as [|a l IH]; simpl; [done|].
  rewrite insert_sorted_stable, !filter_cons, IH. done.
Qed.

End SortFacts.

(** ** Source fetcher: the aggregate *)

Section AggregateFacts.
Variable date_parser_parse : string → conversion.
Variable from_struct_time : struct_time → conversion.
Variable clean_html : string → string.

Local Abbreviation fetch_feed := (fetch_feed date_parser_parse from_struct_time clean_html).
Local Abbreviation fetch_all_feeds :=
  (fetch_all_feeds date_parser_parse from_struct_time clean_html).

(** An item without timestamp is followed only by items whose key is not
    above [datetime.min]. *)
Lemma undated_items_last
    (http : FeedSource → feed_response) (feeds : list FeedSource) (since : datetime)
    (front back : list Article) (a : Article) :
  fetch_all_feeds http feeds since = (front ++ a :: back)%list →
  published a = None →
  Forall (λ b, sort_key b ≤ datetime_min_utc) back.
Proof.
  intros Heq Ha.
  pose proof (sort_desc_sorted sort_key
                (concat (map (λ feed, fetch_feed (http feed) feed since) feeds))) as Hs.
  fold (fetch_all_feeds http feeds since) in Hs. rewrite Heq in Hs.
  apply StronglySorted_app_1_r in Hs. inversion Hs as [|? ? _ Hall]; subst.
  eapply Forall_impl; [exact Hall|]. simpl. intros b Hb.
  unfold sort_key in Hb at 2. by rewrite Ha in Hb.
Qed.

(** Every item of the aggregate that has a date is at least [since]. *)
Lemma fetch_all_feeds_published
    (http : FeedSource → feed_response) (feeds : list FeedSource) (since : datetime) :
  Forall (λ a, ∀ d, published a = Some d → since ≤ d) (fetch_all_feeds http feeds since).
Proof.
  unfold fetch_all_feeds. rewrite stable_sort_perm.
  apply Forall_concat, Forall_fmap, Forall_forall. intros feed _.
  apply fetch_feed_published.
Qed.

(** C4. The aggregate of [fetch_all_feeds] is the concatenation of the
    sources' item lists, sorted by publish timestamp, latest first, where an
    item without timestamp counts as [datetime.min]: it is a permutation of
    the concatenation, every item is followed only by items of an equal or
    smaller key, items of equal key keep their order, an undated item is
    followed only by undated items (every dated item is at least [since],
    which is later than [datetime.min]), and items dated 3 January 2024,
    undated and 5 January 2024 come out as 5 January, 3 January, undated. *)
Theorem fetch_all_feeds_sorted_latest_first
    (http : FeedSource → feed_response) (feeds : list FeedSource) (since : datetime) :
  fetch_all_feeds http feeds since
    ≡ₚ concat (map (λ feed, fetch_feed (http feed) feed since) feeds)
  ∧ StronglySorted (λ a b, sort_key b ≤ sort_key a) (fetch_all_feeds http feeds since)
  ∧ (∀ k, filter (λ a, sort_key a = k) (fetch_all_feeds http feeds since)
          = filter (λ a, sort_key a = k)
                   (concat (map (λ feed, fetch_feed (http feed) feed since) feeds)))
  ∧ (∀ a, sort_key a = match published a with
                       | Some t => t
                       | None => datetime_min_utc
                       end)
  ∧ (datetime_min_utc < since →
     ∀ front a back,
       fetch_all_feeds http feeds since = front ++ a :: back →
       published a = None →
       Forall (λ b, published b = None) back)
  ∧ (∀ a b c : Article,
       published a = Some (mk_datetime 2024 1 3 0 0 0 0) →
       published b = None →
       published c = Some (mk_datetime 2024 1 5 0 0 0 0) →
       stable_sort (λ x y, sort_key y <? sort_key x) [a; b; c] = [c; a; b]).
Proof.
  split; [apply stable_sort_perm|]. split; [apply sort_desc_sorted|].
  split; [intros k; apply sort_desc_stable|]. split; [reflexivity|]. split.
  { intros Hsince front a back Heq Ha.
    pose proof (undated_items_last http feeds since front back a Heq Ha) as Hkeys.
    pose proof (fetch_all_feeds_published http feeds since) as Hpub.
    rewrite Heq in Hpub. apply Forall_app in Hpub as [_ Hpub].
    apply Forall_cons in Hpub as [_ Hpub].
    rewrite Forall_forall in *. intros b Hb.
    specialize (Hkeys b Hb). specialize (Hpub b Hb). unfold sort_key in Hkeys.
    destruct (published b) as [d|]; [|done].
    specialize (Hpub d eq_refl). lia. }
  intros a b c Ha Hb Hc.
  assert (Ka : sort_key a = mk_datetime 2024 1 3 0 0 0 0) by (unfold sort_key; by rewrite Ha).
  assert (Kb : sort_key b = datetime_min_utc) by (unfold sort_key; by rewrite Hb).
  assert (Kc : sort_key c = mk_datetime 2024 1 5 0 0 0 0) by (unfold sort_key; by rewrite Hc).
  assert (Hbc : (sort_key b <? sort_key c) = true) by (by rewrite Kb, Kc).
  assert (Hac : (sort_key a <? sort_key c) = true) by (by rewrite Ka, Kc).
  assert (Hab : (sort_key a <? sort_key b) = false) by (by rewrite Ka, Kb).
  unfold stable_sort. cbn [foldr insert_sorted]. rewrite Hbc.
  cbn [insert_sorted]. rewrite Hac, Hab. reflexivity.
Qed.

End AggregateFacts.

(** Three sources yielding an item of 3 January, an undated item and an item
    of 5 January: the aggregate lists 5 January, 3 January, undated. *)
Example fetch_all_feeds_example :
  map title
    (fetch_all_feeds Sample.date_parser Sample.no_struct_time id Sample.http
       [Sample.source "A"; Sample.source "B"; Sample.source "C"]
       (mk_datetime 2024 1 1 0 0 0 0))
  = ["fifth"; "third"; "undated"].
Proof. vm_compute. reflexivity. Qed.

(** ** Batch transformer: one article, one reply *)

Lemma json_eq_str_true (v : json) (s : string) : json_eq_str v s = true ↔ v = JStr s.
Proof.
  destruct v; simpl; try (split; [discriminate|congruence]).
  rewrite String.eqb_eq. split; congruence.
Qed.

Section TransformerFacts.
Variable json_loads : string → option json.

Local Abbreviation classify_reply := (classify_reply json_loads).
Local Abbreviation summarize_with_llm := (summarize_with_llm json_loads).
Local Abbreviation classify_batch := (classify_batch json_loads).
Local Abbreviation classify_all := (classify_all json_loads).
Local Abbreviation ai_summarize_articles := (ai_summarize_articles json_loads).

(** The articles for which a call is made. *)
Local Abbreviation has_content := (λ a : Article, str_truthy (content_of a) = true).

(** The request [summarize_with_llm] sends for an article. *)
Local Abbreviation request_of a :=
  (SummarizeRequest (title a) (source a) (py_take MAX_CONTENT_LEN (content_of a))).

(** Every result in the category "other" is marked irrelevant. *)
Lemma classify_reply_other (a : Article) (reply : llm_reply) :
  json_eq_str (result_category (classify_reply a reply)) OTHER = true →
  result_is_relevant (classify_reply a reply) = JBool false.
Proof.
  unfold classify_reply.
  destruct reply as [|text]; [done|].
  destruct (search_braces text) as [m|]; [|done].
  destruct (json_loads m) as [[| | | | | |data]|]; try done.
  simpl. intros ->. reflexivity.
Qed.

Lemma summarize_length (client : llm_client) (calls : nat) (articles : list Article) :
  length (summarize_with_llm client calls articles).1 = length articles.
Proof.
  revert calls. induction articles as [|a rest IH]; intros calls; [reflexivity|].
  simpl. destruct (str_truthy (content_of a)); simpl.
  - specialize (IH (S calls)). destruct (summarize_with_llm client (S calls) rest).
    simpl in *. by rewrite IH.
  - specialize (IH calls). destruct (summarize_with_llm client calls rest).
    simpl in *. by rewrite IH.
Qed.

(** One call is made per article with content. *)
Lemma summarize_calls (client : llm_client) (calls : nat) (articles : list Article) :
  (summarize_with_llm client calls articles).2
  = (calls + length (filter has_content articles))%nat.
Proof.
  revert calls. induction articles as [|a rest IH]; intros calls; [simpl; lia|].
  simpl. destruct (str_truthy (content_of a)) eqn:Hc; simpl.
  - specialize (IH (S calls)). destruct (summarize_with_llm client (S calls) rest).
    simpl in *. rewrite filter_cons_True by done. simpl. lia.
  - specialize (IH calls). destruct (summarize_with_llm client calls rest).
    simpl in *. rewrite filter_cons_False by (rewrite Hc; discriminate). lia.
Qed.

(** The result of the [i]-th article is decided by the article and the reply
    to its own call. *)
Lemma summarize_lookup (client : llm_client) (calls : nat) (articles : list Article)
    (i : nat) (a : Article) :
  articles !! i = Some a →
  (summarize_with_llm client calls articles).1 !! i
  = Some (if str_truthy (content_of a)
          then classify_reply a
                 (client (calls + length (filter has_content (take i articles)))%nat
                         (request_of a))
          else default_result a).
Proof.
  revert calls i. induction articles as [|b rest IH]; intros calls i Hi; [done|].
  simpl. destruct i as [|i]; simpl in Hi.
  - injection Hi as ->. rewrite take_0. simpl. rewrite Nat.add_0_r.
    destruct (str_truthy (content_of a)); simpl.
    + by destruct (summarize_with_llm client (S calls) rest).
    + by destruct (summarize_with_llm client calls rest).
  - rewrite firstn_cons.
    destruct (str_truthy (content_of b)) eqn:Hb; simpl.
    + specialize (IH (S calls) i Hi).
      destruct (summarize_with_llm client (S calls) rest). simpl in *.
      rewrite IH, filter_cons_True by done. simpl.
      by rewrite Nat.add_succ_r.
    + specialize (IH calls i Hi).
      destruct (summarize_with_llm client calls rest). simpl in *.
      by rewrite IH, filter_cons_False by (rewrite Hb; discriminate).
Qed.

(** Two articles with content never share a call. *)
Lemma call_numbers_differ (articles : list Article) (i j : nat) (a : Article) :
  (i < j)%nat → articles !! i = Some a → str_truthy (content_of a) = true →
  (length (filter has_content (take i articles))
   < length (filter has_content (take j articles)))%nat.
Proof.
  intros Hij Hi Ha.
  replace j with (S i + (j - S i))%nat by lia.
  rewrite <- take_take_drop, (take_S_r _ _ _ Hi), !filter_app, !length_app.
  rewrite filter_cons_True by done. simpl. lia.
Qed.

(** Batching is invisible to the results: results of a concatenation. *)
Lemma summarize_app (client : llm_client) (calls : nat) (l1 l2 : list Article) :
  summarize_with_llm client calls (l1 ++ l2)
  = ((summarize_with_llm client calls l1).1
       ++ (summarize_with_llm client (summarize_with_llm client calls l1).2 l2).1,
     (summarize_with_llm client (summarize_with_llm client calls l1).2 l2).2).
Proof.
  revert calls. induction l1 as [|a l1 IH]; intros calls.
  - simpl. by destruct (summarize_with_llm client calls l2).
  - simpl. destruct (str_truthy (content_of a)); simpl.
    + rewrite (IH (S calls)). destruct (summarize_with_llm client (S calls) l1). done.
    + rewrite (IH calls). destruct (summarize_with_llm client calls l1). done.
Qed.

End TransformerFacts.

(** ** Batch transformer: the batches *)

Section BatchFacts.
Variable json_loads : string → option json.

Local Abbreviation summarize_with_llm := (summarize_with_llm json_loads).
Local Abbreviation classify_batch := (classify_batch json_loads).
Local Abbreviation classify_all := (classify_all json_loads).

Lemma store_results_nil (i : nat) (results : list result) : store_results i results [] = [].
Proof. revert i. induction results as [|r rs IH]; intros i; simpl; [done|]. apply IH. Qed.

(** Storing behind a prefix leaves the prefix alone. *)
Lemma store_results_app (done_ rest : list Article) (i : nat) (results : list result) :
  store_results (length done_ + i) results (done_ ++ rest)
  = done_ ++ store_results i results rest.
Proof.
  revert i rest. induction results as [|r rs IH]; intros i rest; simpl; [done|].
  rewrite alter_app_r. rewrite <- Nat.add_succ_r. apply IH.
Qed.

(** Storing from the start pairs the results with the articles in order. *)
Lemma store_results_zip (results : list result) (articles : list Article) :
  store_results 0 results articles
  = zip_with apply_result results articles ++ drop (length results) articles.
Proof.
  revert articles. induction results as [|r rs IH]; intros articles; simpl; [done|].
  destruct articles as [|a rest]; simpl.
  - apply store_results_nil.
  - change (store_results 1 rs (apply_result r a :: rest))
      with (store_results (length [apply_result r a] + 0) rs ([apply_result r a] ++ rest)).
    rewrite store_results_app. simpl. by rewrite IH.
Qed.

Lemma take_length_take {A : Type} (n : nat) (l : list A) :
  take (length (take n l)) l = take n l.
Proof.
  rewrite length_take. destruct (Nat.le_ge_cases n (length l)) as [H|H].
  - by rewrite Nat.min_l.
  - rewrite Nat.min_r by done. by rewrite !take_ge by lia.
Qed.

Lemma drop_length_take {A : Type} (n m : nat) (l : list A) :
  drop (length (take n (drop m l))) (drop m l) = drop (m + n) l.
Proof.
  rewrite drop_drop, length_take, length_drop.
  destruct (Nat.le_ge_cases n (length l - m)) as [H|H].
  - by rewrite Nat.min_l.
  - rewrite Nat.min_r by done. by rewrite !drop_ge by lia.
Qed.

(** After [k] batches the first [k * LLM_BATCH_SIZE] articles carry their
    results and the others are untouched. *)
Lemma classify_batches_prefix (client : llm_client) (articles : list Article) (k : nat) :
  (k * LLM_BATCH_SIZE ≤ length articles + LLM_BATCH_SIZE - 1)%nat →
  fold_left (classify_batch client) (map (λ k, k * LLM_BATCH_SIZE)%nat (seq 0 k))
            (articles, 0%nat)
  = (zip_with apply_result
       (summarize_with_llm client 0 (take (k * LLM_BATCH_SIZE) articles)).1
       (take (k * LLM_BATCH_SIZE) articles)
     ++ drop (k * LLM_BATCH_SIZE) articles,
     (summarize_with_llm client 0 (take (k * LLM_BATCH_SIZE) articles)).2).
Proof.
  induction k as [|k IH]; intros Hk.
  - simpl. by rewrite drop_0.
  - rewrite seq_S, map_app, fold_left_app, IH by (unfold LLM_BATCH_SIZE in *; lia).
    cbn [map fold_left Nat.add]. rewrite Nat.mul_succ_l. unfold classify_batch.
    set (n := (k * LLM_BATCH_SIZE)%nat).
    set (T := take n articles). set (D := drop n articles).
    set (R := summarize_with_llm client 0 T).
    assert (HlenT : length T = n).
    { unfold T. rewrite length_take. unfold n, LLM_BATCH_SIZE in *. lia. }
    assert (HlenZ : length (zip_with apply_result R.1 T) = n).
    { rewrite length_zip_with_r_eq; [done|]. unfold R. by rewrite summarize_length. }
    rewrite (drop_app_length' _ _ n) by done.
    set (B := take LLM_BATCH_SIZE D).
    destruct (summarize_with_llm client R.2 B) as [RB C'] eqn:HB.
    assert (HlenRB : length RB = length B).
    { replace RB with (summarize_with_llm client R.2 B).1 by (by rewrite HB).
      apply summarize_length. }
    replace (take (n + LLM_BATCH_SIZE) articles) with (T ++ B)
      by (unfold T, B, D; by rewrite take_take_drop).
    rewrite summarize_app. fold R. rewrite HB. simpl.
    rewrite zip_with_app by (unfold R; by rewrite summarize_length).
    replace n with (length (zip_with apply_result R.1 T) + 0)%nat at 1 by lia.
    rewrite store_results_app, store_results_zip, <- app_assoc. do 3 f_equal.
    + rewrite <- (zip_with_take_r _ RB D), HlenRB. unfold B. by rewrite take_length_take.
    + rewrite HlenRB. unfold B, D. by rewrite drop_length_take.
Qed.

(** The classification loop pairs every article with the result that one
    pass of [summarize_with_llm] over the whole list gives it. *)
Lemma classify_all_eq (client : llm_client) (articles : list Article) :
  classify_all client articles
  = (zip_with apply_result (summarize_with_llm client 0 articles).1 articles,
     (summarize_with_llm client 0 articles).2).
Proof.
  unfold classify_all, batch_starts.
  set (k := ((length articles + LLM_BATCH_SIZE - 1) / LLM_BATCH_SIZE)%nat).
  assert (Hk : (k * LLM_BATCH_SIZE ≤ length articles + LLM_BATCH_SIZE - 1
                ∧ length articles ≤ k * LLM_BATCH_SIZE)%nat).
  { unfold k, LLM_BATCH_SIZE.
    pose proof (Nat.div_mod_eq (length articles + 5 - 1) 5) as Hd.
    pose proof (Nat.mod_upper_bound (length articles + 5 - 1) 5) as Hm. lia. }
  rewrite classify_batches_prefix by apply Hk.
  rewrite take_ge, drop_ge by apply Hk. by rewrite app_nil_r.
Qed.

Lemma enrich_detail_shape (client : llm_client) (calls : nat) (articles : list Article) :
  Forall2 (λ a a', ∃ detail, a' = set_ai_detail a detail)
          articles (enrich_detail_with_llm client calls articles).1.
Proof.
  revert calls. induction articles as [|a rest IH]; intros calls; simpl; [constructor|].
  destruct (str_truthy (content_of a)); simpl.
  - specialize (IH (S calls)). destruct (enrich_detail_with_llm client (S calls) rest).
    constructor; [eauto|exact IH].
  - specialize (IH calls). destruct (enrich_detail_with_llm client calls rest).
    constructor; [eauto|exact IH].
Qed.

(** [ai_summarize_articles] in one equation: classify, filter, add details. *)
Lemma ai_summarize_articles_eq (client : llm_client) (articles : list Article)
    (enable_filter : bool) :
  ai_summarize_articles json_loads client articles enable_filter
  = (enrich_detail_with_llm client (summarize_with_llm client 0 articles).2
       (if enable_filter
        then filter (λ a, truthy (is_relevant a) = true)
               (zip_with apply_result (summarize_with_llm client 0 articles).1 articles)
        else zip_with apply_result (summarize_with_llm client 0 articles).1 articles)).1.
Proof.
  destruct articles as [|a rest]; [by destruct enable_filter|].
  unfold ai_summarize_articles. rewrite classify_all_eq.
  set (classified := zip_with apply_result _ _).
  by destruct (if enable_filter then _ else _).
Qed.

(** Whatever the replies, a result in the category "other" is irrelevant. *)
Lemma summarize_other_irrelevant (client : llm_client) (calls : nat)
    (articles : list Article) :
  Forall (λ r, json_eq_str (result_category r) OTHER = true →
               result_is_relevant r = JBool false)
         (summarize_with_llm client calls articles).1.
Proof.
  revert calls. induction articles as [|a rest IH]; intros calls; simpl; [constructor|].
  destruct (str_truthy (content_of a)); simpl.
  - specialize (IH (S calls)). destruct (summarize_with_llm client (S calls) rest).
    constructor; [apply classify_reply_other|exact IH].
  - specialize (IH calls). destruct (summarize_with_llm client calls rest).
    constructor; [done|exact IH].
Qed.

End BatchFacts.

(** ** Batch transformer: failures and the relevance filter *)

Lemma filter_none {A : Type} (P : A → Prop) `{!∀ x, Decision (P x)} (l : list A) :
  Forall (λ x, ¬ P x) l → filter P l = [].
Proof.
  induction 1 as [|x l Hx _ IH]; [done|]. by rewrite filter_cons_False.
Qed.

Section TransformerClaims.
Variable json_loads : string → option json.

Local Abbreviation classify_reply := (classify_reply json_loads).
Local Abbreviation summarize_with_llm := (summarize_with_llm json_loads).
Local Abbreviation ai_summarize_articles := (ai_summarize_articles json_loads).
Local Abbreviation has_content := (λ a : Article, str_truthy (content_of a) = true).
Local Abbreviation request_of a :=
  (SummarizeRequest (title a) (source a) (py_take MAX_CONTENT_LEN (content_of a))).

(** C2, as the code has it. There is one result per item. The result of an
    item with content is decided by the reply to its own call: when the call
    raises, or the text between the braces does not decode to an object, the
    result is the category "other", irrelevant, the original title and the
    item's feed summary (not an empty one); when the reply holds no braces at
    all, it is the category "other", irrelevant, the original title and an
    empty summary. An item without content gets that last result without a
    call. The results of the other items of the batch do not depend on the
    reply to this item's call. The batch and the pipeline do not fail:
    whatever the client does, the transformer returns, with an item for
    every article when the relevance filter is disabled; and with a client
    that raises on every call and the filter enabled it returns the empty
    list. *)
Theorem summarize_failure_defaults
    (client : llm_client) (calls : nat) (articles : list Article) (i : nat) (a : Article) :
  articles !! i = Some a →
  let n := (calls + length (filter has_content (take i articles)))%nat in
  let results := (summarize_with_llm client calls articles).1 in
  length results = length articles
  ∧ (str_truthy (content_of a) = true →
     results !! i = Some (classify_reply a (client n (request_of a))))
  ∧ (str_truthy (content_of a) = false →
     results !! i
     = Some {| result_title := JStr (title a); result_summary := JStr "";
               result_category := JStr "其他"; result_is_relevant := JBool false |})
  ∧ classify_reply a LLMRaises
    = {| result_title := JStr (title a); result_summary := JStr (summary a);
         result_category := JStr "其他"; result_is_relevant := JBool false |}
  ∧ (∀ text m, search_braces text = Some m →
       json_loads m = None ∨ (∃ v, json_loads m = Some v ∧ ∀ data, v ≠ JObj data) →
       classify_reply a (LLMContent text)
       = {| result_title := JStr (title a); result_summary := JStr (summary a);
            result_category := JStr "其他"; result_is_relevant := JBool false |})
  ∧ (∀ text, search_braces text = None →
       classify_reply a (LLMContent text)
       = {| result_title := JStr (title a); result_summary := JStr "";
            result_category := JStr "其他"; result_is_relevant := JBool false |})
  ∧ (str_truthy (content_of a) = true →
     ∀ client' : llm_client,
       (∀ k req, k ≠ n → client' k req = client k req) →
       ∀ j, j ≠ i →
            (summarize_with_llm client' calls articles).1 !! j = results !! j)
  ∧ length (ai_summarize_articles client articles false) = length articles
  ∧ ((∀ k req, client k req = LLMRaises) →
     ai_summarize_articles client articles true = []).
Proof.
  intros Hi n results.
  assert (Hlen : length (zip_with apply_result (summarize_with_llm client 0 articles).1
                                  articles) = length articles).
  { rewrite length_zip_with_r_eq; [done|]. by rewrite summarize_length. }
  split; [apply summarize_length|].
  split; [|split; [|split; [|split; [|split; [|split; [|split]]]]]].
  - intros Ha. unfold results. rewrite (summarize_lookup _ _ _ _ _ _ Hi), Ha. reflexivity.
  - intros Ha. unfold results. rewrite (summarize_lookup _ _ _ _ _ _ Hi), Ha. reflexivity.
  - reflexivity.
  - intros text m Hm [Hj|(v & Hj & Hv)]; unfold classify_reply; rewrite Hm, Hj; [done|].
    destruct v; try done. by destruct (Hv m0).
  - intros text Hm. unfold classify_reply. by rewrite Hm.
  - intros Ha client' Hagree j Hji. unfold results.
    destruct (articles !! j) as [b|] eqn:Hj.
    + rewrite !(summarize_lookup _ _ _ _ _ _ Hj).
      destruct (str_truthy (content_of b)) eqn:Hb; [|done].
      rewrite Hagree; [done|]. unfold n.
      destruct (Nat.lt_total i j) as [Hlt|[Heq|Hgt]]; [|done|].
      * pose proof (call_numbers_differ articles i j a Hlt Hi Ha). lia.
      * pose proof (call_numbers_differ articles j i b Hgt Hj Hb). lia.
    + apply lookup_ge_None in Hj.
      rewrite !(proj2 (lookup_ge_None _ _)); [done| |]; by rewrite summarize_length.
  - rewrite ai_summarize_articles_eq, <- Hlen. symmetry.
    exact (Forall2_length _ _ _ (enrich_detail_shape client _ _)).
  - intros Hraise. rewrite ai_summarize_articles_eq.
    replace (filter _ _) with (@nil Article); [done|]. symmetry.
    apply filter_none, Forall_forall. intros x Hx.
    apply list_elem_of_lookup in Hx as [j Hj].
    apply lookup_zip_with_Some in Hj as (r & b & -> & Hr & Hb).
    rewrite (summarize_lookup _ _ _ _ _ _ Hb) in Hr. injection Hr as <-.
    rewrite Hraise. by destruct (str_truthy (content_of b)).
Qed.

(** C6. When the decoded reply names the category "other" (or names none),
    the item is marked irrelevant whatever the reply says about relevance,
    and keeps its original title and an empty summary; with the relevance
    filter enabled no item of the transformer's output is in the category
    "other", and every item of the output is relevant. *)
Theorem other_category_forced_irrelevant
    (client : llm_client) (articles : list Article) :
  (∀ a text m data,
     search_braces text = Some m → json_loads m = Some (JObj data) →
     dict_get data "category" (JStr "其他") = JStr "其他" →
     classify_reply a (LLMContent text)
     = {| result_title := JStr (title a); result_summary := JStr "";
          result_category := JStr "其他"; result_is_relevant := JBool false |})
  ∧ (∀ a, a ∈ ai_summarize_articles client articles true →
          category a ≠ JStr "其他" ∧ truthy (is_relevant a) = true).
Proof.
  split.
  - intros a text m data Hm Hj Hc. unfold classify_reply, OTHER.
    rewrite Hm, Hj, Hc. reflexivity.
  - intros a Ha. rewrite ai_summarize_articles_eq in Ha.
    pose proof (enrich_detail_shape client (summarize_with_llm client 0 articles).2
                  (filter (λ a, truthy (is_relevant a) = true)
                     (zip_with apply_result (summarize_with_llm client 0 articles).1
                        articles))) as Hshape.
    apply list_elem_of_lookup in Ha as [i Hi].
    destruct (Forall2_lookup_r _ _ _ _ _ Hshape Hi) as (a0 & Ha0 & detail & ->).
    apply list_elem_of_lookup_2, list_elem_of_filter in Ha0 as [Hrel Ha0].
    apply list_elem_of_lookup in Ha0 as [j Hj].
    apply lookup_zip_with_Some in Hj as (r & x & -> & Hr & Hx).
    pose proof (summarize_other_irrelevant json_loads client 0 articles) as Hall.
    rewrite Forall_lookup in Hall. specialize (Hall j r Hr).
    simpl in *. split; [|exact Hrel].
    intros Hcat. rewrite Hall in Hrel; [discriminate|].
    by apply json_eq_str_true.
Qed.

(** C7. With the relevance filter disabled the transformer returns every
    item, at its position, with the result of its classification, whatever
    its category and relevance flag are. *)
Theorem no_filter_retains_all (client : llm_client) (articles : list Article) :
  length (ai_summarize_articles client articles false) = length articles
  ∧ (∀ i a, articles !! i = Some a →
       ∃ r detail,
         (summarize_with_llm client 0 articles).1 !! i = Some r
         ∧ ai_summarize_articles client articles false !! i
           = Some (set_ai_detail (apply_result r a) detail))
  ∧ map link (ai_summarize_articles client articles false) = map link articles.
Proof.
  rewrite ai_summarize_articles_eq.
  pose proof (enrich_detail_shape client (summarize_with_llm client 0 articles).2
                (zip_with apply_result (summarize_with_llm client 0 articles).1 articles))
    as Hshape.
  assert (Hlen : length (zip_with apply_result (summarize_with_llm client 0 articles).1
                                  articles) = length articles).
  { rewrite length_zip_with_r_eq; [done|]. by rewrite summarize_length. }
  assert (Hlookup : ∀ i a, articles !! i = Some a →
            ∃ r detail,
              (summarize_with_llm client 0 articles).1 !! i = Some r
              ∧ (enrich_detail_with_llm client (summarize_with_llm client 0 articles).2
                   (zip_with apply_result (summarize_with_llm client 0 articles).1
                      articles)).1 !! i
                = Some (set_ai_detail (apply_result r a) detail)).
  { intros i a Hi.
    destruct (lookup_lt_is_Some_2 (summarize_with_llm client 0 articles).1 i) as [r Hr].
    { rewrite summarize_length. by apply lookup_lt_Some in Hi. }
    assert (Hz : zip_with apply_result (summarize_with_llm client 0 articles).1 articles !! i
                 = Some (apply_result r a)).
    { apply lookup_zip_with_Some. eauto. }
    destruct (Forall2_lookup_l _ _ _ _ _ Hshape Hz) as (a' & Ha' & detail & ->).
    eauto. }
  split; [|split; [exact Hlookup|]].
  - rewrite <- (Forall2_length _ _ _ Hshape). exact Hlen.
  - apply list_eq. intros i. rewrite !list_lookup_fmap.
    destruct (articles !! i) as [a|] eqn:Hi.
    + destruct (Hlookup i a Hi) as (r & detail & _ & ->). reflexivity.
    + apply lookup_ge_None in Hi. rewrite (proj2 (lookup_ge_None _ _)); [done|].
      rewrite <- (Forall2_length _ _ _ Hshape), Hlen. exact Hi.
Qed.

End TransformerClaims.

(** Filter on, the article classified "other" is left out although the
    reply called it relevant; filter off, it is retained. *)
Example relevance_filter_example :
  map title (ai_summarize_articles Sample.json_loads Sample.other_first
               [Sample.post; Sample.second_post] true) = ["B post"]
  ∧ map (λ a, (title a, category a, is_relevant a))
        (ai_summarize_articles Sample.json_loads Sample.other_first
           [Sample.post; Sample.second_post] false)
    = [("A post", JStr "其他", JBool false); ("B post", JStr "AI", JBool true)].
Proof. vm_compute. done. Qed.

Lemma summarize_failure_defaults_witness :
  [Sample.post; Scenario.silent; Sample.second_post] !! 0%nat = Some Sample.post
  ∧ (summarize_with_llm Sample.json_loads Sample.failing_first 0
       [Sample.post; Scenario.silent; Sample.second_post]).1 !! 0%nat
    = Some {| result_title := JStr "A post"; result_summary := JStr "feed summary";
              result_category := JStr "其他"; result_is_relevant := JBool false |}
  ∧ (summarize_with_llm Sample.json_loads Sample.failing_first 0
       [Sample.post; Scenario.silent; Sample.second_post]).1 !! 1%nat
    = Some {| result_title := JStr "Silent"; result_summary := JStr "";
              result_category := JStr "其他"; result_is_relevant := JBool false |}
  ∧ length (summarize_with_llm Sample.json_loads Sample.failing_first 0
              [Sample.post; Scenario.silent; Sample.second_post]).1 = 3%nat.
Proof.
  split; [reflexivity|].
  destruct (summarize_failure_defaults Sample.json_loads Sample.failing_first 0
              [Sample.post; Scenario.silent; Sample.second_post] 0 Sample.post eq_refl)
    as (Hlen & Hcontent & _).
  destruct (summarize_failure_defaults Sample.json_loads Sample.failing_first 0
              [Sample.post; Scenario.silent; Sample.second_post] 1 Scenario.silent eq_refl)
    as (_ & _ & Hsilent & _).
  split; [exact (Hcontent eq_refl)|]. split; [exact (Hsilent eq_refl)|exact Hlen].
Defined.

(** C2, counterexample to the empty summary: the call for the first item
    raises, and its result carries the feed summary, not an empty summary.
    The second item is classified as usual. *)
Lemma summarize_failure_keeps_feed_summary :
  (summarize_with_llm Sample.json_loads Sample.failing_first 0
     [Sample.post; Sample.second_post]).1
  = [ {| result_title := JStr "A post"; result_summary := JStr "feed summary";
         result_category := JStr "其他"; result_is_relevant := JBool false |};
      {| result_title := JStr "标题"; result_summary := JStr "摘要";
         result_category := JStr "AI"; result_is_relevant := JBool true |} ]
  ∧ JStr "feed summary" ≠ JStr "".
Proof. split; [vm_compute; reflexivity|discriminate]. Qed.

(** ** Marking as sent *)

Lemma mark_as_sent_from_dom (k : nat) (clock : nat → datetime) (articles : list Article)
    (db : gmap string json) :
  dom (mark_as_sent_from k clock articles db)
  = dom db ∪ list_to_set (_article_id <$> articles).
Proof.
  revert k db. induction articles as [|a rest IH]; intros k db; simpl.
  - set_solver.
  - rewrite IH, dom_insert_L. set_solver.
Qed.

(** Records of other identities are left as they were. *)
Lemma mark_as_sent_from_other (k : nat) (clock : nat → datetime) (articles : list Article)
    (db : gmap string json) (id : string) :
  id ∉ (_article_id <$> articles) →
  mark_as_sent_from k clock articles db !! id = db !! id.
Proof.
  revert k db. induction articles as [|a rest IH]; intros k db Hid; simpl; [done|].
  rewrite fmap_cons, not_elem_of_cons in Hid. destruct Hid as [Hne Hid].
  rewrite IH by done. by rewrite lookup_insert_ne.
Qed.

(** Every marked item has a record, so the next pass filters it out. *)
Lemma mark_as_sent_recorded (clock : nat → datetime) (articles : list Article)
    (db : gmap string json) (a : Article) :
  a ∈ articles → is_Some (mark_as_sent clock articles db !! _article_id a).
Proof.
  intros Ha. apply elem_of_dom. unfold mark_as_sent. rewrite mark_as_sent_from_dom.
  apply elem_of_union_r, elem_of_list_to_set, list_elem_of_fmap. eauto.
Qed.

Lemma marked_items_are_not_new (clock : nat → datetime) (articles : list Article)
    (db : gmap string json) :
  filter_new_articles articles (mark_as_sent clock articles db) = [].
Proof.
  unfold filter_new_articles.
  assert (Hall : Forall (λ a, is_Some (mark_as_sent clock articles db !! _article_id a))
                        articles).
  { apply Forall_forall. intros a Ha. by apply mark_as_sent_recorded. }
  generalize dependent (mark_as_sent clock articles db). intros db' Hall.
  induction Hall as [|a rest [v Hv] _ IH]; [done|].
  rewrite filter_cons_False; [exact IH|]. congruence.
Qed.

(** ** Outbound notification *)




(** ** Pipeline orchestrator *)




(** When the pass goes through: the items survive the transformer, the page
    is rendered, the message can be built and the file can be written. What
    the webhook answers plays no part. *)
Lemma fetch_and_process_completes (w : pass_world) (days : Z) (since : option datetime)
    (webhook_url : option string) (db : gmap string json) (enable_filter : bool)
    (file : sent_db_file) (articles : list Article) :
  pass_items w days since (Some db) enable_filter = Returned articles →
  articles ≠ [] →
  w_render w articles = true →
  (webhook_set webhook_url = true →
   ∃ top, _select_top_articles articles 5 = Some top
          ∧ forallb summary_renders top = true) →
  w_save w = SaveWritten →
  pass_outcome (fetch_and_process w days since webhook_url (Some db) enable_filter file)
  = Returned articles.
Proof.
  intros Hitems Hne Hrender Hmsg Hsave. unfold fetch_and_process. rewrite Hitems.
  destruct articles as [|a rest]; [done|]. rewrite Hrender. cbn [negb].
  destruct (webhook_set webhook_url).
  - destruct (Hmsg eq_refl) as (top & Htop & Hok).
    unfold send_to_wecom. rewrite Htop, Hok. by rewrite Hsave.
  - by rewrite Hsave.
Qed.



(** The webhook cannot be reached in [Sample.world]; the ten items are
    stored as sent all the same, and five of them were in the message. *)
Example pass_example :
  length Sample.pass_output = 10%nat
  ∧ size (load_sent_db Sample.now (pass_file Sample.pass)) = 10%nat
  ∧ (msg_articles <$> pass_message Sample.pass) = Some (take 5 Sample.pass_output).
Proof. vm_compute. done. Qed.

(** ** Poll loop *)

Section PollLoopFacts.
Variable env : nat → round_env.
Variable webhook_url : string.
Variable interval : Z.
Variable days : Z.
Variable enable_filter : bool.

Local Abbreviation round_body := (round_body env webhook_url days enable_filter).
Local Abbreviation watch_step := (watch_step env webhook_url interval days enable_filter).
Local Abbreviation watch_steps := (watch_steps env webhook_url interval days enable_filter).
Local Abbreviation run_watch := (run_watch env webhook_url interval days enable_filter).

(** Whatever the round does, the loop goes from its head to the sleep. *)
Lemma watch_step_head (n : nat) (file : sent_db_file) :
  watch_step (LoopHead n file)
  = (Sleeping (S n) (interval * 60) (round_body (S n) file).2,
     [LogRound (S n); (round_body (S n) file).1; LogWaiting interval]).
Proof. unfold watch_step. by destruct (round_body (S n) file). Qed.

Lemma watch_step_sleeping (n : nat) (seconds : Z) (file : sent_db_file) :
  r_sleep_cancelled (env n) = false →
  watch_step (Sleeping n seconds file) = (LoopHead n file, []).
Proof. intros H. unfold watch_step. by rewrite H. Qed.

Lemma watch_step_cancelled (n : nat) (seconds : Z) (file : sent_db_file) :
  r_sleep_cancelled (env n) = true →
  watch_step (Sleeping n seconds file) = (Stopped n file, []).
Proof. intros H. unfold watch_step. by rewrite H. Qed.

(** A pass that raises is logged as the error of its round. *)
Lemma round_body_raised (n : nat) (file : sent_db_file) (since : datetime) :
  sub_days (r_now (env n)) days = Some since →
  pass_outcome
    (fetch_and_process (r_world (env n)) days (Some since) (Some webhook_url)
       (Some (load_sent_db (r_load_now (env n)) file)) enable_filter file) = Raised →
  (round_body n file).1 = LogRoundError.
Proof. intros Hs Hr. unfold round_body. by rewrite Hs, Hr. Qed.

Lemma watch_steps_0 (s : watch_state) : watch_steps 0 s = (s, []).
Proof. reflexivity. Qed.

Lemma watch_steps_S (k : nat) (s : watch_state) :
  watch_steps (S k) s
  = ((watch_steps k (watch_step s).1).1,
     (watch_step s).2 ++ (watch_steps k (watch_step s).1).2).
Proof.
  change (watch_steps (S k) s)
    with (let '(s', log) := watch_step s in
          let '(s'', log') := watch_steps k s' in (s'', log ++ log')).
  destruct (watch_step s) as [s' log]. cbn [fst snd].
  by destruct (watch_steps k s').
Qed.

Lemma watch_steps_add (a b : nat) (s : watch_state) :
  watch_steps (a + b) s
  = ((watch_steps b (watch_steps a s).1).1,
     (watch_steps a s).2 ++ (watch_steps b (watch_steps a s).1).2).
Proof.
  revert s. induction a as [|a IH]; intros s.
  - change (0 + b)%nat with b. rewrite watch_steps_0. cbn [fst snd app].
    by destruct (watch_steps b s).
  - change (S a + b)%nat with (S (a + b)). rewrite !watch_steps_S, IH.
    cbn [fst snd]. by rewrite app_assoc.
Qed.

(** A stopped loop stays stopped: only the interruption of a sleep stops it. *)
Lemma watch_step_stopped (n : nat) (file : sent_db_file) :
  watch_step (Stopped n file) = (Stopped n file, []).
Proof. reflexivity. Qed.

(** As long as no sleep is interrupted, round after round is reached. *)
Lemma rounds_reached (k : nat) (file : sent_db_file) :
  (∀ j, (1 ≤ j ≤ k)%nat → r_sleep_cancelled (env j) = false) →
  ∃ file' lines,
    run_watch (2 * k) file
    = (LoopHead k file', flat_map (λ j, [LogRound j; lines j; LogWaiting interval]) (seq 1 k)).
Proof.
  induction k as [|k IH]; intros Hsleep.
  - exists file, (λ _, LogIdle). reflexivity.
  - destruct IH as (file' & lines & IH); [intros j Hj; apply Hsleep; lia|].
    exists (round_body (S k) file').2,
           (λ j, if decide (j = S k) then (round_body (S k) file').1 else lines j).
    unfold run_watch in *. replace (2 * S k)%nat with (2 * k + 2)%nat by lia.
    rewrite watch_steps_add, IH. cbn [fst snd].
    rewrite !watch_steps_S, watch_steps_0, watch_step_head. cbn [fst snd].
    rewrite watch_step_sleeping by (apply Hsleep; lia). cbn [fst snd].
    rewrite seq_S, flat_map_app. cbn [flat_map Nat.add]. rewrite !app_nil_r.
    rewrite decide_True by done. f_equal. f_equal.
    rewrite !flat_map_concat_map. f_equal. apply map_ext_in.
    intros j Hj. apply in_seq in Hj. by rewrite decide_False by lia.
Qed.

(** C9. In every round the loop goes from its head to the sleep, whatever
    the pass does: a pass that raises (or a lookback that cannot be computed)
    is logged as the error of the round and the loop sleeps for [interval]
    minutes; after a sleep
    that is not interrupted the next round begins; so every round is reached
    as long as no sleep is interrupted, and no round ends the loop. *)
Theorem watch_round_failure_isolated :
  (∀ n file, ∃ line file',
     watch_step (LoopHead n file)
     = (Sleeping (S n) (interval * 60) file',
        [LogRound (S n); line; LogWaiting interval]))
  ∧ (∀ n file since,
       sub_days (r_now (env (S n))) days = Some since →
       pass_outcome
         (fetch_and_process (r_world (env (S n))) days (Some since) (Some webhook_url)
            (Some (load_sent_db (r_load_now (env (S n))) file)) enable_filter file)
       = Raised →
       ∃ file',
         watch_step (LoopHead n file)
         = (Sleeping (S n) (interval * 60) file',
            [LogRound (S n); LogRoundError; LogWaiting interval]))
  ∧ (∀ n file,
       sub_days (r_now (env (S n))) days = None →
       watch_step (LoopHead n file)
       = (Sleeping (S n) (interval * 60) file,
          [LogRound (S n); LogRoundError; LogWaiting interval]))
  ∧ (∀ n seconds file,
       r_sleep_cancelled (env n) = false →
       watch_step (Sleeping n seconds file) = (LoopHead n file, []))
  ∧ (∀ k file,
       (∀ j, (1 ≤ j ≤ k)%nat → r_sleep_cancelled (env j) = false) →
       ∃ file' lines,
         run_watch (2 * k) file
         = (LoopHead k file',
            flat_map (λ j, [LogRound j; lines j; LogWaiting interval]) (seq 1 k)))
  ∧ (∀ s m file, (watch_step s).1 = Stopped m file →
       s = Stopped m file
       ∨ ∃ seconds, s = Sleeping m seconds file ∧ r_sleep_cancelled (env m) = true).
Proof.
  split; [|split; [|split; [|split; [|split]]]].
  - intros n file. rewrite watch_step_head. eauto.
  - intros n file since Hs Hr. rewrite watch_step_head.
    rewrite (round_body_raised _ _ _ Hs Hr). eauto.
  - intros n file Hs. rewrite watch_step_head. unfold round_body. by rewrite Hs.
  - apply watch_step_sleeping.
  - apply rounds_reached.
  - intros s m file Hstop. destruct s as [n f|n secs f|n f].
    + rewrite watch_step_head in Hstop. discriminate.
    + unfold watch_step in Hstop. destruct (r_sleep_cancelled (env n)) eqn:Hc.
      * injection Hstop as -> ->. right. by exists secs.
      * discriminate.
    + rewrite watch_step_stopped in Hstop. left. exact Hstop.
Qed.

End PollLoopFacts.

(** The first round cannot read the list of sources and the second pushes
    ten items: the error of round 1 is logged, the loop sleeps, round 2 runs,
    and round 3 finds nothing new. *)
Example run_watch_example :
  (run_watch Sample.rounds Sample.webhook 30 60 true 6 NoFile).2
  = [LogRound 1; LogRoundError; LogWaiting 30;
     LogRound 2; LogPushed 10; LogWaiting 30;
     LogRound 3; LogIdle; LogWaiting 30].
Proof. vm_compute. reflexivity. Qed.

(** * Further properties *)

(** ** Slices of strings *)

Lemma substring_rest (m : nat) (s : string) :
  (String.length s ≤ m)%nat → String.substring 0 m s = s.
Proof.
  revert m. induction s as [|c s IH]; intros [|m] H; simpl in *; try done; try lia.
  f_equal. apply IH. lia.
Qed.

Lemma string_app_cons (c : ascii) (a b : string) : String c a +:+ b = String c (a +:+ b).
Proof. reflexivity. Qed.

Lemma string_app_empty_l (b : string) : "" +:+ b = b.
Proof. reflexivity. Qed.

(** A string is its leading continuation bytes followed by the rest. *)
Lemma take_continuation_split (m : nat) (s : string) :
  (String.length s ≤ m)%nat →
  s = take_continuation s +:+ String.substring (String.length (take_continuation s)) m s.
Proof.
  revert m. induction s as [|c s IH]; intros m H; [by destruct m|].
  cbn [take_continuation]. destruct (is_continuation c).
  - rewrite string_app_cons. cbn [String.length String.substring]. f_equal.
    simpl in H. apply IH. lia.
  - rewrite string_app_empty_l. cbn [String.length]. by rewrite substring_rest.
Qed.

Lemma py_len_take_continuation (s : string) : py_len (take_continuation s) = 0%nat.
Proof.
  induction s as [|c s IH]; [done|]. cbn [take_continuation].
  destruct (is_continuation c) eqn:Hc; [|done]. cbn [py_len]. by rewrite Hc.
Qed.

Lemma py_len_app (a b : string) : py_len (a +:+ b) = (py_len a + py_len b)%nat.
Proof.
  induction a as [|c a IH]; [done|]. rewrite string_app_cons. cbn [py_len].
  destruct (is_continuation c); lia.
Qed.

Lemma string_app_assoc (a b c : string) : a +:+ b +:+ c = (a +:+ b) +:+ c.
Proof.
  induction a as [|x a IH]; [done|]. by rewrite !string_app_cons, IH.
Qed.

(** [s[:n]] has at most [n] characters. *)
Lemma py_len_py_take (n : nat) (s : string) : (py_len (py_take n s) ≤ n)%nat.
Proof.
  revert s. induction n as [|n IH]; intros s; [done|].
  destruct s as [|c s]; [simpl; lia|].
  change (py_take (S n) (String c s))
    with (String c (take_continuation s +:+
                    py_take n (String.substring (String.length (take_continuation s))
                                                (String.length s) s))).
  cbn [py_len]. rewrite py_len_app, py_len_take_continuation.
  specialize (IH (String.substring (String.length (take_continuation s))
                                   (String.length s) s)).
  destruct (is_continuation c); lia.
Qed.

(** [s[:n]] is a prefix of [s]. *)
Lemma py_take_prefix (n : nat) (s : string) : ∃ rest, s = py_take n s +:+ rest.
Proof.
  revert s. induction n as [|n IH]; intros s; [by exists s|].
  destruct s as [|c s]; [by exists ""|].
  change (py_take (S n) (String c s))
    with (String c (take_continuation s +:+
                    py_take n (String.substring (String.length (take_continuation s))
                                                (String.length s) s))).
  destruct (IH (String.substring (String.length (take_continuation s))
                                 (String.length s) s)) as [rest Hrest].
  exists rest. rewrite string_app_cons. f_equal. rewrite <- string_app_assoc, <- Hrest.
  by apply take_continuation_split.
Qed.

(** ** Deduplication store: reading, writing and marking *)

(** Whether a record can be compared does not depend on the cutoff. *)
Lemma newer_than_comparable (c c' : string) (v : json) :
  is_Some (newer_than c v) ↔ is_Some (newer_than c' v).
Proof.
  destruct v; simpl; try done.
  destruct (dict_get m "sent_at" (JStr "")); simpl; try done; split; eauto.
Qed.

Lemma load_sent_db_stored (now : datetime) (items : gmap string json) :
  load_sent_db now (Stored (JObj items))
  = match sub_days now 30 with
    | Some t =>
        if bool_decide (map_Forall (λ _ v, is_Some (newer_than (isoformat t) v)) items)
        then filter (λ kv, newer_than (isoformat t) kv.2 = Some true) items
        else ∅
    | None => ∅
    end.
Proof. reflexivity. Qed.

(** X1. [load_sent_db] fails open: a missing or unreadable file, stored
    content that is not an object, or one record that is not an object or
    whose [sent_at] is not a string, each give the empty mapping. *)
Theorem load_sent_db_fail_open (now : datetime) :
  load_sent_db now NoFile = ∅
  ∧ load_sent_db now Unreadable = ∅
  ∧ (∀ data, (∀ items, data ≠ JObj items) → load_sent_db now (Stored data) = ∅)
  ∧ (∀ items k v,
       items !! k = Some v →
       (∀ d, v ≠ JObj d) ∨ (∃ d x, v = JObj d ∧ d !! "sent_at" = Some x ∧ ∀ s, x ≠ JStr s) →
       load_sent_db now (Stored (JObj items)) = ∅).
Proof.
  split; [done|]. split; [done|]. split.
  - intros data Hdata. unfold load_sent_db. destruct (sub_days now 30); [|done].
    destruct data; try done. by destruct (Hdata m).
  - intros items k v Hk Hbad. rewrite load_sent_db_stored.
    destruct (sub_days now 30) as [t|]; [|done].
    rewrite bool_decide_eq_false_2; [done|]. intros Hall.
    specialize (Hall k v Hk). cbn beta in Hall. destruct Hbad as [Hno|(d & x & -> & Hx & Hns)].
    + destruct v; simpl in Hall; try by destruct Hall. by destruct (Hno m).
    + simpl in Hall. unfold dict_get in Hall. rewrite Hx in Hall.
      destruct x; try by destruct Hall. by destruct (Hns s).
Qed.

(** X2. [load_sent_db] never invents or alters a record: what it returns is
    a part of the stored mapping, and every record it returns is an object
    whose [sent_at], if present, is a string. *)
Theorem load_sent_db_only_stored_records (now : datetime) (items : gmap string json) :
  load_sent_db now (Stored (JObj items)) ⊆ items
  ∧ map_Forall (λ _ v, ∃ d s, v = JObj d ∧ dict_get d "sent_at" (JStr "") = JStr s)
               (load_sent_db now (Stored (JObj items))).
Proof.
  rewrite load_sent_db_stored. destruct (sub_days now 30) as [t|].
  - case_bool_decide as Hall.
    + split; [apply map_filter_subseteq|].
      intros k v Hv. apply map_lookup_filter_Some in Hv as [_ Hv]. cbn [snd] in Hv.
      destruct v; simpl in Hv; try discriminate.
      destruct (dict_get m "sent_at" (JStr "")) eqn:Hs; try discriminate. eauto.
    + split; [apply map_empty_subseteq|apply map_Forall_empty].
  - split; [apply map_empty_subseteq|apply map_Forall_empty].
Qed.

(** Every record that is loaded is newer than the cutoff. *)
Lemma load_sent_db_all_newer (now t : datetime) (file : sent_db_file) :
  sub_days now 30 = Some t →
  map_Forall (λ _ v, newer_than (isoformat t) v = Some true) (load_sent_db now file).
Proof.
  intros Ht. destruct file as [| |data]; try apply map_Forall_empty.
  unfold load_sent_db. rewrite Ht. destruct data; try apply map_Forall_empty.
  case_bool_decide; [|apply map_Forall_empty].
  intros k v Hv. by apply map_lookup_filter_Some in Hv as [_ Hv].
Qed.

Lemma load_sent_db_no_cutoff (now : datetime) (file : sent_db_file) :
  sub_days now 30 = None → load_sent_db now file = ∅.
Proof. intros Ht. destruct file; try done. unfold load_sent_db. by rewrite Ht. Qed.

(** X3. Saving what was loaded and loading it again at the same clock
    reading gives the same mapping. *)
Theorem load_save_load (now : datetime) (file : sent_db_file) :
  load_sent_db now (save_sent_db (load_sent_db now file)) = load_sent_db now file.
Proof.
  unfold save_sent_db. rewrite load_sent_db_stored.
  destruct (sub_days now 30) as [t|] eqn:Ht.
  - pose proof (load_sent_db_all_newer now t file Ht) as Hnew.
    rewrite bool_decide_eq_true_2.
    + apply map_filter_id. intros k v Hv. exact (Hnew k v Hv).
    + intros k v Hv. cbn beta. by rewrite (Hnew k v Hv).
  - by rewrite load_sent_db_no_cutoff.
Qed.

(** Each marked identity holds the record of an article with that identity,
    stamped with a clock reading of the loop. *)
Lemma mark_as_sent_from_marked (k0 : nat) (clock : nat → datetime)
    (articles : list Article) (db : gmap string json) (id : string) :
  id ∈ (_article_id <$> articles) →
  ∃ a k, a ∈ articles ∧ _article_id a = id ∧ (k0 ≤ k < k0 + length articles)%nat
         ∧ mark_as_sent_from k0 clock articles db !! id = Some (sent_record a (clock k)).
Proof.
  revert k0 db. induction articles as [|a rest IH]; intros k0 db Hid.
  - by apply elem_of_nil in Hid.
  - cbn [mark_as_sent_from].
    destruct (decide (id ∈ (_article_id <$> rest))) as [Hin|Hout].
    + destruct (IH (S k0) (<[_article_id a:=sent_record a (clock k0)]> db) Hin)
        as (b & k & Hb & Hidb & Hk & Hlook).
      exists b, k. split; [by right|]. split; [done|]. split; [simpl; lia|done].
    + rewrite fmap_cons, elem_of_cons in Hid. destruct Hid as [->|Hid]; [|done].
      exists a, k0. split; [by left|]. split; [done|]. split; [simpl; lia|].
      rewrite mark_as_sent_from_other by done. apply lookup_insert_eq.
Qed.

(** X4. [mark_as_sent] adds exactly the identities of the articles, leaves
    the records of every other identity as they were, and stores for each
    marked identity the title, link and clock reading of an article with
    that identity. *)
Theorem mark_as_sent_records (clock : nat → datetime) (articles : list Article)
    (db : gmap string json) :
  dom (mark_as_sent clock articles db) = dom db ∪ list_to_set (_article_id <$> articles)
  ∧ (∀ id, id ∉ (_article_id <$> articles) → mark_as_sent clock articles db !! id = db !! id)
  ∧ (∀ id, id ∈ (_article_id <$> articles) →
       ∃ a k, a ∈ articles ∧ _article_id a = id ∧ (k < length articles)%nat
              ∧ mark_as_sent clock articles db !! id = Some (sent_record a (clock k))).
Proof.
  split; [apply mark_as_sent_from_dom|]. split; [intros id; apply mark_as_sent_from_other|].
  intros id Hid. unfold mark_as_sent.
  destruct (mark_as_sent_from_marked 0 clock articles db id Hid)
    as (a & k & Ha & Hida & Hk & Hlook).
  exists a, k. split; [done|]. split; [done|]. split; [lia|]. exact Hlook.
Qed.

(** X5. Filtering against a marked mapping is filtering against the old
    mapping and dropping the items that share an identity with a marked
    article; in particular the marked articles themselves are all dropped. *)
Theorem filter_new_after_mark (clock : nat → datetime) (items articles : list Article)
    (db : gmap string json) :
  filter_new_articles items (mark_as_sent clock articles db)
  = filter (λ a, _article_id a ∉ (_article_id <$> articles)) (filter_new_articles items db)
  ∧ filter_new_articles articles (mark_as_sent clock articles db) = [].
Proof.
  split; [|apply marked_items_are_not_new].
  unfold filter_new_articles. rewrite list_filter_filter. apply list_filter_iff.
  intros a. rewrite <- !not_elem_of_dom. unfold mark_as_sent.
  rewrite mark_as_sent_from_dom, not_elem_of_union, elem_of_list_to_set. tauto.
Qed.

(** X6. An empty mapping filters nothing, and filtering against a mapping
    and then against a larger one is filtering against the larger one. *)
Theorem filter_new_articles_larger_mapping (items : list Article) :
  filter_new_articles items ∅ = items
  ∧ (∀ db db' : gmap string json, db ⊆ db' →
       filter_new_articles (filter_new_articles items db) db'
       = filter_new_articles items db').
Proof.
  split.
  - unfold filter_new_articles. induction items as [|a rest IH]; [done|].
    rewrite filter_cons_True by apply lookup_empty. by rewrite IH.
  - intros db db' Hsub. unfold filter_new_articles. rewrite list_filter_filter.
    apply list_filter_iff. intros a. split; [tauto|]. intros Hnone. split; [done|].
    destruct (db !! _article_id a) as [v|] eqn:Hv; [|done].
    rewrite (lookup_weaken _ _ _ _ Hv Hsub) in Hnone. done.
Qed.

(** The records [mark_as_sent] writes can be compared. *)
Lemma mark_as_sent_from_comparable (k : nat) (clock : nat → datetime)
    (articles : list Article) (db : gmap string json) (c : string) :
  map_Forall (λ _ v, is_Some (newer_than c v)) db →
  map_Forall (λ _ v, is_Some (newer_than c v)) (mark_as_sent_from k clock articles db).
Proof.
  revert k db. induction articles as [|a rest IH]; intros k db Hdb; [done|].
  cbn [mark_as_sent_from]. apply IH. apply map_Forall_insert_2; [|done].
  unfold sent_record, newer_than, dict_get.
  rewrite lookup_insert_ne by done. rewrite lookup_insert_ne by done.
  rewrite lookup_singleton_eq. eauto.
Qed.

(** X7. What one pass marks, the next one skips: when the mapping held only
    comparable records and the articles are marked at instants later than 30
    days before the next load, the mapping that is saved and loaded again
    holds a record for each of them, and filters all of them out. *)
Theorem marked_items_skipped_after_reload
    (clock : nat → datetime) (articles : list Article) (db : gmap string json)
    (now t : datetime) :
  sub_days now 30 = Some t →
  map_Forall (λ _ v, is_Some (newer_than "" v)) db →
  (∀ k, (k < length articles)%nat → datetime_in_range (clock k) = true ∧ t < clock k) →
  (∀ a, a ∈ articles →
        is_Some (load_sent_db now (save_sent_db (mark_as_sent clock articles db))
                   !! _article_id a))
  ∧ filter_new_articles articles
      (load_sent_db now (save_sent_db (mark_as_sent clock articles db))) = [].
Proof.
  intros Ht Hdb Hclock.
  assert (Hrec : ∀ a, a ∈ articles →
            is_Some (load_sent_db now (save_sent_db (mark_as_sent clock articles db))
                       !! _article_id a)).
  { intros a Ha. unfold save_sent_db. rewrite load_sent_db_stored, Ht.
    rewrite bool_decide_eq_true_2.
    - destruct (mark_as_sent_from_marked 0 clock articles db (_article_id a))
        as (b & k & Hb & Hid & Hk & Hlook).
      { apply list_elem_of_fmap. eauto. }
      fold (mark_as_sent clock articles db) in Hlook.
      exists (sent_record b (clock k)). apply map_lookup_filter_Some. split; [done|].
      cbn [snd]. unfold sent_record at 1. cbn [newer_than].
      rewrite (sent_record_sent_at b (clock k) _ eq_refl).
      destruct (Hclock k ltac:(lia)) as [Hrange Hlt].
      rewrite isoformat_gtb by eauto using sub_days_in_range.
      by rewrite bool_decide_eq_true_2.
    - apply mark_as_sent_from_comparable. intros k v Hv.
      apply (newer_than_comparable ""). by apply (Hdb k). }
  split; [exact Hrec|].
  unfold filter_new_articles.
  assert (Hall : Forall (λ a, a ∈ articles) articles) by (by apply Forall_forall).
  generalize dependent (load_sent_db now (save_sent_db (mark_as_sent clock articles db))).
  intros m Hrec. clear Hclock.
  assert (Hall' : Forall (λ a, is_Some (m !! _article_id a)) articles).
  { eapply Forall_impl; [exact Hall|]. intros a Ha. by apply Hrec. }
  clear Hall Hrec. induction Hall' as [|a rest [v Hv] _ IH]; [done|].
  rewrite filter_cons_False; [exact IH|]. congruence.
Qed.

Lemma marked_items_skipped_after_reload_witness :
  sub_days Sample.now 30 = Some Sample.cutoff
  ∧ map_Forall (λ _ v, is_Some (newer_than "" v)) (∅ : gmap string json)
  ∧ (∀ k, (k < length [Sample.post; Sample.second_post])%nat →
          datetime_in_range ((λ _, Sample.now) k) = true
          ∧ Sample.cutoff < (λ _ : nat, Sample.now) k)
  ∧ filter_new_articles [Sample.post; Sample.second_post]
      (load_sent_db Sample.now
         (save_sent_db (mark_as_sent (λ _, Sample.now)
                          [Sample.post; Sample.second_post] ∅))) = [].
Proof.
  assert (Hsub : sub_days Sample.now 30 = Some Sample.cutoff) by (vm_compute; reflexivity).
  assert (Hdb : map_Forall (λ _ v, is_Some (newer_than "" v)) (∅ : gmap string json))
    by apply map_Forall_empty.
  assert (Hclock : ∀ k, (k < length [Sample.post; Sample.second_post])%nat →
            datetime_in_range ((λ _, Sample.now) k) = true
            ∧ Sample.cutoff < (λ _ : nat, Sample.now) k).
  { intros k _. split; vm_compute; reflexivity. }
  split; [exact Hsub|]. split; [exact Hdb|]. split; [exact Hclock|].
  exact (proj2 (marked_items_skipped_after_reload (λ _, Sample.now)
                  [Sample.post; Sample.second_post] ∅ Sample.now Sample.cutoff
                  Hsub Hdb Hclock)).
Defined.

(** ** Source fetcher: dates, items and failing sources *)

Section FetcherMore.
Variable date_parser_parse : string → conversion.
Variable from_struct_time : struct_time → conversion.
Variable clean_html : string → string.

Local Abbreviation parse_date := (parse_date date_parser_parse from_struct_time).
Local Abbreviation article_of_entry := (article_of_entry clean_html).
Local Abbreviation collect_entries :=
  (collect_entries date_parser_parse from_struct_time clean_html).
Local Abbreviation fetch_feed := (fetch_feed date_parser_parse from_struct_time clean_html).
Local Abbreviation fetch_all_feeds :=
  (fetch_all_feeds date_parser_parse from_struct_time clean_html).

(** The conversion of a text field: an absent or empty text is passed over
    without a conversion. *)
Local Abbreviation text_conversion :=
  (λ val : option string,
     match val with
     | Some s => if str_truthy s then Some (date_parser_parse s) else None
     | None => None
     end).

(** The conversion of a parsed tuple, which is handed over whole. *)
Local Abbreviation tuple_conversion :=
  (λ val : option struct_time,
     match val with
     | Some ((_ :: _) as st) => Some (from_struct_time st)
     | _ => None
     end).

(** The six conversions of an entry, in the order [parse_date] tries them. *)
Local Abbreviation conversions e :=
  [text_conversion (entry_published e); text_conversion (entry_updated e);
   text_conversion (entry_created e); tuple_conversion (entry_published_parsed e);
   tuple_conversion (entry_updated_parsed e); tuple_conversion (entry_created_parsed e)].

(** A field that [parse_date] passes over: absent, falsy, or refused. *)
Local Abbreviation passed_over := (λ c : option conversion, c = None ∨ c = Some Refused).

Lemma first_converted_app {A B : Type} (f : A → option conversion)
    (g : B → option conversion) (l : list A) (k : list B) :
  match first_converted f l with
  | Returned None => first_converted g k
  | r => r
  end = first_converted id (map f l ++ map g k).
Proof.
  induction l as [|x l IH]; cbn [map app first_converted].
  - induction k as [|y k IH]; [done|]. cbn [map first_converted]. unfold id at 1.
    destruct (g y) as [[d| |]|]; done.
  - unfold id at 1. destruct (f x) as [[d| |]|]; done.
Qed.

Lemma first_converted_split (pre post : list (option conversion)) (c : option conversion) :
  Forall passed_over pre →
  first_converted id (pre ++ c :: post)
  = match c with
    | Some (Converted d) => Returned (Some d)
    | Some Escaped => Raised
    | _ => first_converted id post
    end.
Proof.
  induction 1 as [|x pre [->| ->] _ IH]; [|exact IH..].
  cbn [app first_converted]. unfold id at 1. by destruct c as [[d| |]|].
Qed.

(** X8. [parse_date] tries [published], [updated], [created] and then the
    three parsed tuples, in this order: a field that is absent or empty, or
    whose conversion raises an exception that is caught, is passed over; the
    first field that converts gives the date; a parsed tuple is converted
    whole; and an exception that is not caught (the text loop catches
    [ValueError] and [TypeError], not [OverflowError]) leaves [parse_date]
    even when a later field has a date. When all six are passed over there
    is no date. *)
Theorem parse_date_order (e : FeedEntry) :
  parse_date e = first_converted id (conversions e)
  ∧ (∀ pre c post,
       conversions e = pre ++ c :: post → Forall passed_over pre →
       (∀ d, c = Some (Converted d) → parse_date e = Returned (Some d))
       ∧ (c = Some Escaped → parse_date e = Raised))
  ∧ (Forall passed_over (conversions e) → parse_date e = Returned None)
  ∧ (∀ s d, entry_published e = Some s → s ≠ "" → date_parser_parse s = Converted d →
            parse_date e = Returned (Some d))
  ∧ (∀ s, entry_published e = Some s → s ≠ "" → date_parser_parse s = Escaped →
          parse_date e = Raised)
  ∧ (∀ st d, entry_published e = None → entry_updated e = None → entry_created e = None →
             entry_published_parsed e = Some st → st ≠ [] →
             from_struct_time st = Converted d →
             parse_date e = Returned (Some d)).
Proof.
  assert (Heq : parse_date e = first_converted id (conversions e)).
  { unfold parse_date.
    exact (first_converted_app text_conversion tuple_conversion
             [entry_published e; entry_updated e; entry_created e]
             [entry_published_parsed e; entry_updated_parsed e;
              entry_created_parsed e]). }
  split; [exact Heq|]. split; [|split; [|split; [|split]]].
  - intros pre c post Hsplit Hpre. rewrite Heq, Hsplit, first_converted_split by done.
    split; [by intros d ->|by intros ->].
  - intros Hall. rewrite Heq.
    generalize (conversions e) Hall. clear. intros k Hk.
    induction Hk as [|x l [->| ->] _ IH]; [done|exact IH..].
  - intros s d Hs Hne Hd. rewrite Heq. cbn [first_converted]. unfold id at 1.
    rewrite Hs. destruct s; [done|]. cbn [str_truthy]. by rewrite Hd.
  - intros s Hs Hne Hd. rewrite Heq. cbn [first_converted]. unfold id at 1.
    rewrite Hs. destruct s; [done|]. cbn [str_truthy]. by rewrite Hd.
  - intros st d H1 H2 H3 Hst Hne Hd. rewrite Heq. cbn [first_converted]. unfold id.
    rewrite H1, H2, H3, Hst. destruct st; [done|]. by rewrite Hd.
Qed.

(** X9. The item built from an entry: its short summary is the first 500
    characters of its content, at most; it has at most five tags, none of
    them empty; it carries the name of the source, and the link of the
    source's page when the entry has no link. *)
Theorem article_of_entry_bounds (src : FeedSource) (e : FeedEntry) (d : option datetime) :
  (py_len (summary (article_of_entry src e d)) ≤ 500)%nat
  ∧ (∃ rest, full_content (article_of_entry src e d)
             = summary (article_of_entry src e d) +:+ rest)
  ∧ (length (tags (article_of_entry src e d)) ≤ 5)%nat
  ∧ (∀ t, t ∈ tags (article_of_entry src e d) → t ≠ "" ∧ Some t ∈ entry_tags e)
  ∧ source (article_of_entry src e d) = name src
  ∧ published (article_of_entry src e d) = d
  ∧ (entry_link e = None → link (article_of_entry src e d) = html_url src)
  ∧ (entry_title e = None → title (article_of_entry src e d) = "无标题").
Proof.
  unfold article_of_entry. cbn [summary full_content tags source published link title].
  set (content := clean_html _).
  split; [|split; [|split; [|split; [|split; [|split; [|split]]]]]].
  - destruct (str_truthy content); [apply py_len_py_take|simpl; lia].
  - destruct (str_truthy content) eqn:Hc.
    + destruct (py_take_prefix 500 content) as [rest Hrest]. by exists rest.
    + exists "". apply str_truthy_false in Hc. by rewrite Hc.
  - rewrite length_take. lia.
  - intros t Ht. apply subseteq_take in Ht. apply list_elem_of_omap in Ht as (o & Ho & Hot).
    destruct o as [term|]; [|discriminate].
    destruct (str_truthy term) eqn:Hterm; [|discriminate]. injection Hot as <-.
    split; [|done]. intros ->. discriminate.
  - done.
  - done.
  - by intros ->.
  - by intros ->.
Qed.

(** The date of an entry, when [parse_date] returns. *)
Local Abbreviation resolved :=
  (λ e, match parse_date e with Returned o => o | Raised => None end).

(** What the loop keeps is a part of the entries, in their order. *)
Lemma collect_entries_sublist (src : FeedSource) (since : datetime) (has_any_date : bool)
    (collected : nat) (entries : list FeedEntry) :
  ∃ kept, kept `sublist_of` entries
          ∧ Forall (λ e, parse_date e ≠ Raised) kept
          ∧ collect_entries src since has_any_date collected entries
            = map (λ e, article_of_entry src e (resolved e)) kept.
Proof.
  revert collected. induction entries as [|e rest IH]; intros collected.
  - by exists [].
  - cbn [collect_entries]. destruct (parse_date e) as [[d|]|] eqn:Hd.
    + destruct (IH collected) as (kept & Hsub & Hret & Heq). destruct (d <? since).
      * exists kept. split; [by apply sublist_cons|done].
      * exists (e :: kept). split; [by apply sublist_skip|].
        split; [constructor; [by rewrite Hd|done]|].
        cbn [map]. by rewrite Hd, Heq.
    + destruct has_any_date.
      * destruct (IH collected) as (kept & Hsub & Hret & Heq).
        exists kept. split; [by apply sublist_cons|done].
      * destruct (IH (S collected)) as (kept & Hsub & Hret & Heq).
        destruct (MAX_ARTICLES_NO_DATE <? S collected)%nat.
        -- exists kept. split; [by apply sublist_cons|done].
        -- exists (e :: kept). split; [by apply sublist_skip|].
           split; [constructor; [by rewrite Hd|done]|].
           cbn [map]. by rewrite Hd, Heq.
    + exists []. split; [apply sublist_nil_l|done].
Qed.

(** The counter bounds the undated items. *)
Lemma collect_entries_undated (src : FeedSource) (since : datetime) (has_any_date : bool)
    (collected : nat) (entries : list FeedEntry) :
  (length (filter (λ a, published a = None)
             (collect_entries src since has_any_date collected entries))
   ≤ MAX_ARTICLES_NO_DATE - collected)%nat.
Proof.
  revert collected. induction entries as [|e rest IH]; intros collected; [simpl; lia|].
  cbn [collect_entries]. destruct (parse_date e) as [[d|]|] eqn:Hd; [| |simpl; lia].
  - destruct (d <? since); [apply IH|].
    rewrite filter_cons_False by done. apply IH.
  - destruct has_any_date; [apply IH|].
    destruct (Nat.ltb_spec MAX_ARTICLES_NO_DATE (S collected)) as [Hlt|Hge].
    + specialize (IH (S collected)). lia.
    + rewrite filter_cons_True by done. specialize (IH (S collected)). simpl. lia.
Qed.

(** The loop stops at the first entry whose date raises. *)
Lemma collect_entries_stops (src : FeedSource) (since : datetime) (has_any_date : bool)
    (collected : nat) (pre post : list FeedEntry) (e : FeedEntry) :
  parse_date e = Raised →
  collect_entries src since has_any_date collected (pre ++ e :: post)
  = collect_entries src since has_any_date collected pre.
Proof.
  intros He. revert collected. induction pre as [|x pre IH]; intros collected.
  - cbn [app collect_entries]. by rewrite He.
  - cbn [app collect_entries]. destruct (parse_date x) as [[d|]|]; [| |done].
    + destruct (d <? since); [apply IH|]. f_equal. apply IH.
    + destruct has_any_date; [apply IH|].
      destruct (MAX_ARTICLES_NO_DATE <? S collected)%nat; [apply IH|]. f_equal. apply IH.
Qed.

(** X10. Whatever the response, the items of a source are built from a part
    of the feed's entries, in document order, so there are no more items
    than entries; at most three of them are undated; every item carries the
    name of the source and none is dated before [since]; a request that
    fails gives no item. An entry whose date raises an exception that
    [parse_date] does not catch ends the feed: when an entry before it has a
    date, the items are those of the entries before it, and otherwise there
    is no item at all. *)
Theorem fetch_feed_items (resp : feed_response) (src : FeedSource) (since : datetime) :
  (∀ entries, resp = FeedParsed entries →
     (∃ kept, kept `sublist_of` entries
              ∧ Forall (λ e, parse_date e ≠ Raised) kept
              ∧ fetch_feed resp src since
                = map (λ e, article_of_entry src e (resolved e)) kept)
     ∧ (length (fetch_feed resp src since) ≤ length entries)%nat)
  ∧ (length (filter (λ a, published a = None) (fetch_feed resp src since)) ≤ 3)%nat
  ∧ Forall (λ a, source a = name src
                 ∧ ∀ d, published a = Some d → since ≤ d) (fetch_feed resp src since)
  ∧ ((∀ entries, resp ≠ FeedParsed entries) → fetch_feed resp src since = [])
  ∧ (∀ pre e post,
       resp = FeedParsed (pre ++ e :: post) →
       Forall (λ x, parse_date x ≠ Raised) pre →
       parse_date e = Raised →
       (Exists (λ x, ∃ d, parse_date x = Returned (Some d)) pre →
        fetch_feed resp src since = fetch_feed (FeedParsed pre) src since)
       ∧ (Forall (λ x, parse_date x = Returned None) pre →
          fetch_feed resp src since = [])).
Proof.
  assert (Hkept : ∀ entries,
            ∃ kept, kept `sublist_of` entries
                    ∧ Forall (λ e, parse_date e ≠ Raised) kept
                    ∧ fetch_feed (FeedParsed entries) src since
                      = map (λ e, article_of_entry src e (resolved e)) kept).
  { intros entries. unfold fetch_feed.
    destruct (any_dated date_parser_parse from_struct_time entries) as [h|].
    - apply collect_entries_sublist.
    - exists []. split; [apply sublist_nil_l|done]. }
  split; [|split; [|split; [|split]]].
  - intros entries ->. destruct (Hkept entries) as (kept & Hsub & Hret & Heq).
    split; [by exists kept|]. rewrite Heq, length_map. by apply sublist_length.
  - destruct resp; try (simpl; lia). unfold fetch_feed.
    destruct (any_dated date_parser_parse from_struct_time entries) as [h|]; [|simpl; lia].
    etrans; [apply collect_entries_undated|]. unfold MAX_ARTICLES_NO_DATE. lia.
  - destruct resp; try constructor.
    destruct (Hkept entries) as (kept & Hsub & Hret & Heq).
    pose proof (fetch_feed_published date_parser_parse from_struct_time clean_html
                  (FeedParsed entries) src since) as Hpub.
    rewrite Heq in *. rewrite Forall_forall in *. intros a Ha. split; [|by apply Hpub].
    apply list_elem_of_fmap in Ha as (e & -> & _). done.
  - intros H. destruct resp; try done. by destruct (H entries).
  - intros pre e post -> Hpre He. split.
    + intros Hex. unfold fetch_feed.
      rewrite (any_dated_true date_parser_parse from_struct_time pre (e :: post) Hpre Hex).
      pose proof (any_dated_true date_parser_parse from_struct_time pre [] Hpre Hex) as H.
      rewrite app_nil_r in H. rewrite H. by apply collect_entries_stops.
    + intros Hnone. unfold fetch_feed.
      by rewrite (any_dated_raised date_parser_parse from_struct_time pre post e Hnone He).
Qed.

(** Sources without items do not count in a concatenation. *)
Lemma concat_map_filter {A B : Type} (f : A → list B) (P : A → Prop)
    `{!∀ x, Decision (P x)} (l : list A) :
  (∀ x, ¬ P x → f x = []) → concat (map f l) = concat (map f (filter P l)).
Proof.
  intros Hf. induction l as [|x l IH]; [done|].
  rewrite filter_cons. destruct (decide (P x)) as [Hp|Hn]; simpl.
  - by rewrite IH.
  - by rewrite (Hf x Hn), IH.
Qed.

(** X11. A source whose request fails (timeout, HTTP status or any other
    error) does not change the aggregate: it is the aggregate of the
    sources that answered, and it is empty when none did. *)
Theorem fetch_all_feeds_failure_isolated
    (http : FeedSource → feed_response) (feeds : list FeedSource) (since : datetime) :
  fetch_all_feeds http feeds since
  = fetch_all_feeds http (filter (λ feed, feed_answered (http feed) = true) feeds) since
  ∧ ((∀ feed, feed ∈ feeds → feed_answered (http feed) = false) →
     fetch_all_feeds http feeds since = []).
Proof.
  assert (Hfail : ∀ feed, feed_answered (http feed) ≠ true →
            fetch_feed (http feed) feed since = []).
  { intros feed Hn. by destruct (http feed). }
  split.
  - unfold fetch_all_feeds. f_equal.
    apply (concat_map_filter (λ feed, fetch_feed (http feed) feed since)
             (λ feed, feed_answered (http feed) = true)). exact Hfail.
  - intros Hall. unfold fetch_all_feeds.
    replace (concat _) with (@nil Article); [done|]. symmetry.
    induction feeds as [|feed rest IH]; [done|]. simpl.
    rewrite IH by (intros f Hf; apply Hall; by right).
    rewrite app_nil_r. apply Hfail. rewrite Hall by (by left). done.
Qed.

End FetcherMore.

(** ** Content enricher: what it leaves alone *)

Lemma set_full_content_same (a : Article) : set_full_content a (full_content a) = a.
Proof. by destruct a. Qed.

(** X12. The enricher changes nothing but the content field: every item
    keeps its position, its link (so its identity) and its other fields, and
    its content is either the old one or a text of more than 200
    characters. *)
Theorem enrich_changes_content_only (pages : nat → page_response) (articles : list Article) :
  Forall2 (λ a a', a' = set_full_content a (full_content a')
                   ∧ (full_content a' = full_content a
                      ∨ (200 < py_len (full_content a'))%nat))
          articles (enrich_articles_with_full_content pages articles)
  ∧ _article_id <$> enrich_articles_with_full_content pages articles
    = _article_id <$> articles.
Proof.
  assert (H : Forall2 (λ a a', a' = set_full_content a (full_content a')
                        ∧ (full_content a' = full_content a
                           ∨ (200 < py_len (full_content a'))%nat))
                articles (enrich_articles_with_full_content pages articles)).
  { apply Forall2_same_length_lookup. split; [by rewrite enrich_length|].
    intros i a a' Ha Ha'. unfold enrich_articles_with_full_content in Ha'.
    rewrite list_lookup_imap, Ha in Ha'. injection Ha' as <-.
    unfold bounded_fetch, fetch_page_content. destruct (pages i) as [|text].
    - cbn [str_truthy]. rewrite set_full_content_same. auto.
    - destruct (Nat.ltb_spec 200 (py_len text)) as [Hlong|Hshort].
      + rewrite long_text_truthy by done. cbn [full_content set_full_content]. auto.
      + cbn [str_truthy]. rewrite set_full_content_same. auto. }
  split; [exact H|].
  induction H as [|a a' l l' [Ha _] _ IH]; [done|].
  rewrite !fmap_cons, IH. f_equal. rewrite Ha. reflexivity.
Qed.

(** ** Batch transformer: calls, budget and shape *)

Section TransformerMore.
Variable json_loads : string → option json.

Local Abbreviation classify_reply := (classify_reply json_loads).
Local Abbreviation summarize_with_llm := (summarize_with_llm json_loads).
Local Abbreviation classify_all := (classify_all json_loads).
Local Abbreviation ai_summarize_articles := (ai_summarize_articles json_loads).
Local Abbreviation has_content := (λ a : Article, str_truthy (content_of a) = true).

(** X13. Batching leaves no trace in the classification: the loop over
    batches of five gives every article the result that one pass of
    [summarize_with_llm] over the whole list gives it, and makes one call per
    article that has content. *)
Theorem classification_ignores_batches (client : llm_client) (articles : list Article) :
  classify_all client articles
  = (zip_with apply_result (summarize_with_llm client 0 articles).1 articles,
     length (filter has_content articles)).
Proof. by rewrite classify_all_eq, summarize_calls. Qed.

Lemma py_take_budget (s : string) :
  str_truthy s = true → request_in_budget (SummarizeRequest "" "" (py_take MAX_CONTENT_LEN s)).
Proof.
  intros Hs. split; [|apply py_len_py_take].
  destruct s as [|c s]; [discriminate|]. unfold MAX_CONTENT_LEN.
  change (py_take 2000 (String c s))
    with (String c (take_continuation s +:+
                    py_take 1999 (String.substring (String.length (take_continuation s))
                                                   (String.length s) s))).
  discriminate.
Qed.

(** Two clients that agree within the budget give the same results. *)
Lemma summarize_with_llm_budget (client client' : llm_client) (calls : nat)
    (articles : list Article) :
  (∀ n req, request_in_budget req → client n req = client' n req) →
  summarize_with_llm client calls articles = summarize_with_llm client' calls articles.
Proof.
  intros Hagree. revert calls. induction articles as [|a rest IH]; intros calls; [done|].
  simpl. destruct (str_truthy (content_of a)) eqn:Hc; simpl.
  - rewrite IH, Hagree; [done|]. by apply py_take_budget.
  - by rewrite IH.
Qed.

Lemma enrich_detail_with_llm_budget (client client' : llm_client) (calls : nat)
    (articles : list Article) :
  (∀ n req, request_in_budget req → client n req = client' n req) →
  enrich_detail_with_llm client calls articles = enrich_detail_with_llm client' calls articles.
Proof.
  intros Hagree. revert calls. induction articles as [|a rest IH]; intros calls; [done|].
  simpl. destruct (str_truthy (content_of a)) eqn:Hc; simpl.
  - rewrite IH, Hagree; [done|]. by apply py_take_budget.
  - by rewrite IH.
Qed.

(** X14. The transformer never sends a request with an empty content or with
    a content of more than 2000 characters: clients that answer alike to the
    requests within the budget give the same output. *)
Theorem requests_within_budget (client client' : llm_client) (articles : list Article)
    (enable_filter : bool) :
  (∀ n req, request_in_budget req → client n req = client' n req) →
  ai_summarize_articles client articles enable_filter
  = ai_summarize_articles client' articles enable_filter.
Proof.
  intros Hagree. rewrite !ai_summarize_articles_eq.
  rewrite (summarize_with_llm_budget client client' 0 articles Hagree).
  by rewrite (enrich_detail_with_llm_budget client client' _ _ Hagree).
Qed.

(** X15. A result that is not relevant never carries the title or the
    summary of the reply: its title is the article's own and its summary is
    empty or the feed summary. A relevant result comes from a decoded reply,
    is not in the category "other", and takes its title and summary from the
    reply, defaulting to the article's title and an empty summary. *)
Theorem classify_reply_fields (a : Article) (reply : llm_reply) :
  (truthy (result_is_relevant (classify_reply a reply)) = false →
   result_title (classify_reply a reply) = JStr (title a)
   ∧ (result_summary (classify_reply a reply) = JStr ""
      ∨ result_summary (classify_reply a reply) = JStr (summary a)))
  ∧ (truthy (result_is_relevant (classify_reply a reply)) = true →
     ∃ text m data,
       reply = LLMContent text ∧ search_braces text = Some m
       ∧ json_loads m = Some (JObj data)
       ∧ result_category (classify_reply a reply) ≠ JStr OTHER
       ∧ result_is_relevant (classify_reply a reply)
         = dict_get data "is_relevant" (JBool true)
       ∧ result_title (classify_reply a reply) = dict_get data "title" (JStr (title a))
       ∧ result_summary (classify_reply a reply) = dict_get data "summary" (JStr "")).
Proof.
  unfold classify_reply. destruct reply as [|text]; [split; [auto|discriminate]|].
  destruct (search_braces text) as [m|] eqn:Hm; [|split; [auto|discriminate]].
  destruct (json_loads m) as [[| | | | | |data]|] eqn:Hj;
    try (split; [auto|discriminate]).
  destruct (json_eq_str (dict_get data "category" (JStr OTHER)) OTHER) eqn:Hcat.
  - split; [auto|discriminate].
  - cbn [result_is_relevant result_title result_summary result_category]. split.
    + intros ->. auto.
    + intros Hrel. rewrite Hrel. exists text, m, data.
      repeat split; try done. intros Heq. apply json_eq_str_true in Heq. congruence.
Qed.

(** The detail of the [i]-th article is decided by the article and the reply
    to its own call. *)
Lemma enrich_detail_lookup (client : llm_client) (calls : nat) (articles : list Article)
    (i : nat) (a : Article) :
  articles !! i = Some a →
  (enrich_detail_with_llm client calls articles).1 !! i
  = Some (set_ai_detail a
            (if str_truthy (content_of a)
             then match client (calls + length (filter has_content (take i articles)))%nat
                          (DetailRequest
                             (if truthy (ai_title a) then ai_title a else JStr (title a))
                             (source a) (py_take MAX_CONTENT_LEN (content_of a))) with
                  | LLMContent text => JStr text
                  | LLMRaises => ai_summary a
                  end
             else ai_summary a)).
Proof.
  revert calls i. induction articles as [|b rest IH]; intros calls i Hi; [done|].
  simpl. destruct i as [|i]; simpl in Hi.
  - injection Hi as ->. rewrite take_0. simpl. rewrite Nat.add_0_r.
    destruct (str_truthy (content_of a)); simpl.
    + by destruct (enrich_detail_with_llm client (S calls) rest).
    + by destruct (enrich_detail_with_llm client calls rest).
  - rewrite firstn_cons.
    destruct (str_truthy (content_of b)) eqn:Hb; simpl.
    + specialize (IH (S calls) i Hi).
      destruct (enrich_detail_with_llm client (S calls) rest). simpl in *.
      rewrite IH, filter_cons_True by done. simpl. by rewrite Nat.add_succ_r.
    + specialize (IH calls i Hi).
      destruct (enrich_detail_with_llm client calls rest). simpl in *.
      by rewrite IH, filter_cons_False by (rewrite Hb; discriminate).
Qed.

(** The detail pass makes one call per article that has content. *)
Lemma enrich_detail_calls (client : llm_client) (calls : nat) (articles : list Article) :
  (enrich_detail_with_llm client calls articles).2
  = (calls + length (filter has_content articles))%nat.
Proof.
  revert calls. induction articles as [|a rest IH]; intros calls.
  - simpl. lia.
  - destruct (str_truthy (content_of a)) eqn:Ha.
    + rewrite filter_cons_True by done. specialize (IH (S calls)).
      simpl. rewrite Ha. simpl.
      destruct (enrich_detail_with_llm client (S calls) rest). simpl in *. lia.
    + rewrite filter_cons_False by (rewrite Ha; discriminate). specialize (IH calls).
      simpl. rewrite Ha. simpl.
      by destruct (enrich_detail_with_llm client calls rest).
Qed.

(** X16. The detail pass sets the detail of every item and changes nothing
    else. For an item with content it makes one call, with the item's
    Chinese title if it has one and its own title if not, its source and the
    first 2000 characters of its content; the detail is the text of the reply
    to that call, and the item's short summary when that call raises. For an
    item without content it makes no call and the detail is the short
    summary. The list keeps its length, and the calls are numbered in the
    order of the items. *)
Theorem enrich_detail_fallback (client : llm_client) (calls : nat) (articles : list Article)
    (i : nat) (a : Article) :
  articles !! i = Some a →
  (enrich_detail_with_llm client calls articles).1 !! i
  = Some (set_ai_detail a
            (if str_truthy (content_of a)
             then match client (calls + length (filter has_content (take i articles)))%nat
                          (DetailRequest
                             (if truthy (ai_title a) then ai_title a else JStr (title a))
                             (source a) (py_take MAX_CONTENT_LEN (content_of a))) with
                  | LLMContent text => JStr text
                  | LLMRaises => ai_summary a
                  end
             else ai_summary a))
  ∧ length (enrich_detail_with_llm client calls articles).1 = length articles
  ∧ (enrich_detail_with_llm client calls articles).2
    = (calls + length (filter has_content articles))%nat.
Proof.
  intros Hi. split; [by apply enrich_detail_lookup|]. split.
  - symmetry. exact (Forall2_length _ _ _ (enrich_detail_shape client calls articles)).
  - apply enrich_detail_calls.
Qed.

(** A filtered list is related to a part of the original. *)
Lemma Forall2_filter_r {A B : Type} (R : A → B → Prop) (P : B → Prop)
    `{!∀ x, Decision (P x)} (l : list A) (k : list B) :
  Forall2 R l k → ∃ l', l' `sublist_of` l ∧ Forall2 R l' (filter P k).
Proof.
  induction 1 as [|x y l k Hxy _ (l' & Hsub & HR)]; [by exists []|].
  rewrite filter_cons. destruct (decide (P y)).
  - exists (x :: l'). split; [by apply sublist_skip|by constructor].
  - exists l'. split; [by apply sublist_cons|done].
Qed.

(** The items of the output, and the input items they come from. *)
Lemma ai_summarize_articles_kept (client : llm_client) (articles : list Article)
    (enable_filter : bool) :
  ∃ kept,
    kept `sublist_of` articles
    ∧ Forall2 (λ a a', ∃ r detail, a' = set_ai_detail (apply_result r a) detail)
              kept (ai_summarize_articles client articles enable_filter).
Proof.
  rewrite ai_summarize_articles_eq.
  set (results := (summarize_with_llm client 0 articles).1).
  set (calls := (summarize_with_llm client 0 articles).2).
  assert (Hz : Forall2 (λ a z, ∃ r, z = apply_result r a) articles
                 (zip_with apply_result results articles)).
  { apply Forall2_same_length_lookup. split.
    - rewrite length_zip_with_r_eq; [done|]. unfold results. by rewrite summarize_length.
    - intros i a z Ha Hz. apply lookup_zip_with_Some in Hz as (r & a0 & -> & _ & Ha0).
      rewrite Ha in Ha0. injection Ha0 as <-. eauto. }
  assert (Hk : ∃ kept, kept `sublist_of` articles
                 ∧ Forall2 (λ a z, ∃ r, z = apply_result r a) kept
                     (if enable_filter
                      then filter (λ a, truthy (is_relevant a) = true)
                             (zip_with apply_result results articles)
                      else zip_with apply_result results articles)).
  { destruct enable_filter; [by apply Forall2_filter_r|by exists articles]. }
  destruct Hk as (kept & Hsub & Hkept). exists kept. split; [done|].
  pose proof (enrich_detail_shape client calls
                (if enable_filter
                 then filter (λ a, truthy (is_relevant a) = true)
                        (zip_with apply_result results articles)
                 else zip_with apply_result results articles)) as Hshape.
  assert (H : Forall2 (λ a a', ∃ r detail, a' = set_ai_detail (apply_result r a) detail)
                kept (enrich_detail_with_llm client calls
                        (if enable_filter
                         then filter (λ a, truthy (is_relevant a) = true)
                                (zip_with apply_result results articles)
                         else zip_with apply_result results articles)).1).
  { eapply Forall2_trans; [|exact Hkept|exact Hshape].
    intros a z a' [r ->] [detail ->]. eauto. }
  exact H.
Qed.


(** X17. The transformer returns a part of its input, in the order of the
    input, and changes only the five fields it derives: every item of the
    output is an input item with a result applied and a detail set, so the
    links of the output are a subsequence of the links of the input. *)
Theorem ai_summarize_articles_subsequence (client : llm_client) (articles : list Article)
    (enable_filter : bool) :
  ∃ kept,
    kept `sublist_of` articles
    ∧ Forall2 (λ a a', ∃ r detail, a' = set_ai_detail (apply_result r a) detail)
              kept (ai_summarize_articles client articles enable_filter)
    ∧ link <$> ai_summarize_articles client articles enable_filter = link <$> kept
    ∧ (length (ai_summarize_articles client articles enable_filter) ≤ length articles)%nat.
Proof.
  destruct (ai_summarize_articles_kept client articles enable_filter) as (kept & Hsub & H).
  exists kept. split; [done|]. split; [done|]. split.
  - clear -H. induction H as [|a a' l l' (r & detail & ->) _ IH]; [done|].
    rewrite !fmap_cons, IH. done.
  - rewrite <- (Forall2_length _ _ _ H). by apply sublist_length.
Qed.

End TransformerMore.

Lemma requests_within_budget_witness :
  ai_summarize_articles Sample.json_loads (λ _ _, LLMContent "{ai}")
                        [Sample.post; Sample.second_post] true
  = ai_summarize_articles Sample.json_loads Scenario.strict_client
                          [Sample.post; Sample.second_post] true.
Proof.
  apply (requests_within_budget Sample.json_loads (λ _ _, LLMContent "{ai}")
           Scenario.strict_client [Sample.post; Sample.second_post] true).
  intros n req Hreq. unfold Scenario.strict_client.
  destruct req as [t s c|t s c]; destruct Hreq as [Hne Hlen];
    apply String.eqb_neq in Hne; apply Nat.leb_le in Hlen; by rewrite Hne, Hlen.
Defined.

Lemma enrich_detail_fallback_witness :
  (enrich_detail_with_llm Sample.failing_first 0
     [Sample.post; Scenario.silent; Sample.second_post]).1
  = [set_ai_detail Sample.post (ai_summary Sample.post);
     set_ai_detail Scenario.silent (ai_summary Scenario.silent);
     set_ai_detail Sample.second_post (JStr "{ai}")]
  ∧ (enrich_detail_with_llm Sample.failing_first 0
       [Sample.post; Scenario.silent; Sample.second_post]).1 !! 2%nat
    = Some (set_ai_detail Sample.second_post (JStr "{ai}"))
  ∧ (enrich_detail_with_llm Sample.failing_first 0
       [Sample.post; Scenario.silent; Sample.second_post]).2 = 2%nat.
Proof.
  split; [vm_compute; reflexivity|].
  destruct (enrich_detail_fallback Sample.failing_first 0
              [Sample.post; Scenario.silent; Sample.second_post] 2 Sample.second_post
              eq_refl) as (Hlookup & _ & Hcalls).
  split; [exact Hlookup|exact Hcalls].
Defined.

(** ** Outbound notification: the order of the selection *)










(** Two items of the same category dated a microsecond apart on 1 January
    2300 have the same timestamp, and are selected in the order of the
    input, earlier first; dated a second apart, the later one comes first. *)
Example select_top_articles_float_tie :
  timestamp (mk_datetime 2300 1 1 0 0 0 1) = timestamp (mk_datetime 2300 1 1 0 0 0 2)
  ∧ (map title <$>
       _select_top_articles
         [Sample.article "early" "https://example.com/e"
            (Some (mk_datetime 2300 1 1 0 0 0 1));
          Sample.article "late" "https://example.com/l"
            (Some (mk_datetime 2300 1 1 0 0 0 2))] 5)
    = Some ["early"; "late"]
  ∧ (map title <$>
       _select_top_articles
         [Sample.article "early" "https://example.com/e"
            (Some (mk_datetime 2300 1 1 0 0 0 0));
          Sample.article "late" "https://example.com/l"
            (Some (mk_datetime 2300 1 1 0 0 1 0))] 5)
    = Some ["late"; "early"]
  ∧ timestamp (mk_datetime 2300 1 1 0 0 0 1) * 2 ^ 19
    = 10413792000 * 2 ^ 99 + 2 ^ 80
  ∧ timestamp (mk_datetime 1970 1 1 0 0 1 500000) * 2 = 3 * 2 ^ 80.
Proof. vm_compute. done. Qed.

(** ** Categories of the rendered digest *)

Lemma display_name_of_category (a : Article) :
  (display_name_of a = Some (Some DISPLAY_AI) ↔ category a = JStr "AI")
  ∧ (display_name_of a = Some (Some DISPLAY_TECH) ↔ category a = JStr "科技")
  ∧ (display_name_of a = Some (Some DISPLAY_BUSINESS) ↔ category a = JStr "商业").
Proof.
  unfold display_name_of.
  destruct (category a) as [|b|z|f|s|l|m]; cbn [truthy].
  1: by repeat split.
  1: by destruct b; repeat split.
  1: by destruct (negb (z =? 0)); repeat split.
  1: by destruct (negb _); repeat split.
  3: by destruct (negb _); repeat split.
  2: by destruct l; repeat split.
  destruct (str_truthy s) eqn:Hs.
  - unfold category_mapping_get.
    destruct (String.eqb_spec s "AI") as [->|H1]; [by repeat split|].
    destruct (String.eqb_spec s "科技") as [->|H2]; [by repeat split|].
    destruct (String.eqb_spec s "商业") as [->|H3]; [by repeat split|].
    repeat split; try discriminate; intros [= ->]; done.
  - destruct s; [|discriminate]. by repeat split.
Qed.

Lemma display_name_of_cases (a : Article) (d : string) :
  display_name_of a = Some (Some d) →
  d = DISPLAY_AI ∨ d = DISPLAY_TECH ∨ d = DISPLAY_BUSINESS.
Proof.
  unfold display_name_of.
  destruct (if truthy (category a) then category a else JStr OTHER); try discriminate.
  unfold category_mapping_get.
  repeat (destruct (String.eqb _ _); [intros [= <-]; auto|]). discriminate.
Qed.

Lemma display_names_differ (d d' : string) :
  (d, d') ∈ [(DISPLAY_AI, DISPLAY_TECH); (DISPLAY_AI, DISPLAY_BUSINESS);
             (DISPLAY_TECH, DISPLAY_AI); (DISPLAY_TECH, DISPLAY_BUSINESS);
             (DISPLAY_BUSINESS, DISPLAY_AI); (DISPLAY_BUSINESS, DISPLAY_TECH)] →
  Some (Some d) ≠ Some (Some d').
Proof.
  intros Hin [= Heq]. revert Hin. subst d'.
  rewrite !elem_of_cons, elem_of_nil.
  unfold DISPLAY_AI, DISPLAY_TECH, DISPLAY_BUSINESS.
  intros [H|[H|[H|[H|[H|[H|[]]]]]]]; injection H as -> H; discriminate.
Qed.

Lemma categorize_loop_unhashable (articles : list Article)
    (categories : list (string * list Article)) :
  Exists (λ a, display_name_of a = None) articles →
  categorize_loop articles categories = None.
Proof.
  intros H. revert categories. induction H as [a l Ha|a l _ IH]; intros categories; simpl.
  - by rewrite Ha.
  - destruct (display_name_of a) as [[d|]|]; [|done..].
    by destruct (bool_decide _).
Qed.

Lemma categorize_loop_buckets (articles x y z : list Article) :
  Forall (λ a, display_name_of a ≠ None) articles →
  categorize_loop articles [(DISPLAY_AI, x); (DISPLAY_TECH, y); (DISPLAY_BUSINESS, z)]
  = Some [(DISPLAY_AI,
           x ++ filter (λ a, display_name_of a = Some (Some DISPLAY_AI)) articles);
          (DISPLAY_TECH,
           y ++ filter (λ a, display_name_of a = Some (Some DISPLAY_TECH)) articles);
          (DISPLAY_BUSINESS,
           z ++ filter (λ a, display_name_of a = Some (Some DISPLAY_BUSINESS)) articles)].
Proof.
  intros H. revert x y z. induction H as [|a l Ha _ IH]; intros x y z.
  - simpl. by rewrite !filter_nil, !app_nil_r.
  - cbn [categorize_loop]. rewrite !(filter_cons _ a).
    destruct (display_name_of a) as [[d|]|] eqn:Hd; [| |done].
    + destruct (display_name_of_cases a d Hd) as [->|[->| ->]].
      * rewrite bool_decide_eq_true_2 by (cbn; set_solver).
        change (append_to DISPLAY_AI a
                  [(DISPLAY_AI, x); (DISPLAY_TECH, y); (DISPLAY_BUSINESS, z)])
          with [(DISPLAY_AI, x ++ [a]); (DISPLAY_TECH, y); (DISPLAY_BUSINESS, z)].
        rewrite IH. repeat case_decide; try (by rewrite <- ?app_assoc); exfalso;
          repeat match goal with
                 | H : Some (Some _) = Some (Some _) |- _ =>
                     first [by eapply display_names_differ; [|exact H]; set_solver
                           |clear H]
                 | H : Some (Some _) ≠ Some (Some _) |- _ => by apply H
                 end.
      * rewrite bool_decide_eq_true_2 by (cbn; set_solver).
        change (append_to DISPLAY_TECH a
                  [(DISPLAY_AI, x); (DISPLAY_TECH, y); (DISPLAY_BUSINESS, z)])
          with [(DISPLAY_AI, x); (DISPLAY_TECH, y ++ [a]); (DISPLAY_BUSINESS, z)].
        rewrite IH. repeat case_decide; try (by rewrite <- ?app_assoc); exfalso;
          repeat match goal with
                 | H : Some (Some _) = Some (Some _) |- _ =>
                     first [by eapply display_names_differ; [|exact H]; set_solver
                           |clear H]
                 | H : Some (Some _) ≠ Some (Some _) |- _ => by apply H
                 end.
      * rewrite bool_decide_eq_true_2 by (cbn; set_solver).
        change (append_to DISPLAY_BUSINESS a
                  [(DISPLAY_AI, x); (DISPLAY_TECH, y); (DISPLAY_BUSINESS, z)])
          with [(DISPLAY_AI, x); (DISPLAY_TECH, y); (DISPLAY_BUSINESS, z ++ [a])].
        rewrite IH. repeat case_decide; try (by rewrite <- ?app_assoc); exfalso;
          repeat match goal with
                 | H : Some (Some _) = Some (Some _) |- _ =>
                     first [by eapply display_names_differ; [|exact H]; set_solver
                           |clear H]
                 | H : Some (Some _) ≠ Some (Some _) |- _ => by apply H
                 end.
    + rewrite !decide_False by done. apply IH.
Qed.

(** X19. [categorize_articles] sorts the articles into the three display
    categories by their [category] field ("AI", technology, business), each
    bucket keeping the order of the input; an article of any other category
    (the category "other" included) is in no bucket, and a bucket that stays
    empty is left out. It raises exactly when some category is a list or a
    dictionary that is not empty. *)
Theorem categorize_articles_buckets (articles : list Article) :
  categorize_articles articles
  = (if bool_decide (Exists (λ a, display_name_of a = None) articles) then None
     else Some (filter (λ kv, kv.2 ≠ [])
                  [(DISPLAY_AI, filter (λ a, json_eq_str (category a) "AI" = true) articles);
                   (DISPLAY_TECH, filter (λ a, json_eq_str (category a) "科技" = true) articles);
                   (DISPLAY_BUSINESS, filter (λ a, json_eq_str (category a) "商业" = true) articles)]))
  ∧ ∀ a, display_name_of a = None ↔
         truthy (category a) = true
         ∧ ((∃ l, category a = JArr l) ∨ (∃ m, category a = JObj m)).
Proof.
  split.
  - unfold categorize_articles. case_bool_decide as Hex.
    + by rewrite categorize_loop_unhashable.
    + rewrite categorize_loop_buckets.
      * simpl. do 2 f_equal. f_equal; [|f_equal; [|f_equal]]; f_equal;
          apply list_filter_iff; intros a; rewrite json_eq_str_true;
          apply display_name_of_category.
      * apply Forall_forall. intros a Ha Hn. apply Hex, Exists_exists. eauto.
  - intros a. unfold display_name_of.
    destruct (category a) as [|b|z|f|s|l|m]; cbn [truthy].
    + split; [discriminate|]. intros [_ [[? ?]|[? ?]]]; discriminate.
    + destruct b; (split; [discriminate|]); intros [_ [[? ?]|[? ?]]]; discriminate.
    + destruct (negb (z =? 0)); (split; [discriminate|]);
        intros [_ [[? ?]|[? ?]]]; discriminate.
    + destruct (negb _); (split; [discriminate|]); intros [_ [[? ?]|[? ?]]]; discriminate.
    + destruct (str_truthy s); (split; [discriminate|]);
        intros [_ [[? ?]|[? ?]]]; discriminate.
    + destruct l; cbn.
      * split; [discriminate|]. intros [? _]; discriminate.
      * split; [eauto|done].
    + destruct (negb _) eqn:Hm.
      * split; [eauto|done].
      * split; [discriminate|]. intros [? _]; discriminate.
Qed.

(** ** Pipeline orchestrator: what a pass returns and what it writes *)

Lemma StronglySorted_sublist {A : Type} (R : A → A → Prop) (l k : list A) :
  l `sublist_of` k → StronglySorted R k → StronglySorted R l.
Proof.
  induction 1 as [|x l k Hsub IH|x l k Hsub IH]; intros Hs.
  - constructor.
  - apply StronglySorted_inv in Hs as [Hs Hx]. constructor; [by apply IH|].
    apply Forall_forall. intros y Hy. eapply Forall_forall in Hx; [exact Hx|].
    by eapply elem_of_sublist.
  - apply StronglySorted_inv in Hs as [Hs _]. by apply IH.
Qed.

Lemma StronglySorted_Forall2 {A : Type} (R S : A → A → Prop) (l k : list A) :
  (∀ x y x' y', S x x' → S y y' → R x y → R x' y') →
  Forall2 S l k → StronglySorted R l → StronglySorted R k.
Proof.
  intros HR H. induction H as [|x x' l k Hx H IH]; intros Hs; [constructor|].
  apply StronglySorted_inv in Hs as [Hs Hall]. constructor; [by apply IH|].
  clear IH Hs. induction H as [|y y' l k Hy _ IH]; [constructor|].
  apply Forall_cons in Hall as [Hxy Hall]. constructor; [by eapply HR|by apply IH].
Qed.

Lemma enrich_feed_fields (pages : nat → page_response) (articles : list Article) :
  Forall2 (λ a a', feed_fields a' = feed_fields a)
          articles (enrich_articles_with_full_content pages articles).
Proof.
  apply Forall2_same_length_lookup. split; [by rewrite enrich_length|].
  intros i a a' Ha Ha'. unfold enrich_articles_with_full_content in Ha'.
  rewrite list_lookup_imap, Ha in Ha'. injection Ha' as <-.
  unfold bounded_fetch. by destruct (str_truthy _).
Qed.

(** A pass that returns has gone through its first part. *)
Lemma fetch_and_process_outcome_items (w : pass_world) (days : Z) (since : option datetime)
    (webhook_url : option string) (sent_db : option (gmap string json))
    (enable_filter : bool) (file : sent_db_file) (articles : list Article) :
  pass_outcome (fetch_and_process w days since webhook_url sent_db enable_filter file)
  = Returned articles →
  pass_items w days since sent_db enable_filter = Returned articles.
Proof.
  unfold fetch_and_process.
  destruct (pass_items w days since sent_db enable_filter) as [[|a rest]|];
    [done| |discriminate].
  destruct (w_render w (a :: rest)); cbn [negb]; [|discriminate].
  destruct (if webhook_set webhook_url then _ else _) as [[message log]|];
    [|discriminate].
  destruct sent_db as [db|]; [|done].
  destruct (w_save w) as [|leftover]; [done|discriminate].
Qed.

(** The items the first part of a pass ends with, and the fetched items they
    come from. *)
Lemma pass_items_returned (w : pass_world) (days : Z) (since : option datetime)
    (sent_db : option (gmap string json)) (enable_filter : bool) (articles : list Article) :
  pass_items w days since sent_db enable_filter = Returned articles →
  ∃ s feeds kept,
    match since with Some s => Some s | None => sub_days (w_now w) days end = Some s
    ∧ w_feeds w = Some feeds
    ∧ kept `sublist_of`
        match sent_db with
        | Some db =>
            filter_new_articles
              (fetch_all_feeds (w_date_parser w) (w_from_struct_time w) (w_clean_html w)
                               (w_http w) feeds s) db
        | None =>
            fetch_all_feeds (w_date_parser w) (w_from_struct_time w) (w_clean_html w)
                            (w_http w) feeds s
        end
    ∧ Forall2 (λ a a', feed_fields a' = feed_fields a) kept articles.
Proof.
  unfold pass_items.
  destruct (match since with Some s => Some s | None => sub_days (w_now w) days end)
    as [s|]; [|discriminate].
  destruct (w_feeds w) as [feeds|]; [|discriminate].
  set (fetched := fetch_all_feeds _ _ _ _ feeds s).
  intros H. exists s, feeds.
  destruct fetched as [|a0 rest0] eqn:Hf.
  { injection H as <-. exists []. repeat split; [|constructor]. apply sublist_nil_l. }
  rewrite <- Hf in *. clear Hf a0 rest0.
  set (new := match sent_db with
              | Some db => filter_new_articles fetched db
              | None => fetched
              end) in *.
  destruct new as [|a1 rest1] eqn:Hn.
  { injection H as <-. exists []. repeat split; [|constructor]. apply sublist_nil_l. }
  rewrite <- Hn in *. clear Hn a1 rest1. injection H as <-.
  destruct (ai_summarize_articles_kept (w_json_loads w) (w_llm w)
              (enrich_articles_with_full_content (w_pages w) new) enable_filter)
    as (kept' & Hsub & Hshape).
  assert (Hback : ∃ kept, kept `sublist_of` new
                          ∧ Forall2 (λ a a', feed_fields a' = feed_fields a) kept kept').
  { pose proof (enrich_feed_fields (w_pages w) new) as He. clear Hshape.
    revert kept' Hsub. induction He as [|a a' l l' Ha He IH]; intros kept' Hsub.
    - apply sublist_nil_r in Hsub as ->. exists []. split; [done|constructor].
    - apply sublist_cons_r in Hsub as [Hsub|(k' & -> & Hsub)].
      + destruct (IH _ Hsub) as (kept & Hk & HF). exists kept.
        split; [by apply sublist_cons|done].
      + destruct (IH _ Hsub) as (kept & Hk & HF). exists (a :: kept).
        split; [by apply sublist_skip|by constructor]. }
  destruct Hback as (kept & Hk & HF). exists kept. repeat split; [done|].
  eapply Forall2_trans; [|exact HF|exact Hshape].
  intros a a' a'' Ha (r & detail & ->). by rewrite <- Ha.
Qed.

(** X20. What a pass returns comes from the feeds: its items are items of
    the fetched aggregate with their feed fields unchanged, in the order of
    the aggregate, so latest first, and none is dated before [since]. *)
Theorem pass_output_from_feeds (w : pass_world) (days : Z) (since : option datetime)
    (webhook_url : option string) (sent_db : option (gmap string json))
    (enable_filter : bool) (file : sent_db_file) (articles : list Article) :
  pass_outcome (fetch_and_process w days since webhook_url sent_db enable_filter file)
  = Returned articles →
  ∃ s feeds kept,
    match since with Some s => Some s | None => sub_days (w_now w) days end = Some s
    ∧ w_feeds w = Some feeds
    ∧ kept `sublist_of`
        fetch_all_feeds (w_date_parser w) (w_from_struct_time w) (w_clean_html w)
                        (w_http w) feeds s
    ∧ feed_fields <$> articles = feed_fields <$> kept
    ∧ StronglySorted (λ a b, sort_key b ≤ sort_key a) articles
    ∧ Forall (λ a, ∀ d, published a = Some d → s ≤ d) articles.
Proof.
  intros H. apply fetch_and_process_outcome_items, pass_items_returned in H
    as (s & feeds & kept & Hs & Hfeeds & Hsub & HF).
  exists s, feeds, kept. split; [done|]. split; [done|].
  assert (Hsub' : kept `sublist_of`
            fetch_all_feeds (w_date_parser w) (w_from_struct_time w) (w_clean_html w)
                            (w_http w) feeds s).
  { destruct sent_db as [db|]; [|done].
    etrans; [exact Hsub|]. apply sublist_filter. }
  split; [done|]. split; [|split].
  - clear -HF. induction HF as [|a a' l l' Ha _ IH]; [done|].
    by rewrite !fmap_cons, IH, Ha.
  - eapply (StronglySorted_Forall2 _ (λ a a', feed_fields a' = feed_fields a));
      [|exact HF|].
    + intros x y x' y' Hx Hy Hxy. unfold sort_key, feed_fields in *.
      injection Hx as _ _ _ -> _ _ _. injection Hy as _ _ _ -> _ _ _. done.
    + eapply StronglySorted_sublist; [exact Hsub'|]. unfold fetch_all_feeds.
      apply (sort_desc_sorted sort_key).
  - pose proof (fetch_all_feeds_published (w_date_parser w) (w_from_struct_time w)
                  (w_clean_html w) (w_http w) feeds s) as Hp.
    apply Forall_forall. intros a' Ha' d Hd.
    apply list_elem_of_lookup in Ha' as [i Hi].
    destruct (Forall2_lookup_r _ _ _ _ _ HF Hi) as (a & Ha & Hfields).
    apply list_elem_of_lookup_2 in Ha. eapply elem_of_sublist in Ha; [|exact Hsub'].
    eapply Forall_forall in Hp; [|exact Ha]. apply Hp.
    unfold feed_fields in Hfields. injection Hfields as _ _ _ Hpub _ _ _. congruence.
Qed.

(** X21. A pass never returns an item whose identity has a record in the
    mapping it was given: what was sent is not sent again. *)
Theorem pass_never_resends (w : pass_world) (days : Z) (since : option datetime)
    (webhook_url : option string) (db : gmap string json)
    (enable_filter : bool) (file : sent_db_file) (articles : list Article) :
  pass_outcome (fetch_and_process w days since webhook_url (Some db) enable_filter file)
  = Returned articles →
  Forall (λ a, db !! _article_id a = None) articles.
Proof.
  intros H. apply fetch_and_process_outcome_items, pass_items_returned in H
    as (s & feeds & kept & _ & _ & Hsub & HF).
  apply Forall_forall. intros a' Ha'.
  apply list_elem_of_lookup in Ha' as [i Hi].
  destruct (Forall2_lookup_r _ _ _ _ _ HF Hi) as (a & Ha & Hfields).
  apply list_elem_of_lookup_2 in Ha. eapply elem_of_sublist in Ha; [|exact Hsub].
  unfold filter_new_articles in Ha. apply list_elem_of_filter in Ha as [Hnew _].
  rewrite (article_id_link a' a); [done|].
  unfold feed_fields in Hfields. by injection Hfields as _ Hlink _ _ _ _ _.
Qed.

Lemma pass_output_from_feeds_witness :
  pass_outcome Sample.pass = Returned Sample.pass_output
  ∧ StronglySorted (λ a b, sort_key b ≤ sort_key a) Sample.pass_output
  ∧ Forall (λ a, ∀ d, published a = Some d → mk_datetime 2024 1 1 0 0 0 0 ≤ d)
           Sample.pass_output.
Proof.
  assert (Hret : pass_outcome Sample.pass = Returned Sample.pass_output)
    by (vm_compute; reflexivity).
  split; [exact Hret|].
  destruct (pass_output_from_feeds Sample.world 1 (Some (mk_datetime 2024 1 1 0 0 0 0))
              (Some Sample.webhook) (Some ∅) true NoFile Sample.pass_output Hret)
    as (s & feeds & kept & Hs & _ & _ & _ & Hsorted & Hsince).
  injection Hs as <-. split; [exact Hsorted|exact Hsince].
Defined.

Lemma pass_never_resends_witness :
  pass_outcome Scenario.second_pass = Returned Scenario.second_output
  ∧ length Scenario.second_output = 5%nat
  ∧ size Scenario.half_sent = 5%nat
  ∧ Forall (λ a, Scenario.half_sent !! _article_id a = None) Scenario.second_output.
Proof.
  assert (Hret : pass_outcome Scenario.second_pass = Returned Scenario.second_output)
    by (vm_compute; reflexivity).
  split; [exact Hret|]. split; [reflexivity|]. split; [vm_compute; reflexivity|].
  exact (pass_never_resends Sample.world 1 (Some (mk_datetime 2024 1 1 0 0 0 0))
           (Some Sample.webhook) Scenario.half_sent true NoFile Scenario.second_output Hret).
Defined.

(** ** Pipeline orchestrator: the stored file *)

(** A pass that reaches the save: its result is decided by what the save
    does. *)
Lemma fetch_and_process_reaches_save (w : pass_world) (days : Z) (since : option datetime)
    (webhook_url : option string) (db : gmap string json) (enable_filter : bool)
    (file : sent_db_file) (articles : list Article) (message : option wecom_message)
    (log : delivery_log) :
  pass_items w days since (Some db) enable_filter = Returned articles →
  articles ≠ [] →
  w_render w articles = true →
  (if webhook_set webhook_url
   then send_to_wecom (w_post w) articles (w_page_url w)
   else Returned (None, LogNothingToSend)) = Returned (message, log) →
  fetch_and_process w days since webhook_url (Some db) enable_filter file
  = match w_save w with
    | SaveWritten =>
        {| pass_outcome := Returned articles;
           pass_sent_db := Some (mark_as_sent (w_clock w) articles db);
           pass_file := save_sent_db (mark_as_sent (w_clock w) articles db);
           pass_message := message |}
    | SaveRaised leftover =>
        {| pass_outcome := Raised;
           pass_sent_db := Some (mark_as_sent (w_clock w) articles db);
           pass_file := default file leftover;
           pass_message := message |}
    end.
Proof.
  intros Hitems Hne Hrender Hsend. unfold fetch_and_process. rewrite Hitems.
  destruct articles as [|a rest]; [done|]. rewrite Hrender. cbn [negb]. rewrite Hsend.
  by destruct (w_save w).
Qed.

(** X22. A pass writes the store only by the save at its end. A pass that
    raises before the save leaves the file as it was; when the save itself
    raises, the mapping in memory is already marked and the file is either
    untouched or what the interrupted write left of it. A pass that returns
    nothing leaves the file and the mapping alone and hands nothing to the
    webhook. Without a mapping the file is never written. A pass that
    returns items with a mapping has stored the marked mapping. And a pass
    that reaches the save (it has items, the page is rendered, the message
    is built, a mapping is given) ends as the save does: the marked mapping
    stored and the items returned, or an exception and the file as the
    failed save left it. *)
Theorem pass_writes_only_by_saving (w : pass_world) (days : Z) (since : option datetime)
    (webhook_url : option string) (sent_db : option (gmap string json))
    (enable_filter : bool) (file : sent_db_file) :
  (∀ db articles message log,
     sent_db = Some db →
     pass_items w days since sent_db enable_filter = Returned articles →
     articles ≠ [] →
     w_render w articles = true →
     (if webhook_set webhook_url
      then send_to_wecom (w_post w) articles (w_page_url w)
      else Returned (None, LogNothingToSend)) = Returned (message, log) →
     fetch_and_process w days since webhook_url sent_db enable_filter file
     = match w_save w with
       | SaveWritten =>
           {| pass_outcome := Returned articles;
              pass_sent_db := Some (mark_as_sent (w_clock w) articles db);
              pass_file := save_sent_db (mark_as_sent (w_clock w) articles db);
              pass_message := message |}
       | SaveRaised leftover =>
           {| pass_outcome := Raised;
              pass_sent_db := Some (mark_as_sent (w_clock w) articles db);
              pass_file := default file leftover;
              pass_message := message |}
       end)
  ∧ match pass_outcome (fetch_and_process w days since webhook_url sent_db enable_filter file)
  with
  | Raised =>
      pass_file (fetch_and_process w days since webhook_url sent_db enable_filter file)
      = file
      ∨ ∃ db articles leftover,
          sent_db = Some db
          ∧ pass_items w days since sent_db enable_filter = Returned articles
          ∧ w_save w = SaveRaised (Some leftover)
          ∧ pass_sent_db (fetch_and_process w days since webhook_url sent_db
                                            enable_filter file)
            = Some (mark_as_sent (w_clock w) articles db)
          ∧ pass_file (fetch_and_process w days since webhook_url sent_db enable_filter
                                         file) = leftover
  | Returned [] =>
      fetch_and_process w days since webhook_url sent_db enable_filter file
      = {| pass_outcome := Returned []; pass_sent_db := sent_db; pass_file := file;
           pass_message := None |}
  | Returned articles =>
      match sent_db with
      | None =>
          pass_sent_db (fetch_and_process w days since webhook_url sent_db enable_filter
                                          file) = None
          ∧ pass_file (fetch_and_process w days since webhook_url sent_db enable_filter
                                         file) = file
      | Some db =>
          w_save w = SaveWritten
          ∧ pass_sent_db (fetch_and_process w days since webhook_url sent_db
                                            enable_filter file)
            = Some (mark_as_sent (w_clock w) articles db)
          ∧ pass_file (fetch_and_process w days since webhook_url sent_db enable_filter
                                         file)
            = save_sent_db (mark_as_sent (w_clock w) articles db)
      end
  end.
Proof.
  split.
  { intros db articles message log -> Hitems Hne Hrender Hsend.
    by eapply fetch_and_process_reaches_save. }
  unfold fetch_and_process.
  destruct (pass_items w days since sent_db enable_filter) as [[|a rest]|] eqn:Hitems;
    [done| |by left].
  destruct (w_render w (a :: rest)); cbn [negb]; [|by left].
  destruct (if webhook_set webhook_url then _ else _) as [[message log]|]; [|by left].
  destruct sent_db as [db|]; [|done].
  destruct (w_save w) as [|[leftover|]] eqn:Hsave; cbn [pass_outcome pass_file default].
  - done.
  - right. exists db, (a :: rest), leftover. done.
  - by left.
Qed.

(** A pass whose save raises inside the write: the ten items were handed to
    the webhook, the pass raises, and the file that held three records is
    left undecodable, so that the next load finds no record at all. *)
Example failed_save_example :
  pass_outcome (fetch_and_process Scenario.disk_full 1
                  (Some (mk_datetime 2024 1 1 0 0 0 0)) (Some Sample.webhook)
                  (Some ∅) true (Stored (JObj Sample.stored))) = Raised
  ∧ pass_file (fetch_and_process Scenario.disk_full 1
                 (Some (mk_datetime 2024 1 1 0 0 0 0)) (Some Sample.webhook)
                 (Some ∅) true (Stored (JObj Sample.stored))) = Unreadable
  ∧ (msg_total_count <$>
       pass_message (fetch_and_process Scenario.disk_full 1
                       (Some (mk_datetime 2024 1 1 0 0 0 0)) (Some Sample.webhook)
                       (Some ∅) true (Stored (JObj Sample.stored)))) = Some 10%nat
  ∧ load_sent_db Sample.now Unreadable = ∅.
Proof. vm_compute. done. Qed.

(** Without a webhook and without a mapping, a pass is its first part and the
    rendering of the page. *)
Lemma fetch_and_process_plain (w : pass_world) (days : Z) (since : option datetime)
    (webhook_url : option string) (enable_filter : bool) (file : sent_db_file) :
  webhook_set webhook_url = false →
  fetch_and_process w days since webhook_url None enable_filter file
  = {| pass_outcome := match pass_items w days since None enable_filter with
                       | Returned [] => Returned []
                       | Returned articles =>
                           if w_render w articles then Returned articles else Raised
                       | Raised => Raised
                       end;
       pass_sent_db := None; pass_file := file; pass_message := None |}.
Proof.
  intros Hweb. unfold fetch_and_process. rewrite Hweb.
  destruct (pass_items w days since None enable_filter) as [[|a rest]|]; [done| |done].
  by destruct (w_render w (a :: rest)).
Qed.

(** X23. Without a webhook, [run_digest] neither reads nor writes the store
    and hands nothing to the webhook: the file is left as it was, and what is
    returned and whether the Markdown digest is written do not depend on the
    file or on the clock of the store. *)
Theorem run_digest_without_webhook (w : pass_world) (load_now : datetime)
    (markdown : list Article → bool) (days : Z) (webhook_url : option string)
    (enable_filter : bool) (file : sent_db_file) :
  webhook_set webhook_url = false →
  pass_file (digest_pass (run_digest w load_now markdown days webhook_url enable_filter
                                     file)) = file
  ∧ pass_sent_db (digest_pass (run_digest w load_now markdown days webhook_url
                                          enable_filter file)) = None
  ∧ pass_message (digest_pass (run_digest w load_now markdown days webhook_url
                                          enable_filter file)) = None
  ∧ ∀ load_now' file',
      pass_outcome (digest_pass (run_digest w load_now' markdown days webhook_url
                                            enable_filter file'))
      = pass_outcome (digest_pass (run_digest w load_now markdown days webhook_url
                                              enable_filter file))
      ∧ digest_markdown_saved (run_digest w load_now' markdown days webhook_url
                                          enable_filter file')
        = digest_markdown_saved (run_digest w load_now markdown days webhook_url
                                            enable_filter file).
Proof.
  intros Hweb.
  assert (Hrun : ∀ load_now file,
    run_digest w load_now markdown days webhook_url enable_filter file
    = match sub_days (w_now w) days with
      | None =>
          {| digest_pass := {| pass_outcome := Raised; pass_sent_db := None;
                               pass_file := file; pass_message := None |};
             digest_markdown_saved := false |}
      | Some since =>
          match pass_items w days (Some since) None enable_filter with
          | Returned [] =>
              {| digest_pass := {| pass_outcome := Returned []; pass_sent_db := None;
                                   pass_file := file; pass_message := None |};
                 digest_markdown_saved := false |}
          | Returned articles =>
              {| digest_pass :=
                   {| pass_outcome := if w_render w articles && markdown articles
                                      then Returned articles else Raised;
                      pass_sent_db := None; pass_file := file; pass_message := None |};
                 digest_markdown_saved := w_render w articles && markdown articles |}
          | Raised =>
              {| digest_pass := {| pass_outcome := Raised; pass_sent_db := None;
                                   pass_file := file; pass_message := None |};
                 digest_markdown_saved := false |}
          end
      end).
  { intros ln f. unfold run_digest. destruct (sub_days (w_now w) days) as [s|]; [|done].
    rewrite Hweb, fetch_and_process_plain by done. cbn [pass_outcome].
    destruct (pass_items w days (Some s) None enable_filter) as [[|a rest]|]; [done| |done].
    destruct (w_render w (a :: rest)); [|done]. cbn [andb pass_sent_db pass_file pass_message].
    by destruct (markdown (a :: rest)). }
  rewrite !Hrun.
  repeat split.
  - destruct (sub_days (w_now w) days) as [s|]; [|done].
    by destruct (pass_items w days (Some s) None enable_filter) as [[|a rest]|].
  - destruct (sub_days (w_now w) days) as [s|]; [|done].
    by destruct (pass_items w days (Some s) None enable_filter) as [[|a rest]|].
  - destruct (sub_days (w_now w) days) as [s|]; [|done].
    by destruct (pass_items w days (Some s) None enable_filter) as [[|a rest]|].
  - rewrite !Hrun. destruct (sub_days (w_now w) days) as [s|]; [|done].
    by destruct (pass_items w days (Some s) None enable_filter) as [[|a rest]|].
  - rewrite !Hrun. destruct (sub_days (w_now w) days) as [s|]; [|done].
    by destruct (pass_items w days (Some s) None enable_filter) as [[|a rest]|].
Qed.

(** ** Poll loop: the file and the interruption *)

Section PollLoopMore.
Variable env : nat → round_env.
Variable webhook_url : string.
Variable interval : Z.
Variable days : Z.
Variable enable_filter : bool.

Local Abbreviation round_body := (round_body env webhook_url days enable_filter).
Local Abbreviation watch_step := (watch_step env webhook_url interval days enable_filter).
Local Abbreviation watch_steps := (watch_steps env webhook_url interval days enable_filter).

(** X24. A round changes the stored file only by the save at the end of its
    pass: a round that finds nothing leaves the file as it was; a round that
    fails leaves it as it was, unless it is the save that raised after
    opening the file, and then the file is what the interrupted write left;
    and a round that logs [count] pushed items has returned that many items,
    at least one, and has stored the loaded mapping with these items
    marked. And a round whose pass reaches the save ends as the save does:
    the items pushed and the marked mapping stored, or the error of the
    round and the file as the failed save left it. *)
Theorem round_writes_only_by_saving (n : nat) (file : sent_db_file) :
  (∀ since articles message log,
     sub_days (r_now (env n)) days = Some since →
     pass_items (r_world (env n)) days (Some since)
                (Some (load_sent_db (r_load_now (env n)) file)) enable_filter
     = Returned articles →
     articles ≠ [] →
     w_render (r_world (env n)) articles = true →
     (if webhook_set (Some webhook_url)
      then send_to_wecom (w_post (r_world (env n))) articles (w_page_url (r_world (env n)))
      else Returned (None, LogNothingToSend)) = Returned (message, log) →
     round_body n file
     = match w_save (r_world (env n)) with
       | SaveWritten =>
           (LogPushed (length articles),
            save_sent_db (mark_as_sent (w_clock (r_world (env n))) articles
                            (load_sent_db (r_load_now (env n)) file)))
       | SaveRaised leftover => (LogRoundError, default file leftover)
       end)
  ∧ match (round_body n file).1 with
  | LogPushed count =>
      ∃ since articles,
        sub_days (r_now (env n)) days = Some since
        ∧ pass_outcome
            (fetch_and_process (r_world (env n)) days (Some since) (Some webhook_url)
               (Some (load_sent_db (r_load_now (env n)) file)) enable_filter file)
          = Returned articles
        ∧ count = length articles
        ∧ (0 < count)%nat
        ∧ (round_body n file).2
          = save_sent_db (mark_as_sent (w_clock (r_world (env n))) articles
                            (load_sent_db (r_load_now (env n)) file))
  | LogIdle => (round_body n file).2 = file
  | LogRoundError =>
      (round_body n file).2 = file
      ∨ ∃ leftover,
          w_save (r_world (env n)) = SaveRaised (Some leftover)
          ∧ (round_body n file).2 = leftover
  | LogRound _ | LogWaiting _ => False
  end.
Proof.
  split.
  { intros since articles message log Hs Hitems Hne Hrender Hsend.
    unfold round_body. rewrite Hs.
    rewrite (fetch_and_process_reaches_save _ _ _ _ _ _ _ _ _ _ Hitems Hne Hrender Hsend).
    destruct (w_save (r_world (env n))); cbn [pass_outcome pass_file]; [|done].
    by destruct articles. }
  unfold round_body. destruct (sub_days (r_now (env n)) days) as [since|]; [|by left].
  set (r := fetch_and_process (r_world (env n)) days (Some since) (Some webhook_url)
              (Some (load_sent_db (r_load_now (env n)) file)) enable_filter file).
  assert (H : match pass_outcome r with
              | Returned [] => pass_file r = file
              | Returned articles =>
                  pass_file r
                  = save_sent_db (mark_as_sent (w_clock (r_world (env n))) articles
                                    (load_sent_db (r_load_now (env n)) file))
              | Raised =>
                  pass_file r = file
                  ∨ ∃ leftover,
                      w_save (r_world (env n)) = SaveRaised (Some leftover)
                      ∧ pass_file r = leftover
              end).
  { unfold r, fetch_and_process.
    destruct (pass_items _ _ _ _ _) as [[|a rest]|]; [done| |by left].
    destruct (w_render _ _); cbn [negb]; [|by left].
    destruct (if webhook_set (Some webhook_url) then _ else _) as [[message log]|];
      [|by left].
    destruct (w_save _) as [|[leftover|]] eqn:Hsave; cbn [pass_outcome pass_file default].
    - done.
    - right. by exists leftover.
    - by left. }
  destruct (pass_outcome r) as [[|a rest]|] eqn:Hout; cbn [fst snd]; [done| |done].
  exists since, (a :: rest). repeat split; try done. simpl. lia.
Qed.

Lemma watch_steps_stopped (k n : nat) (file : sent_db_file) :
  watch_steps k (Stopped n file) = (Stopped n file, []).
Proof.
  induction k as [|k IH]; [done|]. rewrite watch_steps_S, watch_step_stopped.
  cbn [fst snd]. by rewrite IH.
Qed.

(** X25. An interrupted sleep ends the loop for good: from then on the loop
    is stopped at the round it had reached, with the file that round left,
    and nothing more is logged. *)
Theorem cancelled_sleep_ends_loop (n : nat) (file : sent_db_file) (k : nat) :
  r_sleep_cancelled (env (S n)) = true →
  watch_steps (2 + k) (LoopHead n file)
  = (Stopped (S n) (round_body (S n) file).2,
     [LogRound (S n); (round_body (S n) file).1; LogWaiting interval]).
Proof.
  intros Hc. replace (2 + k)%nat with (S (S k)) by done.
  rewrite watch_steps_S, watch_step_head. cbn [fst snd].
  rewrite watch_steps_S, watch_step_cancelled by done. cbn [fst snd].
  by rewrite watch_steps_stopped.
Qed.

End PollLoopMore.

Lemma run_digest_without_webhook_witness :
  pass_file (digest_pass (run_digest Sample.world Sample.now (λ _, true) 1 (Some "") true
                                     (Stored (JObj Sample.stored))))
  = Stored (JObj Sample.stored)
  ∧ pass_sent_db (digest_pass (run_digest Sample.world Sample.now (λ _, true) 1 (Some "")
                                          true (Stored (JObj Sample.stored)))) = None.
Proof.
  destruct (run_digest_without_webhook Sample.world Sample.now (λ _, true) 1 (Some "") true
              (Stored (JObj Sample.stored)) eq_refl) as (Hfile & Hdb & _).
  split; [exact Hfile|exact Hdb].
Defined.

Lemma cancelled_sleep_ends_loop_witness :
  (watch_steps Scenario.interrupted Sample.webhook 30 1 true 7 (LoopHead 0 NoFile)).1
  = Stopped 1 (round_body Scenario.interrupted Sample.webhook 1 true 1 NoFile).2.
Proof.
  exact (f_equal fst (cancelled_sleep_ends_loop Scenario.interrupted Sample.webhook 30 1
                        true 0 NoFile 5 eq_refl)).
Defined.

(** ** Link of the day's page *)

Lemma string_app_nonempty (t : string) (c : ascii) : t +:+ String c "" ≠ "".
Proof. by destruct t. Qed.

Lemma rstrip_slash_app_slash (s : string) : rstrip_slash (s +:+ "/") = rstrip_slash s.
Proof.
  induction s as [|c s IH]; [done|].
  rewrite string_app_cons. cbn [rstrip_slash]. by rewrite IH.
Qed.

Lemma rstrip_slash_no_slash (s t : string) : rstrip_slash s ≠ t +:+ "/".
Proof.
  revert t. induction s as [|c s IH]; intros t; cbn [rstrip_slash].
  - intros H. by apply (string_app_nonempty t "/").
  - destruct (rstrip_slash s) as [|c' r] eqn:Hr.
    + destruct (Ascii.eqb_spec c "/") as [->|Hc].
      * intros H. by apply (string_app_nonempty t "/").
      * destruct t as [|x t]; [intros [= ->]; done|].
        rewrite string_app_cons. intros [= _ H]. by apply (string_app_nonempty t "/").
    + destruct t as [|x t]; [discriminate|].
      rewrite string_app_cons. intros [= _ H]. by apply (IH t).
Qed.

Lemma rstrip_slash_split (s : string) :
  ∃ k, s = rstrip_slash s +:+ string_of_list_ascii (repeat "/"%char k).
Proof.
  induction s as [|c s [k IH]]; [by exists 0%nat|]. cbn [rstrip_slash].
  destruct (rstrip_slash s) as [|c' r] eqn:Hr.
  - rewrite string_app_empty_l in IH. destruct (Ascii.eqb_spec c "/") as [->|Hc].
    + exists (S k). rewrite string_app_empty_l. cbn [repeat string_of_list_ascii].
      by rewrite <- IH.
    + exists k. rewrite string_app_cons, string_app_empty_l. by rewrite <- IH.
  - exists k. rewrite string_app_cons. by rewrite <- IH.
Qed.

(** X26. The link of the day's page is the configured address without its
    trailing slashes, a single slash, the date and [.html]; so a trailing
    slash in the configuration changes nothing. Without a date the day of
    the clock is used. *)
Theorem page_url_strips_trailing_slashes (pages_url today : string)
    (date_str : option string) :
  pages_url ≠ "" →
  ∃ base k,
    pages_url = base +:+ string_of_list_ascii (repeat "/"%char k)
    ∧ (∀ t, base ≠ t +:+ "/")
    ∧ _get_page_url pages_url today date_str
      = base +:+ "/" +:+ default today date_str +:+ ".html"
    ∧ _get_page_url (pages_url +:+ "/") today date_str
      = _get_page_url pages_url today date_str.
Proof.
  intros Hne. destruct (rstrip_slash_split pages_url) as [k Hk].
  exists (rstrip_slash pages_url), k. split; [exact Hk|].
  split; [apply rstrip_slash_no_slash|].
  unfold _get_page_url. rewrite rstrip_slash_app_slash.
  destruct pages_url as [|c s]; [done|]. rewrite string_app_cons. cbn [str_truthy negb].
  by destruct date_str.
Qed.

(** ** Source list *)

Lemma omap_flat_map {A B C : Type} (f : B → option C) (g : A → list B) (l : list A) :
  omap f (flat_map g l) = flat_map (λ x, omap f (g x)) l.
Proof.
  induction l as [|x l IH]; [done|]. cbn [flat_map]. by rewrite omap_app, IH.
Qed.

(** X27. [parse_opml] returns one source per outline that carries a
    non-empty [xmlUrl], in document order: an outline without one (a folder)
    gives no source of its own, and the outlines nested in any element are
    read like those at the top. Every source returned has a non-empty feed
    address; its name is the [text] of the outline, else its [title], else
    "Unknown". *)
Theorem parse_opml_sources (tag : string) (attrib : gmap string string)
    (children : list xml_element) :
  parse_opml (XmlElement tag attrib children)
  = (if String.eqb tag "outline"
     then match attrib !! "xmlUrl" with
          | Some xml_url =>
              if str_truthy xml_url
              then [ {| name := default (default "Unknown" (attrib !! "title"))
                                        (attrib !! "text");
                        xml_url := xml_url;
                        html_url := default "" (attrib !! "htmlUrl") |} ]
              else []
          | None => []
          end
     else [])
    ++ flat_map parse_opml children
  ∧ Forall (λ feed, xml_url feed ≠ "") (parse_opml (XmlElement tag attrib children))
  ∧ (length (parse_opml (XmlElement tag attrib children))
     ≤ length (xml_iter "outline" (XmlElement tag attrib children)))%nat.
Proof.
  split; [|split].
  - unfold parse_opml. cbn [xml_iter]. rewrite omap_app, omap_flat_map. f_equal.
    destruct (String.eqb tag "outline"); [|done].
    cbn [omap list_omap]. unfold feed_of_outline. cbn [xml_attrib].
    destruct (attrib !! "xmlUrl") as [u|]; [|done].
    destruct (str_truthy u); [|done].
    by destruct (attrib !! "text"), (attrib !! "title"), (attrib !! "htmlUrl").
  - apply Forall_forall. intros feed Hin. unfold parse_opml in Hin.
    apply list_elem_of_omap in Hin as (outline & _ & Hfeed).
    unfold feed_of_outline in Hfeed.
    destruct (xml_attrib outline !! "xmlUrl") as [u|]; [|discriminate].
    destruct (str_truthy u) eqn:Hu; [|discriminate].
    injection Hfeed as <-. cbn [xml_url]. by destruct u.
  - unfold parse_opml. generalize (xml_iter "outline" (XmlElement tag attrib children)).
    intros l. induction l as [|x l IH]; [done|]. cbn [omap list_omap length].
    destruct (feed_of_outline x); cbn [length]; fold (omap feed_of_outline l); lia.
Qed.

Lemma page_url_strips_trailing_slashes_witness :
  ∃ base k,
    "https://example.github.io/digest//" = base +:+ string_of_list_ascii (repeat "/"%char k)
    ∧ (∀ t, base ≠ t +:+ "/")
    ∧ _get_page_url "https://example.github.io/digest//" "2024-03-01" None
      = base +:+ "/" +:+ "2024-03-01" +:+ ".html"
    ∧ _get_page_url ("https://example.github.io/digest//" +:+ "/") "2024-03-01" None
      = _get_page_url "https://example.github.io/digest//" "2024-03-01" None.
Proof.
  apply (page_url_strips_trailing_slashes "https://example.github.io/digest//"
           "2024-03-01" None).
  discriminate.
Defined.

(** The folder gives no source, the feed without address is skipped, and the
    feed without text takes its title as name. *)
Example parse_opml_example :
  parse_opml Scenario.opml
  = [ {| name := "One"; xml_url := "https://one.example/feed";
         html_url := "https://one.example" |};
      {| name := "Two"; xml_url := "https://two.example/rss"; html_url := "" |} ].
Proof. vm_compute. reflexivity. Qed.

Example page_url_example :
  _get_page_url "https://example.github.io/digest//" "2024-03-01" None
  = "https://example.github.io/digest/2024-03-01.html".
Proof. vm_compute. reflexivity. Qed.

(** ** Batch transformer: the span of the reply that is decoded *)

Lemma list_ascii_of_string_app (a b : string) :
  list_ascii_of_string (a +:+ b) = list_ascii_of_string a ++ list_ascii_of_string b.
Proof.
  induction a as [|c a IH]; [done|].
  rewrite string_app_cons. cbn [list_ascii_of_string]. by rewrite IH.
Qed.

Lemma from_first_open_Some (s t : string) :
  from_first_open s = Some t →
  ∃ pre t', s = pre +:+ t ∧ t = String OPEN_BRACE t'
            ∧ (OPEN_BRACE ∉ list_ascii_of_string pre).
Proof.
  induction s as [|c s IH]; [discriminate|]. cbn [from_first_open].
  destruct (Ascii.eqb_spec c OPEN_BRACE) as [->|Hc].
  - intros [= <-]. exists "", s. repeat split. cbn. apply not_elem_of_nil.
  - intros H. destruct (IH H) as (pre & t' & -> & -> & Hpre).
    exists (String c pre), t'. repeat split. cbn [list_ascii_of_string].
    apply not_elem_of_cons. split; [congruence|done].
Qed.

Lemma from_first_open_None (s : string) :
  from_first_open s = None → OPEN_BRACE ∉ list_ascii_of_string s.
Proof.
  induction s as [|c s IH]; [intros _; apply not_elem_of_nil|]. cbn [from_first_open].
  destruct (Ascii.eqb_spec c OPEN_BRACE) as [->|Hc]; [discriminate|].
  intros H. cbn [list_ascii_of_string]. apply not_elem_of_cons. split; [congruence|auto].
Qed.

Lemma upto_last_close_None (t : string) :
  upto_last_close t = None → CLOSE_BRACE ∉ list_ascii_of_string t.
Proof.
  induction t as [|c t IH]; [intros _; apply not_elem_of_nil|]. cbn [upto_last_close].
  destruct (upto_last_close t); [discriminate|].
  destruct (Ascii.eqb_spec c CLOSE_BRACE) as [->|Hc]; [discriminate|].
  intros _. cbn [list_ascii_of_string]. apply not_elem_of_cons. split; [congruence|auto].
Qed.

Lemma upto_last_close_Some (t p : string) :
  upto_last_close t = Some p →
  ∃ p' post, t = p +:+ post ∧ p = p' +:+ String CLOSE_BRACE ""
             ∧ (CLOSE_BRACE ∉ list_ascii_of_string post).
Proof.
  revert p. induction t as [|c t IH]; intros p; [discriminate|]. cbn [upto_last_close].
  destruct (upto_last_close t) as [q|] eqn:Hq.
  - intros [= <-]. destruct (IH q eq_refl) as (p' & post & -> & -> & Hpost).
    exists (String c p'), post. by repeat split.
  - destruct (Ascii.eqb_spec c CLOSE_BRACE) as [->|Hc]; [|discriminate].
    intros [= <-]. exists "", t. repeat split. by apply upto_last_close_None.
Qed.

Lemma first_occurrence_suffix {A : Type} (c : A) (l1 l2 t X : list A) :
  c ∉ l1 → l1 ++ t = l2 ++ c :: X → ∃ mid, t = mid ++ c :: X.
Proof.
  revert l2. induction l1 as [|a l1 IH]; intros l2 Hc Heq.
  - by exists l2.
  - apply not_elem_of_cons in Hc as [Hca Hc]. destruct l2 as [|b l2].
    + simpl in Heq. injection Heq as -> _. done.
    + simpl in Heq. injection Heq as _ Heq. by apply (IH l2).
Qed.

(** X28. The span of a reply that is decoded is the one that the pattern
    of [re.search] (an opening brace, any text, a closing brace, with
    [re.DOTALL]) matches: it runs from the first opening brace of the reply
    to the last closing brace after it; there is none exactly when no
    opening brace is followed by a closing brace. *)
Theorem search_braces_span (s : string) :
  match search_braces s with
  | Some m =>
      ∃ pre inner post,
        s = pre +:+ m +:+ post
        ∧ m = String OPEN_BRACE (inner +:+ String CLOSE_BRACE "")
        ∧ (OPEN_BRACE ∉ list_ascii_of_string pre)
        ∧ (CLOSE_BRACE ∉ list_ascii_of_string post)
  | None =>
      ∀ pre inner post,
        s ≠ pre +:+ String OPEN_BRACE (inner +:+ String CLOSE_BRACE post)
  end.
Proof.
  unfold search_braces. destruct (from_first_open s) as [t|] eqn:Hopen.
  - destruct (from_first_open_Some s t Hopen) as (pre & t' & -> & Ht & Hpre).
    destruct (upto_last_close t) as [m|] eqn:Hclose.
    + destruct (upto_last_close_Some t m Hclose) as (p' & post & Htm & Hm & Hpost).
      exists pre. destruct p' as [|x q].
      * rewrite string_app_empty_l in Hm. subst m. rewrite Ht, string_app_cons in Htm.
        injection Htm as Hbrace _. vm_compute in Hbrace. discriminate.
      * rewrite string_app_cons in Hm. subst m. rewrite Ht, string_app_cons in Htm.
        injection Htm as <- Ht'. exists q, post.
        repeat split; try done. f_equal. by rewrite Ht, Ht', string_app_cons.
    + intros pre0 inner post Heq.
      apply (f_equal list_ascii_of_string) in Heq.
      rewrite !list_ascii_of_string_app in Heq. cbn [list_ascii_of_string] in Heq.
      rewrite list_ascii_of_string_app in Heq. cbn [list_ascii_of_string] in Heq.
      destruct (first_occurrence_suffix _ _ _ _ _ Hpre Heq) as [mid Hmid].
      apply (upto_last_close_None t Hclose). rewrite Hmid.
      rewrite elem_of_app, elem_of_cons, elem_of_app, elem_of_cons. auto.
  - intros pre inner post ->. apply (from_first_open_None _ Hopen).
    rewrite list_ascii_of_string_app. cbn [list_ascii_of_string].
    rewrite elem_of_app, elem_of_cons. auto.
Qed.
